(** * MixingHandler: event categorisation over a multi-dimensional bin grid

    Shallow embedding of [PWGDQ/Core/MixingHandler.cxx] and verification of
    its encode/decode scheme.

    - C++ [int] is a 32-bit two's-complement integer, carried as a [Z].  The
      language leaves signed overflow undefined; the model gives [+], [-] and
      [*] the wrap-around the hardware computes ([I32.wrap]).  [/] and [%]
      truncate towards zero and fault on a zero divisor.
    - C++ [float] is carried as [spec_float] (IEEE 754, with signed zeros,
      infinities and NaN); the code only ever compares floats.
    - [std::vector] and [TArrayF] are lists.  An index outside a vector, the
      read of a local that was never assigned, a faulting division and the
      exception of a [new[]] with a negative length are explicit [Undefined]
      outcomes: the call gives no result.
    - The observable array handed to [FindEventCategory] is a function from
      identifiers to floats.

    The second part embeds the selection task of
    [PWGHF/TableProducer/HFLcCandidateSelector.cxx]: its two topological
    selections and the loop of [process].  What the task takes from the
    analysis framework (table columns, [findBin], the PID selector, the cut
    table) is a record of parameters; C++ [double] is a [spec_float]. *)

From Stdlib Require Import ZArith List Lia Bool SpecFloat.
From Stdlib Require String.
Import ListNotations.
Local Open Scope Z_scope.

(* ================================================================== *)
(** * Outcomes of a call *)

Inductive fault : Type :=
| UninitialisedRead   (* a local is read before any assignment *)
| DivisionFault       (* [/] or [%] by zero, or INT_MIN by -1 *)
| OutOfBounds         (* [operator[]] past the end of a vector *)
| BadArrayNewLength.  (* [new T[n]] with a negative [n] throws *)

Inductive outcome (A : Type) : Type :=
| Done (a : A)
| Undefined (f : fault).
Arguments Done {A} a.
Arguments Undefined {A} f.

Definition bind {A B : Type} (m : outcome A) (k : A -> outcome B) : outcome B :=
  match m with
  | Done a => k a
  | Undefined f => Undefined f
  end.

Declare Scope outcome_scope.
Delimit Scope outcome_scope with outcome.
Notation "x <- m ;; k" := (bind m (fun x => k))
  (at level 61, m at next level, right associativity) : outcome_scope.
Local Open Scope outcome_scope.

(** [v[i]] on a [std::vector]. *)
Definition at_ {A : Type} (v : list A) (i : nat) : outcome A :=
  match nth_error v i with
  | Some a => Done a
  | None => Undefined OutOfBounds
  end.

(** [for (i : idx) s = body(i, s)], stopping at the first undefined step. *)
Fixpoint for_each {S : Type} (idx : list nat) (body : nat -> S -> outcome S)
  (s : S) : outcome S :=
  match idx with
  | [] => Done s
  | i :: rest => s' <- body i s ;; for_each rest body s'
  end.

(* ================================================================== *)
(** * 32-bit signed arithmetic *)

Module I32.
Definition min_signed : Z := - 2 ^ 31.
Definition max_signed : Z := 2 ^ 31 - 1.

Definition wrap (z : Z) : Z := (z + 2 ^ 31) mod 2 ^ 32 - 2 ^ 31.

Definition add (a b : Z) : Z := wrap (a + b).
Definition sub (a b : Z) : Z := wrap (a - b).
Definition mul (a b : Z) : Z := wrap (a * b).

Definition faults (a b : Z) : bool :=
  (b =? 0) || ((a =? min_signed) && (b =? -1)).

Definition quot (a b : Z) : outcome Z :=
  if faults a b then Undefined DivisionFault else Done (Z.quot a b).
Definition rem (a b : Z) : outcome Z :=
  if faults a b then Undefined DivisionFault else Done (Z.rem a b).

Definition fits (z : Z) : Prop := min_signed <= z <= max_signed.
End I32.

(* ================================================================== *)
(** * Single-precision floats *)

Definition float : Type := spec_float.

Module F32.
Definition prec : Z := 24.
Definition emax : Z := 128.

(** The [float] holding a small integer exactly (a literal such as [10.f]). *)
Definition of_Z (z : Z) : float := binary_normalize prec emax z 0 false.

(** Representable in binary32. *)
Definition valid (x : float) : bool := valid_binary prec emax x.

Definition is_nan (x : float) : bool :=
  match x with S754_nan => true | _ => false end.
End F32.

(* ================================================================== *)
(** * ROOT collaborators: [TArrayF] and [TMath::BinarySearch] *)

(** Modelled from the spec: [TArrayF] is ROOT's array of floats and is not
    part of the sources; the spec speaks of "an explicit, independently-sized
    set of bin edges" per variable.  It is the sequence of its elements. *)
Definition TArrayF : Type := list float.

(** Modelled from the spec: [TArrayF::GetSize()], the "edgeCount" of an
    axis. *)
Definition GetSize (a : TArrayF) : Z := Z.of_nat (length a).

(** Modelled from the spec: [TArrayF::Set(n, array)], the copy of the caller's
    edges into the handler ("raw dynamically-sized buffers copied" at
    registration).  The array becomes a copy of the [n] floats read at
    [array]; [array] is the block the pointer designates, and reading past
    its end is undefined. *)
Definition TArrayF_Set (n : Z) (array : list float) : outcome TArrayF :=
  if (Z.to_nat n <=? length array)%nat
  then Done (firstn (Z.to_nat n) array)
  else Undefined OutOfBounds.

Module TMath.
(** [*p] for [p] inside the searched range. *)
Definition deref (array : list float) (p : nat) : float :=
  nth p array S754_nan.

(** The loop of [std::lower_bound(array + first, array + first + len, value)]:
    halve [len] until it is zero.  [len] shrinks at every turn, so [len]
    turns of fuel are always enough. *)
Fixpoint lower_bound_loop (fuel : nat) (array : list float)
  (first len : nat) (value : float) : nat :=
  match fuel with
  | O => first
  | S fuel' =>
      if (len =? 0)%nat then first
      else
        let half := Nat.div2 len in
        let middle := (first + half)%nat in
        if SFltb (deref array middle) value
        then lower_bound_loop fuel' array (middle + 1) (len - half - 1) value
        else lower_bound_loop fuel' array first half value
  end.

Definition lower_bound (n : nat) (array : list float) (value : float) : nat :=
  lower_bound_loop n array 0 n value.

(** Modelled from the spec: [TMath::BinarySearch] is ROOT library code that
    is not part of the sources; the spec describes it as a binary search
    over the ascending edges "returning the position of the edge immediately
    <= the value", with a "below first edge" sentinel.  The definition
    follows ROOT's implementation of exactly that: [std::lower_bound], then
    the found position when it holds [value] and the position before it
    otherwise (hence -1 below the first element). *)
Definition BinarySearch (n : Z) (array : list float) (value : float) : Z :=
  let pind := lower_bound (Z.to_nat n) array value in
  if (Z.of_nat pind <? n) && SFeqb (deref array pind) value
  then Z.of_nat pind
  else Z.of_nat pind - 1.
End TMath.

(* ================================================================== *)
(** * The handler *)

(** The data members of [MixingHandler], in the order of the constructor's
    initialiser list. *)
Record MixingHandler : Type := mkMixingHandler {
  fIsInitialized : bool;
  fVariableLimits : list TArrayF;
  fVariables : list Z
}.

(** Both constructors: not initialised, no axis. *)
Definition MixingHandler_new : MixingHandler :=
  {| fIsInitialized := false; fVariableLimits := []; fVariables := [] |}.

(** [fVariables.size()] *)
Definition nvars (h : MixingHandler) : nat := length (fVariables h).

(** Class invariant: the two vectors are pushed to together. *)
Definition handler_ok (h : MixingHandler) : bool :=
  (length (fVariableLimits h) =? length (fVariables h))%nat.

(** ** Registration *)

Section Registration.
(** [VarManager]'s usage registry and [VarManager::SetUseVariable] are not
    part of the sources: they are parameters. *)
Variable Registry : Type.
Variable SetUseVariable : Z -> Registry -> Registry.
(** What a buffer fresh from [new float[n]] holds before it is written. *)
Variable fresh : nat -> float.

(** [AddMixingVariable(int var, int nBins, float* binLims)]; [binLims] is the
    block the pointer designates. *)
Definition AddMixingVariable (var nBins : Z) (binLims : list float)
  (w : MixingHandler * Registry) : outcome (MixingHandler * Registry) :=
  let (h, used) := w in
  let vars := fVariables h ++ [var] in
  varBins <- TArrayF_Set nBins binLims ;;
  let lims := fVariableLimits h ++ [varBins] in
  Done ({| fIsInitialized := fIsInitialized h;
           fVariableLimits := lims;
           fVariables := vars |},
        SetUseVariable var used).

(** [bins[i] = x] on a raw array of known extent. *)
Fixpoint store (bins : list float) (i : nat) (x : float) : list float :=
  match bins, i with
  | [], _ => []
  | _ :: t, O => x :: t
  | b :: t, S i' => b :: store t i' x
  end.

(** [AddMixingVariable(int var, int nBins, std::vector<float> binLims)];
    [new float[nBins]] throws [std::bad_array_new_length] on a negative
    count, before anything is registered. *)
Definition AddMixingVariable_vector (var nBins : Z) (binLims : list float)
  (w : MixingHandler * Registry) : outcome (MixingHandler * Registry) :=
  if nBins <? 0 then Undefined BadArrayNewLength
  else
    let n := Z.to_nat nBins in
    let bins0 := map fresh (seq 0 n) in
    bins <- for_each (seq 0 n)
              (fun i bins => x <- at_ binLims i ;; Done (store bins i x)) bins0 ;;
    AddMixingVariable var nBins bins w.
End Registration.

(** ** Queries *)

(** [GetMixingVariable(var)] *)
Definition GetMixingVariable (var : Z) (h : MixingHandler) : outcome Z :=
  for_each (seq 0 (nvars h))
    (fun iVar varNum =>
       v <- at_ (fVariables h) iVar ;;
       Done (if v =? var then Z.of_nat iVar else varNum))
    (-1).

(** Modelled from the spec: [TArrayF::At(i)], the read of one edge;
    bounds-checked by ROOT (0 outside the array). *)
Definition TArrayF_At (a : TArrayF) (i : nat) : float :=
  nth i a (S754_zero false).

(** [GetMixingVariableLimits(var)] *)
Definition GetMixingVariableLimits (var : Z) (h : MixingHandler)
  : outcome (list float) :=
  for_each (seq 0 (nvars h))
    (fun iVar binLimits =>
       v <- at_ (fVariables h) iVar ;;
       if v =? var then
         lims <- at_ (fVariableLimits h) iVar ;;
         for_each (seq 0 (Z.to_nat (GetSize lims)))
           (fun iBin bl => Done (bl ++ [TArrayF_At lims iBin])) binLimits
       else Done binLimits)
    [].

(** [Init()]: the pool size is computed into a local and dropped; the flag is
    set. *)
Definition pool_size (h : MixingHandler) : outcome Z :=
  for_each (seq 0 (nvars h))
    (fun iVar size =>
       lims <- at_ (fVariableLimits h) iVar ;;
       Done (I32.mul size (GetSize lims - 1)))
    1.

Definition Init (h : MixingHandler) : outcome MixingHandler :=
  _ <- pool_size h ;;
  Done {| fIsInitialized := true;
          fVariableLimits := fVariableLimits h;
          fVariables := fVariables h |}.

(** First loop of [FindEventCategory]: the bin on every axis, [None] at the
    first axis whose value is outside its limits ([return -1]). *)
Fixpoint find_bins (values : Z -> float) (h : MixingHandler)
  (idx : list nat) (bin : list Z) : outcome (option (list Z)) :=
  match idx with
  | [] => Done (Some bin)
  | i :: rest =>
      lims <- at_ (fVariableLimits h) i ;;
      var <- at_ (fVariables h) i ;;
      let binValue := TMath.BinarySearch (GetSize lims) lims (values var) in
      let bin := bin ++ [binValue] in
      b <- at_ bin i ;;
      if (b =? -1) || (b =? GetSize lims - 1)
      then Done None
      else find_bins values h rest bin
  end.

(** Inner loop of the second loop: [tempCategory] for axis [iVar]. *)
Definition tempCategory (h : MixingHandler) (bin : list Z) (iVar : nat)
  : outcome Z :=
  for_each (seq iVar (nvars h - iVar))
    (fun iVar2 temp =>
       if (iVar2 =? iVar)%nat then
         b <- at_ bin iVar2 ;; Done (I32.mul temp b)
       else
         lims <- at_ (fVariableLimits h) iVar2 ;;
         Done (I32.mul temp (GetSize lims - 1)))
    1.

(** Second loop of [FindEventCategory]: the category of a bin vector. *)
Definition category_of_bins (h : MixingHandler) (bin : list Z) : outcome Z :=
  for_each (seq 0 (nvars h))
    (fun iVar category =>
       t <- tempCategory h bin iVar ;; Done (I32.add category t))
    0.

(** [FindEventCategory(values)]: the category and the handler afterwards. *)
Definition FindEventCategory (values : Z -> float) (h : MixingHandler)
  : outcome (Z * MixingHandler) :=
  if (nvars h =? 0)%nat then Done (-1, h)
  else
    h <- (if fIsInitialized h then Done h else Init h) ;;
    bins <- find_bins values h (seq 0 (nvars h)) [] ;;
    match bins with
    | None => Done (-1, h)
    | Some bin => category <- category_of_bins h bin ;; Done (category, h)
    end.

(** The search for [var] in [GetBinFromCategory]: [tempVar] stays unassigned
    ([None]) until a match. *)
Definition find_tempVar (var : Z) (h : MixingHandler) : outcome (option nat) :=
  for_each (seq 0 (nvars h))
    (fun i tempVar =>
       v <- at_ (fVariables h) i ;;
       Done (if v =? var then Some i else tempVar))
    None.

(** [norm]: the weights of the axes after [tempVar], last axis first. *)
Definition norm_after (h : MixingHandler) (tempVar : nat) : outcome Z :=
  for_each (rev (seq (tempVar + 1) (nvars h - 1 - tempVar)))
    (fun i norm =>
       lims <- at_ (fVariableLimits h) i ;;
       Done (I32.mul norm (GetSize lims - 1)))
    1.

(** [GetBinFromCategory(var, category) const] *)
Definition GetBinFromCategory (var category : Z) (h : MixingHandler)
  : outcome Z :=
  if (nvars h =? 0)%nat then Done (-1)
  else
    tempVar <- find_tempVar var h ;;
    match tempVar with
    | None => Undefined UninitialisedRead
    | Some tempVar =>
        norm <- norm_after h tempVar ;;
        r <- I32.rem category norm ;;
        let truncatedCategory := I32.sub category r in
        truncatedCategory <- I32.quot truncatedCategory norm ;;
        lims <- at_ (fVariableLimits h) tempVar ;;
        I32.rem truncatedCategory (GetSize lims - 1)
    end.

(* ================================================================== *)
(** * The vocabulary of the specification *)

(** Edge [i] of an axis. *)
Definition edge (lims : TArrayF) (i : nat) : float := nth i lims S754_nan.

Definition firstEdge (lims : TArrayF) : float := edge lims 0.
Definition lastEdge (lims : TArrayF) : float := edge lims (length lims - 1).

(** Strictly ascending edges. *)
Fixpoint ascending (lims : TArrayF) : bool :=
  match lims with
  | a :: (b :: _) as rest => SFltb a b && ascending rest
  | _ => true
  end.

(** [v] lies in [[firstEdge, lastEdge)]; never so on an axis without edges. *)
Definition inside (lims : TArrayF) (v : float) : bool :=
  match lims with
  | [] => false
  | _ => SFleb (firstEdge lims) v && SFltb v (lastEdge lims)
  end.

(** [edgeCount - 1] *)
Definition binCount (lims : TArrayF) : Z := GetSize lims - 1.

Definition counts (h : MixingHandler) : list Z :=
  map binCount (fVariableLimits h).

Definition prodZ (l : list Z) : Z := fold_right Z.mul 1 l.

(** The number of cells of the grid. *)
Definition totalCells (h : MixingHandler) : Z := prodZ (counts h).

(** The registered axes, in registration order. *)
Definition axes (h : MixingHandler) : list (Z * TArrayF) :=
  combine (fVariables h) (fVariableLimits h).

(** The bin the search finds for [v] on an axis, as [FindEventCategory]
    calls it. *)
Definition bin_of (lims : TArrayF) (v : float) : Z :=
  TMath.BinarySearch (GetSize lims) lims v.

(** The bin of the observable vector on one axis. *)
Definition axis_bin (values : Z -> float) (axis : Z * TArrayF) : Z :=
  bin_of (snd axis) (values (fst axis)).

Definition axis_bins (values : Z -> float) (h : MixingHandler) : list Z :=
  map (axis_bin values) (axes h).

(** Every registered axis has its value inside its edge range. *)
Definition all_inside (values : Z -> float) (h : MixingHandler) : bool :=
  forallb (fun axis => inside (snd axis) (values (fst axis))) (axes h).

Definition all_ascending (h : MixingHandler) : bool :=
  forallb ascending (fVariableLimits h).

(** Mixed-radix weighting as the specification words it: digit [i] weighs
    the product of the bin counts of the axes after [i]. *)
Fixpoint mixed_radix (bins radices : list Z) : Z :=
  match bins, radices with
  | b :: bins', _ :: radices' => b * prodZ radices' + mixed_radix bins' radices'
  | _, _ => 0
  end.

(** The four query operations and the handler each leaves behind. *)
Inductive query : Type :=
| Categorize (values : Z -> float)
| DecodeAxis (var category : Z)
| LookupAxis (var : Z)
| AxisLimits (var : Z).

Definition run_query (q : query) (h : MixingHandler) : outcome MixingHandler :=
  match q with
  | Categorize values => r <- FindEventCategory values h ;; Done (snd r)
  | DecodeAxis var category => _ <- GetBinFromCategory var category h ;; Done h
  | LookupAxis var => _ <- GetMixingVariable var h ;; Done h
  | AxisLimits var => _ <- GetMixingVariableLimits var h ;; Done h
  end.

(* ================================================================== *)
(** * Auxiliary vocabulary of the proofs *)

(** The handler [Init] leaves behind. *)
Definition initialised (h : MixingHandler) : MixingHandler :=
  {| fIsInitialized := true;
     fVariableLimits := fVariableLimits h;
     fVariables := fVariables h |}.

(** The range test of [FindEventCategory] on one axis. *)
Definition usable (values : Z -> float) (axis : Z * TArrayF) : bool :=
  negb ((axis_bin values axis =? -1)
        || (axis_bin values axis =? GetSize (snd axis) - 1)).

(** One turn of a scan for [var]: a match at [i] overwrites the result. *)
Definition scan_step (S : Type) (inj : nat -> S) (vars : list Z) (var : Z)
  (s : S) (i : nat) : S :=
  if nth i vars 0 =? var then inj i else s.

(** A chain of 32-bit multiplications. *)
Definition wprod (s : Z) (l : list Z) : Z := fold_left I32.mul l s.

(** The digit [GetBinFromCategory] extracts at every position of a radix
    list, first position first. *)
Fixpoint digits (c : Z) (radices : list Z) : list Z :=
  match radices with
  | [] => []
  | b :: post => Z.rem (Z.quot c (prodZ post)) b :: digits c post
  end.

(** A digit within its radix. *)
Definition in_radix (d b : Z) : Prop := 0 <= d < b.

(** The edges of an axis given by small integers. *)
Definition edges (zs : list Z) : TArrayF := map F32.of_Z zs.

(** A grid of [n] axes with identifiers [0 .. n-1], each with the edges
    [0, 1, .., k]. *)
Definition grid (k n : nat) : MixingHandler :=
  {| fIsInitialized := false;
     fVariableLimits := repeat (map (fun e => F32.of_Z (Z.of_nat e)) (seq 0 (S k))) n;
     fVariables := map Z.of_nat (seq 0 n) |}.

(** The two-axis grid of the scenario, under the identifiers 0 and 1. *)
Definition scenario : MixingHandler :=
  {| fIsInitialized := false;
     fVariableLimits := [edges [0; 10; 20; 30]; edges [-1; 1]];
     fVariables := [0; 1] |}.

(** An observable vector with [x0] for identifier 0 and [x1] elsewhere. *)
Definition scenario_values (x0 x1 : Z) : Z -> float :=
  fun var => if var =? 0 then F32.of_Z x0 else F32.of_Z x1.

(** The same value [x] for every identifier. *)
Definition constant_values (x : Z) : Z -> float := fun _ => F32.of_Z x.

(* ================================================================== *)
(** * Further vocabulary of the handler *)

(** The edges of one axis when its identifier is [var], nothing otherwise. *)
Definition limits_if (var : Z) (axis : Z * TArrayF) : list float :=
  if fst axis =? var then snd axis else [].

(** The registrations of a setup phase, in order: identifier and edges of
    every axis, each passed with its own length as bin-limit count. *)
Fixpoint register_all (Registry : Type) (SetUseVariable : Z -> Registry -> Registry)
  (regs : list (Z * list float)) (w : MixingHandler * Registry)
  : outcome (MixingHandler * Registry) :=
  match regs with
  | [] => Done w
  | (var, lims) :: rest =>
      w' <- AddMixingVariable Registry SetUseVariable var
              (Z.of_nat (length lims)) lims w ;;
      register_all Registry SetUseVariable rest w'
  end.

(** Observable values that land in the bins [ds] of the axes [axs]: the
    value of an identifier is the lower edge of its bin. *)
Fixpoint values_at (axs : list (Z * TArrayF)) (ds : list Z) (var : Z) : float :=
  match axs, ds with
  | (v, lims) :: axs', d :: ds' =>
      if v =? var then edge lims (Z.to_nat d) else values_at axs' ds' var
  | _, _ => S754_nan
  end.

(* ================================================================== *)
(** * The Lc candidate selector *)

(** C++ [double], carried like [float]; only compared, negated and, for the
    mass window, subtracted. *)
Definition double : Type := spec_float.

Module F64.
Definition prec : Z := 53.
Definition emax : Z := 1024.
Definition of_Z (z : Z) : double := binary_normalize prec emax z 0 false.
Definition sub (x y : double) : double := SFsub prec emax x y.
(** [std::abs] *)
Definition abs (x : double) : double := SFabs x.
(** [x < y], [x <= y], [x > y], [x >= y] *)
Definition lt (x y : double) : bool := SFltb x y.
Definition le (x y : double) : bool := SFleb x y.
Definition gt (x y : double) : bool := SFltb y x.
Definition ge (x y : double) : bool := SFleb y x.
Definition is_nan (x : double) : bool :=
  match x with S754_nan => true | _ => false end.
End F64.

(** What the task takes from the analysis framework and from headers that
    are not part of the sources: the candidate and track tables with their
    columns (values as the comparisons see them, promoted to [double]), the
    mass helpers, [findBin], the PID selector with its setters and status
    codes, and the enumerators the task names. *)
Record Framework : Type := {
  Candidate : Type;
  Track : Type;
  pt : Candidate -> double;
  cpa : Candidate -> double;
  chi2PCA : Candidate -> double;
  decayLength : Candidate -> double;
  hfflag : Candidate -> Z;
  index0Id : Candidate -> Z;
  index0_as : Candidate -> Track;
  index1_as : Candidate -> Track;
  index2_as : Candidate -> Track;
  track_pt : Track -> double;
  globalIndex : Track -> Z;
  InvMassLcpKpi : Candidate -> double;
  InvMassLcpiKp : Candidate -> double;
  massLambdaCPlus : double;
  findBin : list double -> double -> Z;
  LcToPKPi : Z;
  TrackSelectorPID : Type;
  TrackSelectorPID_new : Z -> TrackSelectorPID;
  setPDG : Z -> TrackSelectorPID -> TrackSelectorPID;
  setRangePtTPC : double -> double -> TrackSelectorPID -> TrackSelectorPID;
  setRangeNSigmaTPC : double -> double -> TrackSelectorPID -> TrackSelectorPID;
  setRangeNSigmaTPCCondTOF : double -> double -> TrackSelectorPID -> TrackSelectorPID;
  setRangePtTOF : double -> double -> TrackSelectorPID -> TrackSelectorPID;
  setRangeNSigmaTOF : double -> double -> TrackSelectorPID -> TrackSelectorPID;
  setRangeNSigmaTOFCondTPC : double -> double -> TrackSelectorPID -> TrackSelectorPID;
  getStatusTrackPIDAll : TrackSelectorPID -> Track -> Z;
  PIDAccepted : Z;
  PIDRejected : Z;
  kPiPlus : Z;
  kKPlus : Z;
  kProton : Z
}.

(** The configurables of the task; [cuts] is the labelled array, read by pT
    bin and column label. *)
Record Configurables : Type := {
  d_pTCandMin : double;
  d_pTCandMax : double;
  d_FilterPID : bool;
  d_pidTPCMinpT : double;
  d_pidTPCMaxpT : double;
  d_nSigmaTPC : double;
  d_nSigmaTPCCombined : double;
  d_pidTOFMinpT : double;
  d_pidTOFMaxpT : double;
  d_nSigmaTOF : double;
  d_nSigmaTOFCombined : double;
  pTBins : list double;
  cuts : Z -> String.string -> double
}.

(** The column labels of the cut table the task reads. *)
Module Label.
Import Stdlib.Strings.String.
Local Open Scope string_scope.
Definition cos_pointing_angle : string := "cos pointing angle".
Definition Chi2PCA : string := "Chi2PCA".
Definition decay_length : string := "decay length".
Definition pT_p : string := "pT p".
Definition pT_K : string := "pT K".
Definition pT_Pi : string := "pT Pi".
Definition m : string := "m".
End Label.

(** [selectionTopol(candidate)] *)
Definition selectionTopol (fw : Framework) (cfg : Configurables)
  (candidate : Candidate fw) : bool :=
  let candpT := pt fw candidate in
  let pTBin := findBin fw (pTBins cfg) candpT in
  if pTBin =? -1 then false
  else if F64.lt candpT (d_pTCandMin cfg) || F64.ge candpT (d_pTCandMax cfg) then false
  else if F64.le (cpa fw candidate) (cuts cfg pTBin Label.cos_pointing_angle) then false
  else if F64.gt (chi2PCA fw candidate) (cuts cfg pTBin Label.Chi2PCA) then false
  else if F64.le (decayLength fw candidate) (cuts cfg pTBin Label.decay_length) then false
  else true.

(** [selectionTopolConjugate(candidate, trackProton, trackKaon, trackPion)] *)
Definition selectionTopolConjugate (fw : Framework) (cfg : Configurables)
  (candidate : Candidate fw) (trackProton trackKaon trackPion : Track fw) : bool :=
  let candpT := pt fw candidate in
  let pTBin := findBin fw (pTBins cfg) candpT in
  if pTBin =? -1 then false
  else if F64.lt (track_pt fw trackProton) (cuts cfg pTBin Label.pT_p)
          || F64.lt (track_pt fw trackKaon) (cuts cfg pTBin Label.pT_K)
          || F64.lt (track_pt fw trackPion) (cuts cfg pTBin Label.pT_Pi) then false
  else if globalIndex fw trackProton =? index0Id fw candidate then
    if F64.gt (F64.abs (F64.sub (InvMassLcpKpi fw candidate) (massLambdaCPlus fw)))
         (cuts cfg pTBin Label.m) then false else true
  else
    if F64.gt (F64.abs (F64.sub (InvMassLcpiKp fw candidate) (massLambdaCPlus fw)))
         (cuts cfg pTBin Label.m) then false else true.

(** The three PID selectors [process] sets up. *)
Definition selectorPion (fw : Framework) (cfg : Configurables) : TrackSelectorPID fw :=
  let s := TrackSelectorPID_new fw (kPiPlus fw) in
  let s := setRangePtTPC fw (d_pidTPCMinpT cfg) (d_pidTPCMaxpT cfg) s in
  let s := setRangeNSigmaTPC fw (SFopp (d_nSigmaTPC cfg)) (d_nSigmaTPC cfg) s in
  let s := setRangeNSigmaTPCCondTOF fw (SFopp (d_nSigmaTPCCombined cfg))
             (d_nSigmaTPCCombined cfg) s in
  let s := setRangePtTOF fw (d_pidTOFMinpT cfg) (d_pidTOFMaxpT cfg) s in
  let s := setRangeNSigmaTOF fw (SFopp (d_nSigmaTOF cfg)) (d_nSigmaTOF cfg) s in
  setRangeNSigmaTOFCondTPC fw (SFopp (d_nSigmaTOFCombined cfg))
    (d_nSigmaTOFCombined cfg) s.

Definition selectorKaon (fw : Framework) (cfg : Configurables) : TrackSelectorPID fw :=
  setPDG fw (kKPlus fw) (selectorPion fw cfg).

Definition selectorProton (fw : Framework) (cfg : Configurables) : TrackSelectorPID fw :=
  setPDG fw (kProton fw) (selectorPion fw cfg).

(** [candidate.hfflag() & 1 << DecayType::LcToPKPi] *)
Definition hasLcToPKPi (fw : Framework) (candidate : Candidate fw) : bool :=
  negb (Z.land (hfflag fw candidate) (Z.shiftl 1 (LcToPKPi fw)) =? 0).

(** The body of the loop of [process] for one candidate: the output table
    after it; [hfSelLcCandidate(a, b)] appends the row [(a, b)]. *)
Definition process_candidate (fw : Framework) (cfg : Configurables)
  (hfSelLcCandidate : list (Z * Z)) (candidate : Candidate fw) : list (Z * Z) :=
  let statusLcpKpi := 0 in
  let statusLcpiKp := 0 in
  if negb (hasLcToPKPi fw candidate) then
    hfSelLcCandidate ++ [(statusLcpKpi, statusLcpiKp)]
  else
    let trackPos1 := index0_as fw candidate in
    let trackNeg := index1_as fw candidate in
    let trackPos2 := index2_as fw candidate in
    if negb (selectionTopol fw cfg candidate) then
      hfSelLcCandidate ++ [(statusLcpKpi, statusLcpiKp)]
    else
      let topolLcpKpi :=
        selectionTopolConjugate fw cfg candidate trackPos1 trackNeg trackPos2 in
      let topolLcpiKp :=
        selectionTopolConjugate fw cfg candidate trackPos2 trackNeg trackPos1 in
      if negb topolLcpKpi && negb topolLcpiKp then
        hfSelLcCandidate ++ [(statusLcpKpi, statusLcpiKp)]
      else
        let pid :=
          if negb (d_FilterPID cfg) then (1, 1)
          else
            let pidTrackPos1Proton :=
              getStatusTrackPIDAll fw (selectorProton fw cfg) trackPos1 in
            let pidTrackPos2Proton :=
              getStatusTrackPIDAll fw (selectorProton fw cfg) trackPos2 in
            let pidTrackPos1Pion :=
              getStatusTrackPIDAll fw (selectorPion fw cfg) trackPos1 in
            let pidTrackPos2Pion :=
              getStatusTrackPIDAll fw (selectorPion fw cfg) trackPos2 in
            let pidTrackNegKaon :=
              getStatusTrackPIDAll fw (selectorKaon fw cfg) trackNeg in
            let pidLcpKpi :=
              if (pidTrackPos1Proton =? PIDAccepted fw)
                 && (pidTrackNegKaon =? PIDAccepted fw)
                 && (pidTrackPos2Pion =? PIDAccepted fw) then 1
              else if (pidTrackPos1Proton =? PIDRejected fw)
                      || (pidTrackNegKaon =? PIDRejected fw)
                      || (pidTrackPos2Pion =? PIDRejected fw) then 0
              else -1 in
            let pidLcpiKp :=
              if (pidTrackPos2Proton =? PIDAccepted fw)
                 && (pidTrackNegKaon =? PIDAccepted fw)
                 && (pidTrackPos1Pion =? PIDAccepted fw) then 1
              else if (pidTrackPos1Pion =? PIDRejected fw)
                      || (pidTrackNegKaon =? PIDRejected fw)
                      || (pidTrackPos2Proton =? PIDRejected fw) then 0
              else -1 in
            (pidLcpKpi, pidLcpiKp) in
        let pidLcpKpi := fst pid in
        let pidLcpiKp := snd pid in
        if (pidLcpKpi =? 0) && (pidLcpiKp =? 0) then
          hfSelLcCandidate ++ [(statusLcpKpi, statusLcpiKp)]
        else
          let statusLcpKpi :=
            if ((pidLcpKpi =? -1) || (pidLcpKpi =? 1)) && topolLcpKpi
            then 1 else statusLcpKpi in
          let statusLcpiKp :=
            if ((pidLcpiKp =? -1) || (pidLcpiKp =? 1)) && topolLcpiKp
            then 1 else statusLcpiKp in
          hfSelLcCandidate ++ [(statusLcpKpi, statusLcpiKp)].

(** [process(candidates, tracks)]: the loop over the candidates. *)
Definition process (fw : Framework) (cfg : Configurables)
  (candidates : list (Candidate fw)) (hfSelLcCandidate : list (Z * Z))
  : list (Z * Z) :=
  fold_left (process_candidate fw cfg) candidates hfSelLcCandidate.

(** ** A small instance *)

(** Tracks and candidates given by their columns. *)
Record SampleTrack : Type := {
  sample_globalIndex : Z;
  sample_track_pt : double;
  sample_status : Z
}.

Record SampleCandidate : Type := {
  sample_hfflag : Z;
  sample_pt : double;
  sample_cpa : double;
  sample_chi2PCA : double;
  sample_decayLength : double;
  sample_massLcpKpi : double;
  sample_massLcpiKp : double;
  sample_prong0 : SampleTrack;
  sample_prong1 : SampleTrack;
  sample_prong2 : SampleTrack
}.

(** A bin search over pT edges: -1 outside [[first, last)], otherwise the
    number of edges at or below the value, less one. *)
Definition sample_findBin (bins : list double) (value : double) : Z :=
  match bins with
  | [] => -1
  | first :: _ =>
      if F64.lt value first || F64.ge value (last bins first) then -1
      else Z.of_nat (length (filter (fun e => F64.le e value) bins)) - 1
  end.

(** An instance of the framework: the PID status of a track is stored with
    it and is the same under every selector; status codes 1 (rejected) and 3
    (accepted); decay-type bit 1; PDG codes of pion, kaon and proton. *)
Definition sampleFramework : Framework :=
  {| Candidate := SampleCandidate;
     Track := SampleTrack;
     pt := sample_pt;
     cpa := sample_cpa;
     chi2PCA := sample_chi2PCA;
     decayLength := sample_decayLength;
     hfflag := sample_hfflag;
     index0Id := fun c => sample_globalIndex (sample_prong0 c);
     index0_as := sample_prong0;
     index1_as := sample_prong1;
     index2_as := sample_prong2;
     track_pt := sample_track_pt;
     globalIndex := sample_globalIndex;
     InvMassLcpKpi := sample_massLcpKpi;
     InvMassLcpiKp := sample_massLcpiKp;
     massLambdaCPlus := F64.of_Z 2;
     findBin := sample_findBin;
     LcToPKPi := 1;
     TrackSelectorPID := Z;
     TrackSelectorPID_new := fun pdg => pdg;
     setPDG := fun pdg _ => pdg;
     setRangePtTPC := fun _ _ s => s;
     setRangeNSigmaTPC := fun _ _ s => s;
     setRangeNSigmaTPCCondTOF := fun _ _ s => s;
     setRangePtTOF := fun _ _ s => s;
     setRangeNSigmaTOF := fun _ _ s => s;
     setRangeNSigmaTOFCondTPC := fun _ _ s => s;
     getStatusTrackPIDAll := fun _ t => sample_status t;
     PIDAccepted := 3;
     PIDRejected := 1;
     kPiPlus := 211;
     kKPlus := 321;
     kProton := 2212 |}.

(** Configurables with one pT bin [[0, 36)], a mass window of 1 and a
    chi2 cut of 2; every other cut is 0. *)
Definition sampleConfigurables : Configurables :=
  {| d_pTCandMin := F64.of_Z 0;
     d_pTCandMax := F64.of_Z 36;
     d_FilterPID := true;
     d_pidTPCMinpT := F64.of_Z 0;
     d_pidTPCMaxpT := F64.of_Z 1;
     d_nSigmaTPC := F64.of_Z 3;
     d_nSigmaTPCCombined := F64.of_Z 5;
     d_pidTOFMinpT := F64.of_Z 0;
     d_pidTOFMaxpT := F64.of_Z 2;
     d_nSigmaTOF := F64.of_Z 3;
     d_nSigmaTOFCombined := F64.of_Z 5;
     pTBins := [F64.of_Z 0; F64.of_Z 36];
     cuts := fun _ label =>
       if String.eqb label Label.Chi2PCA then F64.of_Z 2
       else if String.eqb label Label.m then F64.of_Z 1
       else F64.of_Z 0 |}.

Definition sampleTrack (index status : Z) : SampleTrack :=
  {| sample_globalIndex := index;
     sample_track_pt := F64.of_Z 1;
     sample_status := status |}.

(** A candidate of pT 5 with the decay-type bit set, daughters 10, 11 and
    12, pKpi mass 2 and piKp mass 4; [quality] is its cosine of pointing
    angle, chi2 and decay length, [status] the PID status of its first
    daughter (the other two are accepted). *)
Definition sampleCandidate (quality : double) (status : Z) : SampleCandidate :=
  {| sample_hfflag := 2;
     sample_pt := F64.of_Z 5;
     sample_cpa := quality;
     sample_chi2PCA := quality;
     sample_decayLength := quality;
     sample_massLcpKpi := F64.of_Z 2;
     sample_massLcpiKp := F64.of_Z 4;
     sample_prong0 := sampleTrack 10 status;
     sample_prong1 := sampleTrack 11 3;
     sample_prong2 := sampleTrack 12 3 |}.

(** The PID decision of one hypothesis in [process], from the statuses of its
    proton, kaon and pion tracks: 1 accepted, 0 excluded, -1 otherwise. *)
Definition pidDecision (fw : Framework) (proton kaon pion : Z) : Z :=
  if (proton =? PIDAccepted fw) && (kaon =? PIDAccepted fw)
     && (pion =? PIDAccepted fw) then 1
  else if (proton =? PIDRejected fw) || (kaon =? PIDRejected fw)
          || (pion =? PIDRejected fw) then 0
  else -1.

(** The status flag of one hypothesis. *)
Definition statusFlag (pid : Z) (topol : bool) : Z :=
  if negb (pid =? 0) && topol then 1 else 0.

(* ================================================================== *)
(** * Tactics *)

(** Case analysis on the comparisons inside [SFcompare]. *)
Ltac sf_cases :=
  repeat match goal with
  | |- context [Pos.compare_cont Eq ?a ?b] =>
      change (Pos.compare_cont Eq a b) with (Pos.compare a b)
  | H : context [Pos.compare_cont Eq ?a ?b] |- _ =>
      change (Pos.compare_cont Eq a b) with (Pos.compare a b) in H
  end;
  repeat match goal with
  | H : context [Z.compare ?a ?b] |- _ => destruct (Z.compare_spec a b); subst
  | |- context [Z.compare ?a ?b] => destruct (Z.compare_spec a b); subst
  | H : context [Pos.compare ?a ?b] |- _ => destruct (Pos.compare_spec a b); subst
  | |- context [Pos.compare ?a ?b] => destruct (Pos.compare_spec a b); subst
  end; simpl in *; try congruence; try lia.

Ltac sf_split a b c :=
  destruct a as [[]|[]| |[] ? ?], b as [[]|[]| |[] ? ?], c as [[]|[]| |[] ? ?];
  simpl; try congruence; intros; sf_cases.

(** Closed comparisons of integers, by evaluation. *)
Ltac z_closed :=
  vm_compute; repeat split; try reflexivity; intros; discriminate.

(* ================================================================== *)
(** * Wrap-around arithmetic *)

Module I32Facts.
Import I32.

Lemma wrap_fits z : fits (wrap z).
Proof.
  unfold fits, wrap, min_signed, max_signed.
  pose proof (Z.mod_pos_bound (z + 2 ^ 31) (2 ^ 32) ltac:(lia)). lia.
Qed.

Lemma wrap_id z : fits z -> wrap z = z.
Proof.
  unfold fits, wrap, min_signed, max_signed. intros Hz.
  rewrite Z.mod_small; lia.
Qed.

Lemma wrap_shift z k : wrap (z + 2 ^ 32 * k) = wrap z.
Proof.
  unfold wrap. replace (z + 2 ^ 32 * k + 2 ^ 31) with (z + 2 ^ 31 + k * 2 ^ 32) by ring.
  now rewrite Z.mod_add by lia.
Qed.

Lemma wrap_repr z : exists k, wrap z = z + 2 ^ 32 * k.
Proof.
  exists (- ((z + 2 ^ 31) / 2 ^ 32)). unfold wrap.
  rewrite Z.mod_eq by lia. ring.
Qed.

Lemma mul_wrap_l a b : mul (wrap a) b = mul a b.
Proof.
  unfold mul. destruct (wrap_repr a) as [k ->].
  replace ((a + 2 ^ 32 * k) * b) with (a * b + 2 ^ 32 * (k * b)) by ring.
  apply wrap_shift.
Qed.

Lemma add_wrap_l a b : add (wrap a) b = add a b.
Proof.
  unfold add. destruct (wrap_repr a) as [k ->].
  replace (a + 2 ^ 32 * k + b) with (a + b + 2 ^ 32 * k) by ring.
  apply wrap_shift.
Qed.

Lemma add_wrap_r a b : add a (wrap b) = add a b.
Proof.
  unfold add. destruct (wrap_repr b) as [k ->].
  replace (a + (b + 2 ^ 32 * k)) with (a + b + 2 ^ 32 * k) by ring.
  apply wrap_shift.
Qed.

Lemma faults_false a b : b <> 0 -> (a <> min_signed \/ b <> -1) -> faults a b = false.
Proof.
  unfold faults. intros Hb H.
  destruct (Z.eqb_spec b 0); [contradiction|]. simpl.
  destruct (Z.eqb_spec a min_signed), (Z.eqb_spec b (-1)); simpl; try reflexivity.
  destruct H; contradiction.
Qed.
End I32Facts.

(* ================================================================== *)
(** * Loops and vector reads *)

Lemma at_Some {A} (v : list A) i a : nth_error v i = Some a -> at_ v i = Done a.
Proof. unfold at_. now intros ->. Qed.

Lemma at_app_last {A} (v : list A) a : at_ (v ++ [a]) (length v) = Done a.
Proof.
  apply at_Some. rewrite nth_error_app2 by lia. now rewrite Nat.sub_diag.
Qed.

Lemma for_each_ext {S} idx (f g : nat -> S -> outcome S) s :
  (forall i s', In i idx -> f i s' = g i s') ->
  for_each idx f s = for_each idx g s.
Proof.
  revert s. induction idx as [|i rest IH]; intros s H; simpl; [reflexivity|].
  rewrite (H i s) by (now left).
  destruct (g i s); simpl; [|reflexivity].
  apply IH. intros j s' Hj. apply H. now right.
Qed.

(** [skipn k l] starts with element [k]. *)
Lemma skipn_nth_error {A} (l : list A) k a :
  nth_error l k = Some a -> skipn k l = a :: skipn (S k) l.
Proof.
  revert l. induction k as [|k IH]; intros [|x l]; simpl; try discriminate.
  - now intros [= ->].
  - intros H. now rewrite (IH l H).
Qed.

Lemma nth_error_lt {A} (l : list A) k : (k < length l)%nat -> exists a, nth_error l k = Some a.
Proof.
  intros H. destruct (nth_error l k) eqn:E; [eauto|].
  apply nth_error_None in E. lia.
Qed.

(* ================================================================== *)
(** * The order on floats *)

Module F32Facts.
Lemma compare_swap a b c :
  SFcompare a b = Some c -> SFcompare b a = Some (CompOpp c).
Proof.
  destruct a as [[]|[]| |[] ? ?], b as [[]|[]| |[] ? ?]; simpl;
    intros H; try discriminate H; injection H as <-; try reflexivity; sf_cases.
Qed.

Lemma compare_lt_trans a b c :
  SFcompare a b = Some Lt -> SFcompare b c = Some Lt -> SFcompare a c = Some Lt.
Proof. sf_split a b c. Qed.

Lemma compare_eq_l a b c x :
  SFcompare a b = Some Eq -> SFcompare b c = Some x -> SFcompare a c = Some x.
Proof. sf_split a b c. Qed.

Lemma compare_eq_r a b c x :
  SFcompare a b = Some x -> SFcompare b c = Some Eq -> SFcompare a c = Some x.
Proof.
  intros Hab Hbc.
  apply compare_swap in Hab, Hbc. simpl in Hbc.
  pose proof (compare_eq_l _ _ _ _ Hbc Hab) as H.
  apply compare_swap in H. now rewrite CompOpp_involutive in H.
Qed.

Lemma compare_total a b :
  F32.is_nan a = false -> F32.is_nan b = false -> exists c, SFcompare a b = Some c.
Proof. destruct a, b; simpl; intros; try discriminate; eauto. Qed.

Lemma compare_not_nan a b c :
  SFcompare a b = Some c -> F32.is_nan a = false /\ F32.is_nan b = false.
Proof. destruct a, b; simpl; intros; try discriminate; auto. Qed.

(** Readings of the three tests. *)
Lemma ltb_compare a b : SFltb a b = true <-> SFcompare a b = Some Lt.
Proof. unfold SFltb. destruct (SFcompare a b) as [[]|]; split; congruence. Qed.

Lemma eqb_compare a b : SFeqb a b = true <-> SFcompare a b = Some Eq.
Proof. unfold SFeqb. destruct (SFcompare a b) as [[]|]; split; congruence. Qed.

Lemma leb_ltb_eqb a b : SFleb a b = SFltb a b || SFeqb a b.
Proof. unfold SFleb, SFltb, SFeqb. now destruct (SFcompare a b) as [[]|]. Qed.

Lemma leb_cases a b : SFleb a b = true -> SFltb a b = true \/ SFeqb a b = true.
Proof. rewrite leb_ltb_eqb. apply orb_prop. Qed.

Lemma ltb_leb a b : SFltb a b = true -> SFleb a b = true.
Proof. rewrite leb_ltb_eqb. now intros ->. Qed.

Lemma eqb_leb a b : SFeqb a b = true -> SFleb a b = true.
Proof. rewrite leb_ltb_eqb. intros ->. apply orb_true_r. Qed.

Lemma ltb_trans a b c : SFltb a b = true -> SFltb b c = true -> SFltb a c = true.
Proof. rewrite !ltb_compare. apply compare_lt_trans. Qed.

Lemma ltb_irrefl a : SFltb a a = false.
Proof.
  destruct (SFltb a a) eqn:E; [|reflexivity].
  apply ltb_compare in E. pose proof (compare_swap _ _ _ E). simpl in *. congruence.
Qed.

Lemma eqb_ltb_trans a b c : SFeqb a b = true -> SFltb b c = true -> SFltb a c = true.
Proof. rewrite eqb_compare, !ltb_compare. apply compare_eq_l. Qed.

Lemma ltb_eqb_trans a b c : SFltb a b = true -> SFeqb b c = true -> SFltb a c = true.
Proof. rewrite eqb_compare, !ltb_compare. apply compare_eq_r. Qed.

Lemma eqb_sym a b : SFeqb a b = true -> SFeqb b a = true.
Proof. rewrite !eqb_compare. intros H. now apply compare_swap in H. Qed.

Lemma leb_ltb_trans a b c : SFleb a b = true -> SFltb b c = true -> SFltb a c = true.
Proof.
  intros Hab Hbc. destruct (leb_cases _ _ Hab).
  - eapply ltb_trans; eauto.
  - eapply eqb_ltb_trans; eauto.
Qed.

Lemma ltb_leb_trans a b c : SFltb a b = true -> SFleb b c = true -> SFltb a c = true.
Proof.
  intros Hab Hbc. destruct (leb_cases _ _ Hbc).
  - eapply ltb_trans; eauto.
  - eapply ltb_eqb_trans; eauto.
Qed.

Lemma leb_trans a b c : SFleb a b = true -> SFleb b c = true -> SFleb a c = true.
Proof.
  intros Hab Hbc. destruct (leb_cases _ _ Hab) as [H|H].
  - apply ltb_leb. eapply ltb_leb_trans; eauto.
  - destruct (leb_cases _ _ Hbc) as [H'|H'].
    + apply ltb_leb. eapply eqb_ltb_trans; eauto.
    + apply eqb_leb. apply eqb_compare. apply eqb_compare in H, H'.
      eapply compare_eq_l; eauto.
Qed.

(** [a <= b] and [b < a] exclude each other. *)
Lemma leb_not_gt a b : SFleb a b = true -> SFltb b a = false.
Proof.
  intros H. destruct (SFltb b a) eqn:E; [|reflexivity].
  pose proof (leb_ltb_trans _ _ _ H E) as C. now rewrite ltb_irrefl in C.
Qed.

(** Two comparable floats are ordered one way or the other. *)
Lemma not_leb_gt a b :
  F32.is_nan a = false -> F32.is_nan b = false -> SFleb a b = false -> SFltb b a = true.
Proof.
  intros Ha Hb. destruct (compare_total a b Ha Hb) as [c Hc].
  pose proof (compare_swap _ _ _ Hc) as Hs.
  unfold SFleb, SFltb. rewrite Hc, Hs. destruct c; simpl; congruence.
Qed.

Lemma ltb_not_nan a b : SFltb a b = true -> F32.is_nan a = false /\ F32.is_nan b = false.
Proof. rewrite ltb_compare. apply compare_not_nan. Qed.

Lemma leb_refl a : F32.is_nan a = false -> SFleb a a = true.
Proof.
  intros Ha. destruct (compare_total a a Ha Ha) as [c Hc].
  pose proof (compare_swap _ _ _ Hc) as Hs. rewrite Hc in Hs.
  unfold SFleb. rewrite Hc. destruct c; simpl in Hs; congruence.
Qed.
End F32Facts.

(* ================================================================== *)
(** * Binary search *)

Module TMathFacts.
Import F32Facts.

(** What [std::lower_bound] guarantees on any array, sorted or not: the
    element before the result was found below [value], the element at the
    result was found not below. *)
Lemma lower_bound_loop_spec fuel array value : forall first len,
  (len <= fuel)%nat ->
  let p := TMath.lower_bound_loop fuel array first len value in
  (first <= p <= first + len)%nat /\
  (p = first \/ SFltb (TMath.deref array (p - 1)) value = true) /\
  (p = (first + len)%nat \/ SFltb (TMath.deref array p) value = false).
Proof.
  induction fuel as [|fuel IH]; intros first len Hlen; simpl.
  - assert (len = 0%nat) by lia. subst. repeat split; auto; lia.
  - destruct (Nat.eqb_spec len 0) as [->|Hne].
    + repeat split; auto; lia.
    + assert (Hhalf : (Nat.div2 len < len)%nat) by (apply Nat.lt_div2; lia).
      generalize dependent (Nat.div2 len). intros half Hhalf.
      destruct (SFltb (TMath.deref array (first + half)) value) eqn:Hmid.
      * assert (Hfuel : (len - half - 1 <= fuel)%nat) by lia.
        specialize (IH (first + half + 1)%nat _ Hfuel).
        simpl in IH. destruct IH as (Hr & Hl & Hu).
        split; [lia|]. split.
        -- right. destruct Hl as [->|Hl]; [|exact Hl].
           now replace (first + half + 1 - 1)%nat with (first + half)%nat by lia.
        -- destruct Hu as [Hu|Hu]; [left; lia | now right].
      * assert (Hfuel : (half <= fuel)%nat) by lia.
        specialize (IH first _ Hfuel).
        simpl in IH. destruct IH as (Hr & Hl & Hu).
        split; [lia|]. split; [exact Hl|].
        right. destruct Hu as [->|Hu]; [exact Hmid | exact Hu].
Qed.

(** The bin found on an axis, case by case. *)
Lemma BinarySearch_cases lims v :
  let r := bin_of lims v in
  exists p : nat,
    (p <= length lims)%nat /\
    (p = 0%nat \/ SFltb (edge lims (p - 1)) v = true) /\
    (p = length lims \/ SFltb (edge lims p) v = false) /\
    (((p < length lims)%nat /\ SFeqb (edge lims p) v = true /\ r = Z.of_nat p) \/
     ((p = length lims \/ SFeqb (edge lims p) v = false) /\ r = Z.of_nat p - 1)).
Proof.
  unfold bin_of, TMath.BinarySearch, TMath.lower_bound, GetSize. rewrite Nat2Z.id.
  pose proof (lower_bound_loop_spec (length lims) lims v 0 (length lims) (le_n _)) as H.
  simpl in H. destruct H as (Hr & Hl & Hu).
  set (p := TMath.lower_bound_loop _ _ _ _ _) in *.
  exists p. split; [lia|]. split; [exact Hl|]. split; [exact Hu|].
  change TMath.deref with edge in *.
  destruct (Z.ltb_spec (Z.of_nat p) (Z.of_nat (length lims))) as [Hlt|Hge]; simpl.
  - destruct (SFeqb (edge lims p) v) eqn:E.
    + left. repeat split; auto. lia.
    + right. auto.
  - right. split; [left; lia | reflexivity].
Qed.

Lemma BinarySearch_range lims v :
  -1 <= bin_of lims v <= GetSize lims - 1.
Proof.
  destruct (BinarySearch_cases lims v) as (p & Hp & _ & _ & [(H1 & _ & ->)|(_ & ->)]);
    unfold GetSize; lia.
Qed.

(** On any array: the "below first edge" result means the value is not at
    or above the first edge. *)
Lemma BinarySearch_below lims v :
  bin_of lims v = -1 ->
  lims = [] \/ SFleb (firstEdge lims) v = false.
Proof.
  intros Hr.
  destruct (BinarySearch_cases lims v) as (p & Hp & _ & Hu & [(_ & _ & E)|(Hq & E)]);
    cbv zeta in E; rewrite Hr in E; [lia|].
  assert (p = 0%nat) by lia. subst p.
  destruct lims as [|e0 rest]; [now left|right].
  simpl in Hu, Hq. destruct Hu as [Hu|Hu]; [discriminate|].
  destruct Hq as [Hq|Hq]; [discriminate|].
  unfold firstEdge. rewrite leb_ltb_eqb, Hu, Hq. reflexivity.
Qed.

(** On any array: landing on the last edge means the value is not below
    it. *)
Lemma BinarySearch_above lims v :
  lims <> [] ->
  bin_of lims v = GetSize lims - 1 ->
  SFleb (lastEdge lims) v = true.
Proof.
  intros Hne Hr.
  assert (0 < length lims)%nat by (destruct lims; simpl; [congruence|lia]).
  destruct (BinarySearch_cases lims v) as (p & Hp & Hl & _ & [(Hlt & Heq & E)|(_ & E)]);
    cbv zeta in E; rewrite Hr in E; unfold GetSize in E.
  - assert (p = (length lims - 1)%nat) by lia. subst p.
    now apply eqb_leb.
  - assert (p = length lims) by lia. subst p.
    destruct Hl as [Hl|Hl]; [lia|]. now apply ltb_leb.
Qed.

(** On any array: a bin at or after the first edge has its lower edge at or
    below the value. *)
Lemma BinarySearch_lower lims v :
  0 <= bin_of lims v ->
  SFleb (edge lims (Z.to_nat (bin_of lims v))) v = true.
Proof.
  intros Hr.
  destruct (BinarySearch_cases lims v) as (p & Hp & Hl & _ & [(Hlt & Heq & E)|(_ & E)]);
    cbv zeta in E; rewrite E in *.
  - rewrite Nat2Z.id. now apply eqb_leb.
  - destruct Hl as [Hl|Hl]; [lia|].
    replace (Z.to_nat (Z.of_nat p - 1)) with (p - 1)%nat by lia.
    now apply ltb_leb.
Qed.

(** Ascending edges. *)
Lemma ascending_tail a rest : ascending (a :: rest) = true -> ascending rest = true.
Proof.
  destruct rest as [|b rest]; [reflexivity|]. simpl.
  intros H. apply andb_prop in H. tauto.
Qed.

Lemma ascending_step lims i :
  ascending lims = true -> (S i < length lims)%nat ->
  SFltb (edge lims i) (edge lims (S i)) = true.
Proof.
  revert i. induction lims as [|a rest IH]; intros i Hasc Hi; simpl in Hi; [lia|].
  destruct i as [|i].
  - destruct rest as [|b rest]; simpl in Hi; [lia|].
    simpl in Hasc. apply andb_prop in Hasc. unfold edge. simpl. tauto.
  - unfold edge in *. simpl. apply IH; [eapply ascending_tail; eauto | lia].
Qed.

Lemma ascending_lt lims i j :
  ascending lims = true -> (i < j)%nat -> (j < length lims)%nat ->
  SFltb (edge lims i) (edge lims j) = true.
Proof.
  intros Hasc Hij. induction Hij as [|j Hij IH]; intros Hj.
  - now apply ascending_step.
  - eapply ltb_trans; [apply IH; lia | now apply ascending_step].
Qed.

End TMathFacts.

Module BinFacts.
Import F32Facts TMathFacts.

(** On ascending edges the value is below the upper edge of its bin. *)
Lemma BinarySearch_upper lims v :
  ascending lims = true ->
  0 <= bin_of lims v < GetSize lims - 1 ->
  SFltb v (edge lims (Z.to_nat (bin_of lims v) + 1)) = true.
Proof.
  intros Hasc Hr.
  destruct (BinarySearch_cases lims v) as (p & Hp & Hl & Hu & [(Hlt & Heq & E)|(Hq & E)]);
    cbv zeta in E; rewrite E in *; unfold GetSize in Hr.
  - rewrite Nat2Z.id.
    apply eqb_ltb_trans with (edge lims p); [now apply eqb_sym|].
    replace (p + 1)%nat with (S p) by lia. apply ascending_step; [assumption|lia].
  - replace (Z.to_nat (Z.of_nat p - 1) + 1)%nat with p by lia.
    destruct Hl as [Hl|Hl]; [lia|].
    destruct Hu as [Hu|Hu]; [lia|].
    destruct Hq as [Hq|Hq]; [lia|].
    assert (Hstep : SFltb (edge lims (p - 1)) (edge lims p) = true).
    { replace p with (S (p - 1)) at 2 by lia. apply ascending_step; [assumption|lia]. }
    apply not_leb_gt.
    + apply (ltb_not_nan _ _ Hstep).
    + apply (ltb_not_nan _ _ Hl).
    + rewrite leb_ltb_eqb, Hu, Hq. reflexivity.
Qed.

(** A value inside the edge range gets a usable bin, on any array. *)
Lemma inside_bin lims v :
  inside lims v = true -> 0 <= bin_of lims v < GetSize lims - 1.
Proof.
  intros Hin. unfold inside in Hin.
  destruct lims as [|e0 rest] eqn:El; [discriminate|]. rewrite <- El in *.
  assert (Hne : lims <> []) by (rewrite El; discriminate).
  apply andb_prop in Hin. destruct Hin as [Hlo Hhi].
  pose proof (BinarySearch_range lims v) as Hr.
  assert (bin_of lims v <> -1).
  { intros C. destruct (BinarySearch_below lims v C) as [?|C']; congruence. }
  assert (bin_of lims v <> GetSize lims - 1).
  { intros C. pose proof (BinarySearch_above lims v Hne C) as C'.
    apply leb_not_gt in C'. congruence. }
  lia.
Qed.

(** From the first edge up to edge [j]. *)
Lemma first_le_edge lims j v :
  ascending lims = true -> (j < length lims)%nat ->
  SFleb (edge lims j) v = true -> SFleb (firstEdge lims) v = true.
Proof.
  intros Hasc Hj Hle. destruct j as [|j]; [exact Hle|].
  apply ltb_leb. apply ltb_leb_trans with (edge lims (S j)); [|exact Hle].
  apply ascending_lt; [assumption|lia|assumption].
Qed.

Lemma edge_lt_last lims j v :
  ascending lims = true -> (j < length lims)%nat ->
  SFltb v (edge lims j) = true -> SFltb v (lastEdge lims) = true.
Proof.
  intros Hasc Hj Hlt. unfold lastEdge.
  destruct (Nat.eq_dec j (length lims - 1)) as [->|Hne]; [exact Hlt|].
  apply ltb_trans with (edge lims j); [exact Hlt|].
  apply ascending_lt; [assumption|lia|lia].
Qed.

(** On ascending edges a usable bin means the value is inside the edge
    range. *)
Lemma bin_inside lims v :
  ascending lims = true ->
  0 <= bin_of lims v < GetSize lims - 1 -> inside lims v = true.
Proof.
  intros Hasc Hr. unfold inside.
  destruct lims as [|e0 rest] eqn:El; [unfold GetSize in Hr; simpl in Hr; lia|].
  rewrite <- El in *. clear El e0 rest.
  pose proof (BinarySearch_lower lims v (proj1 Hr)) as Hlo.
  pose proof (BinarySearch_upper lims v Hasc Hr) as Hhi.
  unfold GetSize in Hr.
  apply andb_true_intro. split.
  - apply (first_le_edge lims (Z.to_nat (bin_of lims v)) v); auto. lia.
  - apply (edge_lt_last lims (Z.to_nat (bin_of lims v) + 1) v); auto. lia.
Qed.

(** Half-open bins: on ascending edges, bin [i] is found exactly for the
    values in [[edge i, edge (i+1))]. *)
Lemma BinarySearch_bin lims v i :
  ascending lims = true -> (S i < length lims)%nat ->
  bin_of lims v = Z.of_nat i <->
  SFleb (edge lims i) v = true /\ SFltb v (edge lims (S i)) = true.
Proof.
  intros Hasc Hi. split.
  - intros Hr.
    assert (Hrange : 0 <= bin_of lims v < GetSize lims - 1)
      by (unfold GetSize; lia).
    pose proof (BinarySearch_lower lims v (proj1 Hrange)) as Hlo.
    pose proof (BinarySearch_upper lims v Hasc Hrange) as Hhi.
    rewrite Hr, Nat2Z.id in Hlo, Hhi.
    replace (i + 1)%nat with (S i) in Hhi by lia. auto.
  - intros [Hlo Hhi].
    assert (Hin : inside lims v = true).
    { unfold inside. destruct lims as [|e0 rest] eqn:El; [simpl in Hi; lia|].
      rewrite <- El in *. apply andb_true_intro. split.
      - apply (first_le_edge lims i v); auto. lia.
      - apply (edge_lt_last lims (S i) v); auto. }
    pose proof (inside_bin lims v Hin) as Hrange.
    pose proof (BinarySearch_lower lims v (proj1 Hrange)) as Hlo'.
    pose proof (BinarySearch_upper lims v Hasc Hrange) as Hhi'.
    unfold GetSize in Hrange.
    set (r := Z.to_nat (bin_of lims v)) in *.
    assert (Er : bin_of lims v = Z.of_nat r) by lia.
    rewrite Er. f_equal.
    destruct (Nat.lt_trichotomy r i) as [Hlt|[Heq|Hgt]]; [exfalso|exact Heq|exfalso].
    + (* v < edge (r+1) <= edge i <= v *)
      assert (C : SFltb v v = true).
      { apply ltb_leb_trans with (edge lims i); [|exact Hlo].
        destruct (Nat.eq_dec (r + 1) i) as [<-|Hne]; [exact Hhi'|].
        apply ltb_trans with (edge lims (r + 1)); [exact Hhi'|].
        apply ascending_lt; [assumption|lia|lia]. }
      now rewrite ltb_irrefl in C.
    + (* v < edge (i+1) <= edge r <= v *)
      assert (C : SFltb v v = true).
      { apply ltb_leb_trans with (edge lims r); [|exact Hlo'].
        destruct (Nat.eq_dec (S i) r) as [<-|Hne]; [exact Hhi|].
        apply ltb_trans with (edge lims (S i)); [exact Hhi|].
        apply ascending_lt; [assumption|lia|lia]. }
      now rewrite ltb_irrefl in C.
Qed.
End BinFacts.

(* ================================================================== *)
(** * The loops of the handler *)

(** A loop whose body reads [v[i]] at indices inside [v] is a fold. *)
Lemma for_each_read {A S} (v : list A) (d : A) (g : nat -> S -> A -> S) idx s :
  (forall i, In i idx -> (i < length v)%nat) ->
  for_each idx (fun i s => x <- at_ v i ;; Done (g i s x)) s
  = Done (fold_left (fun s i => g i s (nth i v d)) idx s).
Proof.
  revert s. induction idx as [|i rest IH]; intros s Hin; simpl; [reflexivity|].
  assert (Hi : (i < length v)%nat) by (apply Hin; now left).
  destruct (nth_error_lt v i Hi) as [a Ha].
  rewrite (at_Some _ _ _ Ha). simpl.
  rewrite (nth_error_nth _ _ d Ha).
  apply IH. intros j Hj. apply Hin. now right.
Qed.

Lemma map_nth_seq {A} (v : list A) (d : A) m : forall a,
  (a + m <= length v)%nat ->
  map (fun i => nth i v d) (seq a m) = firstn m (skipn a v).
Proof.
  induction m as [|m IH]; intros a Ha; simpl; [reflexivity|].
  destruct (nth_error_lt v a ltac:(lia)) as [x Hx].
  rewrite (skipn_nth_error _ _ _ Hx). simpl.
  rewrite (nth_error_nth _ _ d Hx). f_equal.
  apply IH. lia.
Qed.

(** ** Scans for a variable identifier *)

Section Scan.
Variable S : Type.
Variable inj : nat -> S.
Variable vars : list Z.
Variable var : Z.

(** The scan keeps the last match, or its start value without a match. *)
Lemma scan_last m : forall a s,
  let r := fold_left (scan_step S inj vars var) (seq a m) s in
  (exists i, (a <= i < a + m)%nat /\ nth i vars 0 = var /\
             (forall j, (i < j < a + m)%nat -> nth j vars 0 <> var) /\
             r = inj i)
  \/ ((forall j, (a <= j < a + m)%nat -> nth j vars 0 <> var) /\ r = s).
Proof.
  induction m as [|m IH]; intros a s; cbv zeta.
  - right. split; [intros; lia | reflexivity].
  - rewrite seq_S, fold_left_app. simpl.
    specialize (IH a s). cbv zeta in IH.
    set (r0 := fold_left (scan_step S inj vars var) (seq a m) s) in *. clearbody r0.
    unfold scan_step.
    destruct (Z.eqb_spec (nth (a + m) vars 0) var) as [Heq|Hne].
    + left. exists (a + m)%nat. repeat split; auto; try lia.
    + destruct IH as [(i & Hi & Hv & Hlast & Hr)|(Hnone & Hr)].
      * left. exists i. repeat split; auto; try lia.
        intros j Hj. destruct (Nat.eq_dec j (a + m)) as [->|]; [exact Hne|].
        apply Hlast. lia.
      * right. split; [|exact Hr].
        intros j Hj. destruct (Nat.eq_dec j (a + m)) as [->|]; [exact Hne|].
        apply Hnone. lia.
Qed.
End Scan.

Lemma scan_loop {S} (inj : nat -> S) (h : MixingHandler) (var : Z) (s : S) :
  for_each (seq 0 (nvars h))
    (fun i acc => v <- at_ (fVariables h) i ;; Done (if v =? var then inj i else acc)) s
  = Done (fold_left (scan_step S inj (fVariables h) var) (seq 0 (nvars h)) s).
Proof.
  apply (for_each_read (fVariables h) 0 (fun i acc v => if v =? var then inj i else acc)).
  intros i Hi. apply in_seq in Hi. unfold nvars in Hi. lia.
Qed.

(** Membership by index. *)
Lemma In_nth_lt (vars : list Z) (var : Z) :
  In var vars <-> exists i, (i < length vars)%nat /\ nth i vars 0 = var.
Proof.
  split.
  - intros H. destruct (In_nth _ _ 0 H) as (i & Hi & Hv). eauto.
  - intros (i & Hi & <-). now apply nth_In.
Qed.

(** ** Products of bin counts *)

Lemma wprod_wrap l : forall s, I32.fits s -> wprod s l = I32.wrap (s * prodZ l).
Proof.
  unfold wprod. induction l as [|c l IH]; intros s Hs; simpl.
  - rewrite Z.mul_1_r. symmetry. now apply I32Facts.wrap_id.
  - rewrite IH by apply I32Facts.wrap_fits.
    change (I32.wrap (I32.mul s c * prodZ l)) with (I32.mul (I32.wrap (s * c)) (prodZ l)).
    rewrite I32Facts.mul_wrap_l. unfold I32.mul. f_equal.
    change (prodZ (c :: l)) with (c * prodZ l). ring.
Qed.

Lemma prodZ_app l1 l2 : prodZ (l1 ++ l2) = prodZ l1 * prodZ l2.
Proof.
  unfold prodZ. induction l1 as [|c l1 IH]; cbn [fold_right app]; [ring|]. rewrite IH. ring.
Qed.

Lemma prodZ_rev l : prodZ (rev l) = prodZ l.
Proof.
  induction l as [|c l IH]; cbn [rev]; [reflexivity|].
  rewrite prodZ_app, IH. unfold prodZ. cbn [fold_right]. ring.
Qed.

Lemma fits_1 : I32.fits 1.
Proof. unfold I32.fits, I32.min_signed, I32.max_signed. lia. Qed.

Lemma fits_0 : I32.fits 0.
Proof. unfold I32.fits, I32.min_signed, I32.max_signed. lia. Qed.

Section Loops.
Variable h : MixingHandler.
Hypothesis Hok : handler_ok h = true.

Lemma limits_length : length (fVariableLimits h) = nvars h.
Proof. unfold handler_ok in Hok. now apply Nat.eqb_eq in Hok. Qed.

Lemma counts_length : length (counts h) = nvars h.
Proof. unfold counts. now rewrite length_map, limits_length. Qed.

Lemma axes_length : length (axes h) = nvars h.
Proof. unfold axes. rewrite length_combine, limits_length. unfold nvars. lia. Qed.

(** A loop multiplying [s] by the bin counts of the axes in [idx]. *)
Lemma count_loop idx s :
  (forall i, In i idx -> (i < nvars h)%nat) ->
  for_each idx
    (fun i s => lims <- at_ (fVariableLimits h) i ;;
                Done (I32.mul s (GetSize lims - 1))) s
  = Done (wprod s (map (fun i => nth i (counts h) (binCount [])) idx)).
Proof.
  intros Hidx.
  rewrite (for_each_read (fVariableLimits h) [] (fun _ s lims => I32.mul s (GetSize lims - 1)))
    by (intros i Hi; rewrite limits_length; auto).
  f_equal. unfold wprod. clear Hidx. revert s.
  induction idx as [|i rest IH]; intros s; simpl; [reflexivity|].
  rewrite <- IH. do 2 f_equal.
  unfold counts. now rewrite map_nth.
Qed.

Lemma pool_size_done : exists size, pool_size h = Done size.
Proof.
  unfold pool_size. rewrite count_loop; [eauto|].
  intros i Hi. apply in_seq in Hi. lia.
Qed.

Lemma norm_after_eq t :
  (t < nvars h)%nat ->
  norm_after h t = Done (I32.wrap (prodZ (skipn (S t) (counts h)))).
Proof.
  intros Ht. unfold norm_after.
  rewrite count_loop.
  - rewrite map_rev, map_nth_seq by (rewrite counts_length; lia).
    rewrite wprod_wrap by apply fits_1.
    rewrite prodZ_rev, Z.mul_1_l.
    replace (t + 1)%nat with (S t) by lia.
    rewrite firstn_all2; [reflexivity|].
    rewrite length_skipn, counts_length. lia.
  - intros i Hi. apply in_rev, in_seq in Hi. lia.
Qed.
End Loops.

Lemma nth_error_combine {A B} (l1 : list A) (l2 : list B) k a b :
  nth_error l1 k = Some a -> nth_error l2 k = Some b ->
  nth_error (combine l1 l2) k = Some (a, b).
Proof.
  revert l1 l2. induction k as [|k IH]; intros [|x l1] [|y l2]; simpl; try discriminate.
  - now intros [= ->] [= ->].
  - apply IH.
Qed.

Section Categorise.
Variable h : MixingHandler.
Hypothesis Hok : handler_ok h = true.
Variable values : Z -> float.

Lemma axis_at k :
  (k < nvars h)%nat ->
  exists var lims,
    nth_error (fVariables h) k = Some var /\
    nth_error (fVariableLimits h) k = Some lims /\
    skipn k (axes h) = (var, lims) :: skipn (S k) (axes h).
Proof.
  intros Hk.
  destruct (nth_error_lt (fVariables h) k Hk) as [var Hvar].
  destruct (nth_error_lt (fVariableLimits h) k) as [lims Hlims].
  { now rewrite (limits_length h Hok). }
  exists var, lims. repeat split; auto.
  apply skipn_nth_error. now apply nth_error_combine.
Qed.

Lemma find_bins_eq m : forall k bin,
  (k + m = nvars h)%nat -> length bin = k ->
  find_bins values h (seq k m) bin
  = Done (if forallb (usable values) (skipn k (axes h))
          then Some (bin ++ map (axis_bin values) (skipn k (axes h)))
          else None).
Proof.
  induction m as [|m IH]; intros k bin Hk Hbin.
  - rewrite skipn_all2 by (rewrite (axes_length h Hok); lia).
    simpl. now rewrite app_nil_r.
  - destruct (axis_at k ltac:(lia)) as (var & lims & Hvar & Hlims & Hskip).
    rewrite Hskip. cbn [seq find_bins forallb map].
    rewrite (at_Some _ _ _ Hlims), (at_Some _ _ _ Hvar). cbn [bind].
    rewrite <- Hbin at 1. rewrite at_app_last. cbn [bind].
    change (TMath.BinarySearch (GetSize lims) lims (values var))
      with (axis_bin values (var, lims)).
    unfold usable at 1. cbn [snd].
    destruct ((axis_bin values (var, lims) =? -1)
              || (axis_bin values (var, lims) =? GetSize lims - 1)); cbn [negb andb].
    + reflexivity.
    + rewrite IH by (rewrite ?length_app; simpl; lia).
      now rewrite <- app_assoc.
Qed.

Lemma tempCategory_eq bin i b :
  nth_error bin i = Some b -> (i < nvars h)%nat ->
  tempCategory h bin i
  = Done (I32.wrap (b * prodZ (skipn (S i) (counts h)))).
Proof.
  intros Hb Hi. unfold tempCategory.
  replace (nvars h - i)%nat with (S (nvars h - i - 1)) by lia.
  cbn [seq for_each]. rewrite Nat.eqb_refl, (at_Some _ _ _ Hb). cbn [bind].
  rewrite for_each_ext with
    (g := fun i s => lims <- at_ (fVariableLimits h) i ;;
                     Done (I32.mul s (GetSize lims - 1))).
  - rewrite (count_loop h Hok) by (intros j Hj; apply in_seq in Hj; lia).
    rewrite map_nth_seq by (rewrite (counts_length h Hok); lia).
    rewrite firstn_all2 by (rewrite length_skipn, (counts_length h Hok); lia).
    rewrite wprod_wrap by apply I32Facts.wrap_fits.
    change (I32.wrap (I32.mul 1 b * prodZ (skipn (S i) (counts h))))
      with (I32.mul (I32.wrap (1 * b)) (prodZ (skipn (S i) (counts h)))).
    rewrite I32Facts.mul_wrap_l. unfold I32.mul. do 2 f_equal. ring.
  - intros j s Hj. apply in_seq in Hj.
    destruct (Nat.eqb_spec j i); [lia|reflexivity].
Qed.

Lemma category_loop bin m : forall k cat,
  length bin = nvars h -> (k + m = nvars h)%nat -> I32.fits cat ->
  for_each (seq k m)
    (fun iVar category =>
       t <- tempCategory h bin iVar ;; Done (I32.add category t)) cat
  = Done (I32.wrap (cat + mixed_radix (skipn k bin) (skipn k (counts h)))).
Proof.
  induction m as [|m IH]; intros k cat Hbin Hk Hcat.
  - rewrite skipn_all2 by lia. cbn [seq for_each mixed_radix].
    rewrite Z.add_0_r. f_equal. symmetry. now apply I32Facts.wrap_id.
  - destruct (nth_error_lt bin k ltac:(lia)) as [b Hb].
    destruct (nth_error_lt (counts h) k) as [c Hc].
    { rewrite (counts_length h Hok). lia. }
    rewrite (skipn_nth_error _ _ _ Hb), (skipn_nth_error _ _ _ Hc).
    cbn [seq for_each mixed_radix].
    rewrite (tempCategory_eq bin k b Hb) by lia. cbn [bind].
    rewrite IH; [| assumption | lia | apply I32Facts.wrap_fits].
    f_equal. rewrite I32Facts.add_wrap_r.
    change (I32.wrap (I32.add cat (b * prodZ (skipn (S k) (counts h)))
                      + mixed_radix (skipn (S k) bin) (skipn (S k) (counts h))))
      with (I32.add (I32.wrap (cat + b * prodZ (skipn (S k) (counts h))))
                    (mixed_radix (skipn (S k) bin) (skipn (S k) (counts h)))).
    rewrite I32Facts.add_wrap_l. unfold I32.add. f_equal. ring.
Qed.

(** The second loop computes the mixed-radix number of the bins, wrapped
    to 32 bits. *)
Lemma category_of_bins_eq bin :
  length bin = nvars h ->
  category_of_bins h bin = Done (I32.wrap (mixed_radix bin (counts h))).
Proof.
  intros Hbin. unfold category_of_bins.
  rewrite (category_loop bin (nvars h) 0%nat 0 Hbin) by (auto using fits_0).
  reflexivity.
Qed.
End Categorise.

Lemma Init_eq h : handler_ok h = true -> Init h = Done (initialised h).
Proof.
  intros Hok. unfold Init. destruct (pool_size_done h Hok) as [size ->]. reflexivity.
Qed.

Lemma initialised_id h : fIsInitialized h = true -> initialised h = h.
Proof. destruct h as [i l v]. simpl. now intros ->. Qed.

(** [FindEventCategory] on one or more axes. *)
Lemma FindEventCategory_eq values h :
  handler_ok h = true -> nvars h <> 0%nat ->
  FindEventCategory values h
  = Done (if forallb (usable values) (axes h)
          then I32.wrap (mixed_radix (axis_bins values h) (counts h))
          else -1,
          initialised h).
Proof.
  intros Hok Hn. unfold FindEventCategory.
  destruct (Nat.eqb_spec (nvars h) 0) as [|_]; [contradiction|].
  assert (Hinit : (if fIsInitialized h then Done h else Init h) = Done (initialised h)).
  { destruct (fIsInitialized h) eqn:E; [now rewrite initialised_id | now apply Init_eq]. }
  rewrite Hinit. cbn [bind].
  assert (Hok' : handler_ok (initialised h) = true) by exact Hok.
  change (nvars (initialised h)) with (nvars h).
  rewrite (find_bins_eq (initialised h) Hok' values (nvars h) 0%nat [])
    by reflexivity.
  change (skipn 0 (axes (initialised h))) with (axes h). cbn [bind app].
  destruct (forallb (usable values) (axes h)); [|reflexivity].
  rewrite (category_of_bins_eq (initialised h) Hok').
  - reflexivity.
  - unfold axis_bins. rewrite length_map. apply (axes_length h Hok).
Qed.

(* ================================================================== *)
(** * Mixed-radix numbers *)

Module MixedRadix.
Lemma prodZ_cons b l : prodZ (b :: l) = b * prodZ l.
Proof. reflexivity. Qed.

Lemma prodZ_nonzero l : prodZ l <> 0 -> Forall (fun b => b <> 0) l.
Proof.
  induction l as [|b l IH]; intros H; constructor; rewrite prodZ_cons in H.
  - intros ->. apply H. reflexivity.
  - apply IH. intros E. apply H. rewrite E. ring.
Qed.

Lemma prodZ_skipn l k :
  prodZ l <> 0 ->
  prodZ (skipn k l) <> 0 /\ Z.abs (prodZ (skipn k l)) <= Z.abs (prodZ l).
Proof.
  intros H. rewrite <- (firstn_skipn k l) in H at 1.
  rewrite <- (firstn_skipn k l) at 3.
  rewrite prodZ_app in *.
  set (p := prodZ (firstn k l)) in *. set (q := prodZ (skipn k l)) in *.
  split; [intros E; apply H; rewrite E; ring|].
  rewrite Z.abs_mul. assert (p <> 0) by (intros E; apply H; rewrite E; ring).
  nia.
Qed.

Lemma digits_length c l : length (digits c l) = length l.
Proof. induction l as [|b l IH]; simpl; congruence. Qed.

Lemma nth_digits c l : forall i b,
  nth_error l i = Some b ->
  nth_error (digits c l) i = Some (Z.rem (Z.quot c (prodZ (skipn (S i) l))) b).
Proof.
  induction l as [|b0 l IH]; intros [|i] b; simpl; try discriminate.
  - now intros [= ->].
  - apply IH.
Qed.

(** Re-encoding the digits of [c] gives [c] reduced by the number of
    cells, whatever the signs. *)
Lemma mixed_radix_digits c l :
  Forall (fun b => b <> 0) l ->
  mixed_radix (digits c l) l = Z.rem c (prodZ l).
Proof.
  induction 1 as [|b l Hb Hl IH]; cbn [digits mixed_radix].
  - unfold prodZ. simpl. now rewrite Z.rem_1_r.
  - rewrite IH, prodZ_cons.
    assert (Hp : prodZ l <> 0).
    { clear IH. induction Hl as [|x l Hx Hl IH]; [discriminate|].
      rewrite prodZ_cons. nia. }
    rewrite (Z.mul_comm b), Z.mod_mul_r by assumption. ring.
Qed.

Lemma mixed_radix_bound ds bs :
  Forall2 in_radix ds bs -> 0 <= mixed_radix ds bs < prodZ bs.
Proof.
  induction 1 as [|d b ds bs Hd Hds IH]; cbn [mixed_radix].
  - unfold prodZ. simpl. lia.
  - rewrite prodZ_cons. unfold in_radix in Hd. nia.
Qed.

Lemma mixed_radix_inj ds ds' bs :
  Forall2 in_radix ds bs -> Forall2 in_radix ds' bs ->
  mixed_radix ds bs = mixed_radix ds' bs -> ds = ds'.
Proof.
  intros H. revert ds'. induction H as [|d b ds bs Hd Hds IH]; intros ds' H' E.
  - now inversion H'.
  - inversion H' as [|d' b' ds0 bs0 Hd' Hds']; subst.
    cbn [mixed_radix] in E.
    pose proof (mixed_radix_bound _ _ Hds) as B.
    pose proof (mixed_radix_bound _ _ Hds') as B'.
    assert (d = d') by nia. subst d'.
    f_equal. apply IH; [assumption|lia].
Qed.
End MixedRadix.

(* ================================================================== *)
(** * Decoding *)

Section Decode.
Variable h : MixingHandler.
Hypothesis Hok : handler_ok h = true.

Lemma find_tempVar_eq var :
  find_tempVar var h
  = Done (fold_left (scan_step (option nat) Some (fVariables h) var)
            (seq 0 (nvars h)) None).
Proof. apply scan_loop. Qed.

(** [tempVar] is assigned exactly for a registered identifier. *)
Lemma find_tempVar_assigned var :
  (exists t, find_tempVar var h = Done (Some t)) <-> In var (fVariables h).
Proof.
  rewrite find_tempVar_eq.
  destruct (scan_last (option nat) Some (fVariables h) var (nvars h) 0%nat None)
    as [(i & Hi & Hv & _ & Hr)|(Hnone & Hr)]; rewrite Hr; split.
  - intros _. apply In_nth_lt. exists i. unfold nvars in Hi. split; [lia|assumption].
  - eauto.
  - intros [t Ht]. discriminate.
  - intros Hin. apply In_nth_lt in Hin. destruct Hin as (i & Hi & Hv).
    exfalso. apply (Hnone i); [unfold nvars; lia | assumption].
Qed.

Lemma find_tempVar_unassigned var :
  ~ In var (fVariables h) -> find_tempVar var h = Done None.
Proof.
  intros Hnot. rewrite find_tempVar_eq.
  destruct (scan_last (option nat) Some (fVariables h) var (nvars h) 0%nat None)
    as [(i & Hi & Hv & _ & Hr)|(Hnone & Hr)]; rewrite Hr; [|reflexivity].
  exfalso. apply Hnot. apply In_nth_lt. exists i. unfold nvars in Hi.
  split; [lia|assumption].
Qed.

(** With distinct identifiers the scan stops on the axis of [var]. *)
Lemma find_tempVar_nodup var i :
  NoDup (fVariables h) -> nth_error (fVariables h) i = Some var ->
  find_tempVar var h = Done (Some i).
Proof.
  intros Hnd Hi. rewrite find_tempVar_eq.
  assert (Hlt : (i < length (fVariables h))%nat)
    by (apply nth_error_Some; congruence).
  destruct (scan_last (option nat) Some (fVariables h) var (nvars h) 0%nat None)
    as [(j & Hj & Hv & _ & Hr)|(Hnone & Hr)]; rewrite Hr.
  - do 2 f_equal. unfold nvars in Hj.
    apply (proj1 (NoDup_nth (fVariables h) 0) Hnd); [lia|assumption|].
    rewrite Hv. symmetry. now apply nth_error_nth.
  - exfalso. apply (Hnone i); [unfold nvars; lia | now apply nth_error_nth].
Qed.

(** Where [tempVar] points once assigned. *)
Lemma find_tempVar_at var t :
  find_tempVar var h = Done (Some t) ->
  (t < nvars h)%nat /\ nth_error (fVariables h) t = Some var.
Proof.
  rewrite find_tempVar_eq.
  destruct (scan_last (option nat) Some (fVariables h) var (nvars h) 0%nat None)
    as [(i & Hi & Hv & _ & Hr)|(Hnone & Hr)]; rewrite Hr; intros [= <-].
  split; [lia|]. rewrite <- Hv. apply nth_error_nth'. unfold nvars in Hi. lia.
Qed.

(** The decoded bin, when nothing overflows or faults: the quotient of the
    category by the weight of the axis, reduced by its bin count. *)
Lemma GetBinFromCategory_at var i c b :
  find_tempVar var h = Done (Some i) ->
  nth_error (counts h) i = Some b ->
  totalCells h <> 0 ->
  Z.abs (totalCells h) <= I32.max_signed ->
  0 <= c <= I32.max_signed ->
  GetBinFromCategory var c h
  = Done (Z.rem (Z.quot c (prodZ (skipn (S i) (counts h)))) b).
Proof.
  intros Htemp Hb Hne Htot Hc. unfold totalCells in *.
  assert (Hi : (i < nvars h)%nat) by (apply (find_tempVar_at var i Htemp)).
  unfold GetBinFromCategory.
  destruct (Nat.eqb_spec (nvars h) 0) as [|_]; [lia|].
  rewrite Htemp. cbn [bind].
  rewrite (norm_after_eq h Hok i Hi).
  destruct (MixedRadix.prodZ_skipn (counts h) (S i) Hne) as [HW HWle].
  set (W := prodZ (skipn (S i) (counts h))) in *.
  unfold I32.max_signed in *.
  rewrite I32Facts.wrap_id by (unfold I32.fits, I32.min_signed, I32.max_signed; lia).
  cbn [bind]. unfold I32.rem at 1.
  rewrite I32Facts.faults_false by (auto; left; unfold I32.min_signed; lia).
  cbn [bind].
  pose proof (Z.mul_quot_le c W (proj1 Hc) HW) as Hq.
  pose proof (Z.quot_rem' c W) as Hqr.
  replace (c - Z.rem c W) with (c ÷ W * W) by lia.
  unfold I32.sub, I32.quot.
  replace (c - Z.rem c W) with (c ÷ W * W) by lia.
  rewrite I32Facts.wrap_id by (unfold I32.fits, I32.min_signed, I32.max_signed; lia).
  rewrite I32Facts.faults_false by (auto; left; unfold I32.min_signed; lia).
  cbn [bind]. rewrite Z.quot_mul by assumption.
  unfold counts in Hb. rewrite nth_error_map in Hb.
  destruct (nth_error (fVariableLimits h) i) as [lims|] eqn:Hlims; [|discriminate].
  injection Hb as Hb. rewrite (at_Some _ _ _ Hlims). cbn [bind].
  fold (binCount lims). rewrite Hb.
  unfold I32.rem. rewrite I32Facts.faults_false; [reflexivity| |].
  - pose proof (MixedRadix.prodZ_nonzero (counts h) Hne) as Hall.
    rewrite Forall_forall in Hall. apply Hall.
    unfold counts. rewrite <- Hb. apply in_map. eapply nth_error_In; eauto.
  - left. unfold I32.min_signed. nia.
Qed.
End Decode.

(* ================================================================== *)
(** * Bins, ranges and radices *)

Section Bridge.
Import BinFacts TMathFacts.
Variable h : MixingHandler.
Hypothesis Hok : handler_ok h = true.
Variable values : Z -> float.

Lemma map_snd_axes : map snd (axes h) = fVariableLimits h.
Proof.
  unfold axes. pose proof (limits_length h Hok) as Hlen. unfold nvars in Hlen.
  revert Hlen. generalize (fVariables h).
  induction (fVariableLimits h) as [|l ls IH]; intros [|v vs]; simpl; try discriminate;
    [reflexivity|].
  intros [= Hlen]. now rewrite IH.
Qed.

Lemma counts_axes : counts h = map (fun axis => binCount (snd axis)) (axes h).
Proof. unfold counts. now rewrite <- map_snd_axes, map_map. Qed.

Lemma usable_range axis :
  usable values axis = true <->
  0 <= axis_bin values axis < binCount (snd axis).
Proof.
  unfold usable, binCount, axis_bin.
  pose proof (BinarySearch_range (snd axis) (values (fst axis))) as Hr.
  destruct (Z.eqb_spec (bin_of (snd axis) (values (fst axis))) (-1));
    destruct (Z.eqb_spec (bin_of (snd axis) (values (fst axis))) (GetSize (snd axis) - 1));
    simpl; split; intros; try discriminate; try lia; reflexivity.
Qed.

(** Usable bins are digits within the bin counts. *)
Lemma usable_in_radix :
  forallb (usable values) (axes h) = true ->
  Forall2 in_radix (axis_bins values h) (counts h).
Proof.
  rewrite counts_axes. unfold axis_bins.
  induction (axes h) as [|axis l IH]; simpl; intros H; constructor.
  - apply andb_prop in H. now apply usable_range.
  - apply IH. apply andb_prop in H. tauto.
Qed.

(** Values inside the edge ranges get usable bins. *)
Lemma all_inside_usable :
  all_inside values h = true -> forallb (usable values) (axes h) = true.
Proof.
  unfold all_inside. rewrite !forallb_forall. intros H axis Hin.
  apply usable_range. apply inside_bin. now apply H.
Qed.

(** On ascending edges usable bins mean values inside the edge ranges. *)
Lemma usable_all_inside :
  all_ascending h = true ->
  forallb (usable values) (axes h) = true -> all_inside values h = true.
Proof.
  unfold all_inside, all_ascending. rewrite !forallb_forall. intros Hasc H axis Hin.
  apply bin_inside.
  - apply Hasc. destruct axis as [var lims]. eapply in_combine_r. exact Hin.
  - apply (usable_range axis). now apply H.
Qed.
End Bridge.

Lemma for_each_total {S} idx (body : nat -> S -> outcome S) :
  (forall i s, In i idx -> exists s', body i s = Done s') ->
  forall s, exists s', for_each idx body s = Done s'.
Proof.
  induction idx as [|i rest IH]; intros H s; simpl; [eauto|].
  destruct (H i s (or_introl eq_refl)) as [s' ->]. simpl.
  apply IH. intros j s0 Hj. apply H. now right.
Qed.

Lemma GetMixingVariableLimits_done var h :
  handler_ok h = true -> exists l, GetMixingVariableLimits var h = Done l.
Proof.
  intros Hok. unfold GetMixingVariableLimits. apply for_each_total.
  intros i s Hi. apply in_seq in Hi.
  destruct (axis_at h Hok i ltac:(lia)) as (v & lims & Hv & Hl & _).
  rewrite (at_Some _ _ _ Hv). cbn [bind].
  destruct (v =? var); [|eauto].
  rewrite (at_Some _ _ _ Hl). cbn [bind].
  apply for_each_total. eauto.
Qed.

(* ================================================================== *)
(** * Properties of the handler *)

(** C7. [GetMixingVariable] scans the registered identifiers and returns the
    position of the last registration of [var], and -1 for an identifier
    that was never registered. *)
Theorem GetMixingVariable_last_match (var : Z) (h : MixingHandler) :
  exists r,
    GetMixingVariable var h = Done r /\
    (In var (fVariables h) ->
     exists i, r = Z.of_nat i /\
               nth_error (fVariables h) i = Some var /\
               forall j, (i < j)%nat -> nth_error (fVariables h) j <> Some var) /\
    (~ In var (fVariables h) -> r = -1).
Proof.
  unfold GetMixingVariable. rewrite (scan_loop Z.of_nat h var (-1)).
  eexists. split; [reflexivity|].
  destruct (scan_last Z Z.of_nat (fVariables h) var (nvars h) 0%nat (-1))
    as [(i & Hi & Hv & Hlast & Hr)|(Hnone & Hr)]; rewrite Hr; unfold nvars in *.
  - split; [|intros Hnot; exfalso; apply Hnot; apply In_nth_lt; exists i; split; [lia|exact Hv]].
    intros _. exists i. split; [reflexivity|]. split.
    + rewrite <- Hv. apply nth_error_nth'. lia.
    + intros j Hj Hjv.
      assert (j < length (fVariables h))%nat by (apply nth_error_Some; congruence).
      apply (Hlast j); [lia|]. now apply nth_error_nth.
  - split; [|reflexivity].
    intros Hin. apply In_nth_lt in Hin. destruct Hin as (i & Hi & Hv).
    exfalso. apply (Hnone i); [lia|exact Hv].
Qed.

(** C6, amended.  With at least one axis registered, [GetBinFromCategory]
    assigns its local [tempVar] exactly when [var] is among the registered
    identifiers.  For an identifier that was never registered the local is
    read unassigned: the call has no defined result, and in particular does
    not return the sentinel.  For a registered identifier the local is never
    read unassigned, and the call returns a value for every non-negative
    category on a grid whose cell count is non-zero and fits a 32-bit
    [int]. *)
Theorem GetBinFromCategory_tempVar (var category : Z) (h : MixingHandler) :
  handler_ok h = true -> nvars h <> 0%nat ->
  ((exists t, find_tempVar var h = Done (Some t)) <-> In var (fVariables h)) /\
  (~ In var (fVariables h) ->
   GetBinFromCategory var category h = Undefined UninitialisedRead) /\
  (In var (fVariables h) ->
   GetBinFromCategory var category h <> Undefined UninitialisedRead /\
   (totalCells h <> 0 -> Z.abs (totalCells h) <= I32.max_signed ->
    0 <= category <= I32.max_signed ->
    exists b, GetBinFromCategory var category h = Done b)).
Proof.
  intros Hok Hn. split; [apply find_tempVar_assigned|]. split.
  - intros Hnot. unfold GetBinFromCategory.
    destruct (Nat.eqb_spec (nvars h) 0) as [|_]; [contradiction|].
    now rewrite (find_tempVar_unassigned h var Hnot).
  - intros Hin. apply find_tempVar_assigned in Hin. destruct Hin as [t Ht].
    destruct (find_tempVar_at h var t Ht) as [Hlt _]. split.
    + unfold GetBinFromCategory.
      destruct (Nat.eqb_spec (nvars h) 0) as [|_]; [contradiction|].
      rewrite Ht. cbn [bind]. rewrite (norm_after_eq h Hok t Hlt). cbn [bind].
      destruct (nth_error_lt (fVariableLimits h) t) as [lims Hl].
      { now rewrite (limits_length h Hok). }
      rewrite (at_Some _ _ _ Hl).
      unfold I32.rem, I32.quot.
      repeat match goal with
             | |- context [I32.faults ?a ?b] => destruct (I32.faults a b); cbn [bind]
             end; discriminate.
    + intros Hne Htot Hc.
      destruct (nth_error_lt (counts h) t) as [b Hb].
      { now rewrite (counts_length h Hok). }
      eexists. apply (GetBinFromCategory_at h Hok var t category b); assumption.
Qed.

(** The handler after a call of [FindEventCategory]. *)
Lemma FindEventCategory_state values h c h' :
  FindEventCategory values h = Done (c, h') ->
  h' = h \/ (fIsInitialized h = false /\ h' = initialised h).
Proof.
  unfold FindEventCategory.
  destruct (nvars h =? 0)%nat; [intros [= _ <-]; now left|].
  destruct (fIsInitialized h) eqn:Einit; cbn [bind].
  - destruct (find_bins values h (seq 0 (nvars h)) []) as [[bin|]|]; cbn [bind];
      try discriminate.
    + destruct (category_of_bins h bin); cbn [bind]; [|discriminate].
      intros [= _ <-]. now left.
    + intros [= _ <-]. now left.
  - unfold Init. destruct (pool_size h); cbn [bind]; [|discriminate].
    fold (initialised h).
    destruct (find_bins values (initialised h) (seq 0 (nvars (initialised h))) [])
      as [[bin|]|]; cbn [bind]; try discriminate.
    + destruct (category_of_bins (initialised h) bin); cbn [bind]; [|discriminate].
      intros [= _ <-]. now right.
    + intros [= _ <-]. now right.
Qed.

Lemma FindEventCategory_done values h :
  handler_ok h = true -> exists c h', FindEventCategory values h = Done (c, h').
Proof.
  intros Hok. destruct (Nat.eq_dec (nvars h) 0) as [Hz|Hnz].
  - unfold FindEventCategory. rewrite Hz. simpl. eauto.
  - rewrite (FindEventCategory_eq values h Hok Hnz). eauto.
Qed.

(** The class invariant holds from construction on: the constructors
    establish it, registration and categorisation keep it. *)
Lemma handler_ok_new : handler_ok MixingHandler_new = true.
Proof. reflexivity. Qed.

Lemma handler_ok_AddMixingVariable
  (Registry : Type) (SetUseVariable : Z -> Registry -> Registry)
  (var nBins : Z) (binLims : list float) (h h' : MixingHandler)
  (used used' : Registry) :
  handler_ok h = true ->
  AddMixingVariable Registry SetUseVariable var nBins binLims (h, used)
  = Done (h', used') ->
  handler_ok h' = true.
Proof.
  unfold AddMixingVariable, handler_ok. intros Hok.
  destruct (TArrayF_Set nBins binLims); cbn [bind]; [|discriminate].
  intros [= <- _]. cbn [fVariableLimits fVariables].
  apply Nat.eqb_eq in Hok. apply Nat.eqb_eq.
  rewrite !length_app. simpl. lia.
Qed.

Lemma handler_ok_FindEventCategory values h c h' :
  handler_ok h = true ->
  FindEventCategory values h = Done (c, h') ->
  handler_ok h' = true.
Proof.
  intros Hok Hcat.
  destruct (FindEventCategory_state values h c h' Hcat) as [->|[_ ->]]; exact Hok.
Qed.

(** C9. A query leaves the registered identifiers and every edge sequence
    as they were.  The only handler a query can leave behind that differs
    from the one it found is the one with the initialisation flag set, left
    by [FindEventCategory] on a handler that was not initialised; once the
    flag is set every query leaves the handler as it found it.  Categorising,
    looking an axis up and asking for its limits always return. *)
Theorem queries_frame (q : query) (h : MixingHandler) :
  handler_ok h = true ->
  (forall h', run_query q h = Done h' ->
     fVariables h' = fVariables h /\
     fVariableLimits h' = fVariableLimits h /\
     (fIsInitialized h = true -> h' = h) /\
     (h' <> h ->
      (exists values, q = Categorize values) /\
      fIsInitialized h = false /\ h' = initialised h)) /\
  (match q with
   | DecodeAxis _ _ => True
   | _ => exists h', run_query q h = Done h'
   end).
Proof.
  intros Hok. split.
  - intros h' Hrun.
    assert (Hcases : h' = h \/
              ((exists values, q = Categorize values) /\
               fIsInitialized h = false /\ h' = initialised h)).
    { destruct q as [values|var category|var|var]; cbn [run_query] in Hrun.
      - destruct (FindEventCategory values h) as [[c h1]|] eqn:E; cbn [bind] in Hrun;
          [|discriminate].
        injection Hrun as <-. cbn [snd].
        destruct (FindEventCategory_state values h c h1 E) as [->|[Hf ->]];
          [now left | right; eauto].
      - destruct (GetBinFromCategory var category h); cbn [bind] in Hrun;
          [injection Hrun as <-; now left | discriminate].
      - destruct (GetMixingVariable var h); cbn [bind] in Hrun;
          [injection Hrun as <-; now left | discriminate].
      - destruct (GetMixingVariableLimits var h); cbn [bind] in Hrun;
          [injection Hrun as <-; now left | discriminate]. }
    destruct Hcases as [->|(Hq & Hf & ->)].
    + split; [reflexivity|]. split; [reflexivity|]. split; [reflexivity|].
      intros C. now contradiction C.
    + split; [reflexivity|]. split; [reflexivity|]. split; [congruence|].
      intros _. auto.
  - destruct q as [values|var category|var|var]; cbn [run_query]; [| exact I | |].
    + destruct (FindEventCategory_done values h Hok) as (c & h' & ->). cbn [bind]. eauto.
    + unfold GetMixingVariable. rewrite (scan_loop Z.of_nat h var (-1)). cbn [bind]. eauto.
    + destruct (GetMixingVariableLimits_done var h Hok) as (l & ->). cbn [bind]. eauto.
Qed.

(** C8. Two successive calls of [FindEventCategory] with the same values
    return the same category, whether or not the first one had to
    initialise: [Init] only sets the flag, running it again changes nothing,
    and the identifiers and edges the category is computed from stay as they
    were. *)
Theorem FindEventCategory_repeatable (values : Z -> float) (h : MixingHandler) :
  handler_ok h = true ->
  exists c h1,
    FindEventCategory values h = Done (c, h1) /\
    FindEventCategory values h1 = Done (c, h1) /\
    exists hi,
      Init h = Done hi /\ Init hi = Done hi /\
      fVariables hi = fVariables h /\ fVariableLimits hi = fVariableLimits h.
Proof.
  intros Hok.
  assert (Hinit : exists hi,
             Init h = Done hi /\ Init hi = Done hi /\
             fVariables hi = fVariables h /\ fVariableLimits hi = fVariableLimits h).
  { exists (initialised h). rewrite (Init_eq h Hok).
    rewrite (Init_eq (initialised h) Hok). auto. }
  destruct (Nat.eq_dec (nvars h) 0) as [Hz|Hnz].
  - exists (-1), h. unfold FindEventCategory. rewrite Hz. simpl. auto.
  - eexists. exists (initialised h).
    split; [apply (FindEventCategory_eq values h Hok Hnz)|].
    split; [|exact Hinit].
    apply (FindEventCategory_eq values (initialised h) Hok Hnz).
Qed.

(** The copy loop of the vector overload fills the fresh buffer with the
    first elements of the vector. *)
Lemma store_app (pre rest : list float) (r x : float) :
  store (pre ++ r :: rest) (length pre) x = pre ++ x :: rest.
Proof. induction pre as [|p pre IH]; simpl; [reflexivity|]. now rewrite IH. Qed.

Lemma copy_loop (binLims : list float) m : forall k pre rest,
  length pre = k -> length rest = m -> (k + m <= length binLims)%nat ->
  for_each (seq k m)
    (fun i bins => x <- at_ binLims i ;; Done (store bins i x)) (pre ++ rest)
  = Done (pre ++ firstn m (skipn k binLims)).
Proof.
  induction m as [|m IH]; intros k pre rest Hpre Hrest Hk.
  - destruct rest; [|discriminate]. reflexivity.
  - destruct rest as [|r rest]; [discriminate|].
    subst k.
    destruct (nth_error_lt binLims (length pre) ltac:(lia)) as [x Hx].
    cbn [seq for_each]. rewrite (at_Some _ _ _ Hx). cbn [bind].
    rewrite store_app.
    change (pre ++ x :: rest) with (pre ++ [x] ++ rest). rewrite app_assoc.
    rewrite IH; [| rewrite length_app; simpl; lia | simpl in Hrest; lia | lia].
    rewrite (skipn_nth_error _ _ _ Hx). cbn [firstn].
    now rewrite <- app_assoc.
Qed.

(** C10. For a bin count [nBins >= 0] and a vector with at least [nBins]
    elements, the vector overload of [AddMixingVariable] does what the
    pointer overload does on an array of the vector's first [nBins]
    elements: the same identifier appended, the same [nBins] edges stored,
    the same call into the usage registry. *)
Theorem AddMixingVariable_vector_agrees
  (Registry : Type) (SetUseVariable : Z -> Registry -> Registry)
  (fresh : nat -> float) (var nBins : Z) (binLims : list float)
  (h : MixingHandler) (used : Registry) :
  0 <= nBins -> (Z.to_nat nBins <= length binLims)%nat ->
  AddMixingVariable_vector Registry SetUseVariable fresh var nBins binLims (h, used)
  = AddMixingVariable Registry SetUseVariable var nBins
      (firstn (Z.to_nat nBins) binLims) (h, used)
  /\ AddMixingVariable Registry SetUseVariable var nBins
       (firstn (Z.to_nat nBins) binLims) (h, used)
     = Done ({| fIsInitialized := fIsInitialized h;
                fVariableLimits :=
                  fVariableLimits h ++ [firstn (Z.to_nat nBins) binLims];
                fVariables := fVariables h ++ [var] |},
             SetUseVariable var used).
Proof.
  intros Hn Hlen. unfold AddMixingVariable_vector.
  destruct (Z.ltb_spec nBins 0) as [Hneg|_]; [lia|].
  pose proof (copy_loop binLims (Z.to_nat nBins) 0%nat []
                (map fresh (seq 0 (Z.to_nat nBins))) eq_refl) as Hcopy.
  rewrite length_map, length_seq in Hcopy.
  cbn [app skipn] in Hcopy. rewrite Hcopy by (auto; lia). cbn [bind].
  split; [reflexivity|].
  unfold AddMixingVariable, TArrayF_Set.
  rewrite length_firstn, Nat.min_l by exact Hlen.
  rewrite Nat.leb_refl. cbn [bind].
  now rewrite firstn_firstn, Nat.min_id.
Qed.

Lemma GetBinFromCategory_eq h var i c b :
  handler_ok h = true ->
  NoDup (fVariables h) ->
  nth_error (fVariables h) i = Some var ->
  nth_error (counts h) i = Some b ->
  totalCells h <> 0 ->
  Z.abs (totalCells h) <= I32.max_signed ->
  0 <= c <= I32.max_signed ->
  GetBinFromCategory var c h
  = Done (Z.rem (Z.quot c (prodZ (skipn (S i) (counts h)))) b).
Proof.
  intros Hok Hnd Hvar. apply (GetBinFromCategory_at h Hok).
  now apply find_tempVar_nodup.
Qed.

(** C3. The two-axis scenario: edges 0, 10, 20, 30 on the first axis and
    -1, 1 on the second, registered in that order.  With 0 on the second
    axis, 15 on the first axis is category 1, 25 is category 2 and 35 gives
    the sentinel -1; category 2 decodes to bin 2 on the first axis and bin 0
    on the second. *)
Theorem two_axis_scenario
  (Registry : Type) (SetUseVariable : Z -> Registry -> Registry)
  (used : Registry) (axis0 axis1 : Z) :
  axis0 <> axis1 ->
  exists h used',
    (w <- AddMixingVariable Registry SetUseVariable axis0 4
            (edges [0; 10; 20; 30]) (MixingHandler_new, used) ;;
     AddMixingVariable Registry SetUseVariable axis1 2 (edges [-1; 1]) w)
    = Done (h, used') /\
    (forall values, values axis1 = F32.of_Z 0 ->
       (values axis0 = F32.of_Z 15 ->
        exists h', FindEventCategory values h = Done (1, h')) /\
       (values axis0 = F32.of_Z 25 ->
        exists h', FindEventCategory values h = Done (2, h')) /\
       (values axis0 = F32.of_Z 35 ->
        exists h', FindEventCategory values h = Done (-1, h'))) /\
    GetBinFromCategory axis0 2 h = Done 2 /\
    GetBinFromCategory axis1 2 h = Done 0.
Proof.
  intros Hne.
  set (h := {| fIsInitialized := false;
               fVariableLimits := [edges [0; 10; 20; 30]; edges [-1; 1]];
               fVariables := [axis0; axis1] |}).
  exists h, (SetUseVariable axis1 (SetUseVariable axis0 used)).
  split; [reflexivity|].
  assert (Hok : handler_ok h = true) by reflexivity.
  assert (Hn : nvars h <> 0%nat) by discriminate.
  assert (Hnd : NoDup (fVariables h)).
  { repeat constructor; simpl; intuition congruence. }
  split; [|split].
  - intros values H1.
    assert (Hcat : forall z c,
              values axis0 = F32.of_Z z ->
              (if forallb (usable (fun v => if v =? 0 then F32.of_Z z else F32.of_Z 0))
                    [(0, edges [0; 10; 20; 30]); (1, edges [-1; 1])]
               then I32.wrap
                      (mixed_radix
                         (map (axis_bin (fun v => if v =? 0 then F32.of_Z z else F32.of_Z 0))
                              [(0, edges [0; 10; 20; 30]); (1, edges [-1; 1])])
                         (counts h))
               else -1) = c ->
              exists h', FindEventCategory values h = Done (c, h')).
    { intros z c H0 Hc. exists (initialised h).
      rewrite (FindEventCategory_eq values h Hok Hn). rewrite <- Hc.
      unfold axis_bins, usable, axis_bin, axes. cbn [h fVariables fVariableLimits combine
        forallb map fst snd]. rewrite H0, H1. reflexivity. }
    repeat split; intros H0; apply (Hcat _ _ H0); vm_compute; reflexivity.
  - rewrite (GetBinFromCategory_eq h axis0 0%nat 2 3 Hok Hnd);
      try reflexivity; z_closed.
  - rewrite (GetBinFromCategory_eq h axis1 1%nat 2 1 Hok Hnd);
      try reflexivity; z_closed.
Qed.

Lemma axis_in_axes h k var lims :
  nth_error (fVariables h) k = Some var ->
  nth_error (fVariableLimits h) k = Some lims ->
  In (var, lims) (axes h) /\ (k < nvars h)%nat.
Proof.
  intros Hv Hl. split.
  - eapply nth_error_In. unfold axes. apply nth_error_combine; eauto.
  - apply nth_error_Some. congruence.
Qed.

Lemma find_bins_all values h bin :
  handler_ok h = true ->
  find_bins values h (seq 0 (nvars h)) [] = Done (Some bin) ->
  bin = axis_bins values h.
Proof.
  intros Hok. rewrite (find_bins_eq h Hok values (nvars h) 0%nat []) by reflexivity.
  cbn [skipn app]. destruct (forallb (usable values) (axes h)); [|discriminate].
  now intros [= <-].
Qed.

(** C4. On an axis with strictly ascending edges the search puts a value
    into bin [i] exactly when [edge i <= v < edge (i+1)]; so a value equal to
    an interior edge belongs to the bin that edge opens.  For a registered
    axis with such edges: when the value of every axis is inside its range,
    the first loop of [FindEventCategory] runs to its end and records for
    this axis the bin [i] with [edge i <= v < edge (i+1)], and the call
    returns the category its second loop computes from the recorded bins;
    whenever the loop runs to its end, the bin it recorded for the axis is
    the one the search found; and a value below the first edge, or at or
    above the last one, stops the loop and makes [FindEventCategory] return
    -1. *)
Theorem half_open_bins (lims : TArrayF) (v : float) :
  ascending lims = true ->
  (forall i, (S i < length lims)%nat ->
     bin_of lims v = Z.of_nat i <->
     SFleb (edge lims i) v = true /\ SFltb v (edge lims (S i)) = true) /\
  (forall i, (S i < length lims)%nat ->
     bin_of lims (edge lims i) = Z.of_nat i) /\
  (forall h values k var,
     handler_ok h = true ->
     nth_error (fVariableLimits h) k = Some lims ->
     nth_error (fVariables h) k = Some var ->
     values var = v ->
     all_inside values h = true ->
     exists bin i c,
       find_bins values (initialised h) (seq 0 (nvars h)) [] = Done (Some bin) /\
       nth_error bin k = Some (Z.of_nat i) /\
       (S i < length lims)%nat /\
       SFleb (edge lims i) v = true /\ SFltb v (edge lims (S i)) = true /\
       category_of_bins (initialised h) bin = Done c /\
       FindEventCategory values h = Done (c, initialised h)) /\
  (forall h values k var bin,
     handler_ok h = true ->
     nth_error (fVariableLimits h) k = Some lims ->
     nth_error (fVariables h) k = Some var ->
     values var = v ->
     find_bins values h (seq 0 (nvars h)) [] = Done (Some bin) ->
     nth_error bin k = Some (bin_of lims v)) /\
  (forall h values k var,
     handler_ok h = true ->
     nth_error (fVariableLimits h) k = Some lims ->
     nth_error (fVariables h) k = Some var ->
     values var = v ->
     SFltb v (firstEdge lims) = true \/ SFleb (lastEdge lims) v = true ->
     find_bins values (initialised h) (seq 0 (nvars h)) [] = Done None /\
     FindEventCategory values h = Done (-1, initialised h)).
Proof.
  intros Hasc. split; [|split; [|split; [|split]]].
  - intros i Hi. now apply BinFacts.BinarySearch_bin.
  - intros i Hi. apply (BinFacts.BinarySearch_bin lims (edge lims i) i Hasc Hi).
    pose proof (TMathFacts.ascending_step lims i Hasc Hi) as Hstep.
    split; [|exact Hstep].
    apply F32Facts.leb_refl. apply (F32Facts.ltb_not_nan _ _ Hstep).
  - intros h values k var Hok Hl Hv Hval Hin.
    destruct (axis_in_axes h k var lims Hv Hl) as [Hax Hk].
    assert (Hok' : handler_ok (initialised h) = true) by exact Hok.
    pose proof (all_inside_usable h values Hin) as Hus.
    assert (Hmine : inside lims v = true).
    { unfold all_inside in Hin. rewrite forallb_forall in Hin.
      specialize (Hin _ Hax). cbn [fst snd] in Hin. now rewrite Hval in Hin. }
    pose proof (BinFacts.inside_bin lims v Hmine) as Hr. unfold GetSize in Hr.
    assert (Hi : (S (Z.to_nat (bin_of lims v)) < length lims)%nat) by lia.
    assert (Hb : bin_of lims v = Z.of_nat (Z.to_nat (bin_of lims v))) by lia.
    destruct (proj1 (BinFacts.BinarySearch_bin lims v _ Hasc Hi) Hb) as [Hlo Hhi].
    exists (axis_bins values h), (Z.to_nat (bin_of lims v)),
      (I32.wrap (mixed_radix (axis_bins values h) (counts h))).
    split; [|split; [|split; [exact Hi|split; [exact Hlo|split; [exact Hhi|split]]]]].
    + rewrite (find_bins_eq (initialised h) Hok' values (nvars h) 0%nat [])
        by reflexivity.
      change (axes (initialised h)) with (axes h). cbn [skipn app].
      now rewrite Hus.
    + rewrite <- Hb. unfold axis_bins, axes.
      rewrite nth_error_map, (nth_error_combine _ _ _ _ _ Hv Hl).
      cbn [option_map]. unfold axis_bin. cbn [fst snd]. now rewrite Hval.
    + apply (category_of_bins_eq (initialised h) Hok').
      unfold axis_bins. rewrite length_map. apply (axes_length h Hok).
    + rewrite (FindEventCategory_eq values h Hok) by lia. now rewrite Hus.
  - intros h values k var bin Hok Hl Hv Hval Hbins.
    rewrite (find_bins_all values h bin Hok Hbins).
    unfold axis_bins, axes.
    rewrite nth_error_map, (nth_error_combine _ _ _ _ _ Hv Hl).
    cbn [option_map]. unfold axis_bin. cbn [fst snd]. now rewrite Hval.
  - intros h values k var Hok Hl Hv Hval Hout.
    destruct (axis_in_axes h k var lims Hv Hl) as [Hin Hk].
    assert (Hok' : handler_ok (initialised h) = true) by exact Hok.
    assert (Hus : forallb (usable values) (axes h) = false).
    { destruct (forallb (usable values) (axes h)) eqn:E; [exfalso|reflexivity].
      rewrite forallb_forall in E. specialize (E _ Hin).
      apply (usable_range values) in E. unfold axis_bin, binCount in E.
      cbn [fst snd] in E. rewrite Hval in E.
      apply (BinFacts.bin_inside lims v Hasc) in E.
      unfold inside in E. destruct lims as [|e0 rest] eqn:El; [discriminate|].
      rewrite <- El in *. apply andb_prop in E. destruct E as [Hlo Hhi].
      destruct Hout as [Hout|Hout].
      + apply F32Facts.leb_not_gt in Hlo. congruence.
      + apply F32Facts.leb_not_gt in Hout. congruence. }
    split.
    + rewrite (find_bins_eq (initialised h) Hok' values (nvars h) 0%nat [])
        by reflexivity.
      change (axes (initialised h)) with (axes h). cbn [skipn app].
      now rewrite Hus.
    + rewrite (FindEventCategory_eq values h Hok) by lia. now rewrite Hus.
Qed.

(** Inside every edge range, on a grid whose cell count fits 32 bits, the
    category is the mixed-radix number of the bins. *)
Lemma categorise_inside (values : Z -> float) (h : MixingHandler) :
  handler_ok h = true -> nvars h <> 0%nat ->
  all_inside values h = true ->
  totalCells h <= I32.max_signed ->
  FindEventCategory values h
  = Done (mixed_radix (axis_bins values h) (counts h), initialised h) /\
  0 <= mixed_radix (axis_bins values h) (counts h) < totalCells h.
Proof.
  intros Hok Hn Hin Htot.
  pose proof (all_inside_usable h values Hin) as Hus.
  pose proof (MixedRadix.mixed_radix_bound _ _ (usable_in_radix h Hok values Hus)) as Hb.
  fold (totalCells h) in Hb. split; [|exact Hb].
  rewrite (FindEventCategory_eq values h Hok Hn), Hus.
  rewrite I32Facts.wrap_id; [reflexivity|].
  unfold I32.fits, I32.min_signed, I32.max_signed in *. lia.
Qed.

(** C2, amended.  On a grid with at least one axis whose cell count fits a
    32-bit [int], for values inside the edge range of every axis,
    [FindEventCategory] returns the mixed-radix number of the per-axis bins,
    bin [i] weighing the product of the bin counts of the axes registered
    after it, and that number lies in [[0, totalCells)]. *)
Theorem FindEventCategory_mixed_radix (values : Z -> float) (h : MixingHandler) :
  handler_ok h = true -> nvars h <> 0%nat ->
  all_inside values h = true ->
  totalCells h <= I32.max_signed ->
  exists h',
    FindEventCategory values h
    = Done (mixed_radix (axis_bins values h) (counts h), h') /\
    0 <= mixed_radix (axis_bins values h) (counts h) < totalCells h.
Proof.
  intros Hok Hn Hin Htot. exists (initialised h).
  now apply categorise_inside.
Qed.

(** C5, amended.  On a grid with strictly ascending edges whose cell count
    fits a 32-bit [int], [FindEventCategory] returns a value, and that value
    is the sentinel -1 exactly when no axis is registered or the value of
    some axis lies outside [[firstEdge, lastEdge)]; without any axis
    [GetBinFromCategory] returns -1 as well, whatever it is asked. *)
Theorem sentinel_iff (values : Z -> float) (h : MixingHandler) :
  handler_ok h = true -> all_ascending h = true ->
  totalCells h <= I32.max_signed ->
  (exists c h',
     FindEventCategory values h = Done (c, h') /\
     (c = -1 <-> nvars h = 0%nat \/ all_inside values h = false)) /\
  (nvars h = 0%nat ->
   forall var category, GetBinFromCategory var category h = Done (-1)).
Proof.
  intros Hok Hasc Htot. split.
  - destruct (Nat.eq_dec (nvars h) 0) as [Hz|Hnz].
    + exists (-1), h. unfold FindEventCategory. rewrite Hz. simpl. tauto.
    + destruct (all_inside values h) eqn:Hin.
      * destruct (categorise_inside values h Hok Hnz Hin Htot) as (Hcat & Hb).
        eexists. exists (initialised h). split; [exact Hcat|].
        split; [lia | intros [?|?]; [contradiction|discriminate]].
      * exists (-1), (initialised h). split; [|tauto].
        rewrite (FindEventCategory_eq values h Hok Hnz).
        destruct (forallb (usable values) (axes h)) eqn:Hus; [|reflexivity].
        rewrite (usable_all_inside h values Hasc Hus) in Hin. discriminate.
  - intros Hz var category. unfold GetBinFromCategory. now rewrite Hz.
Qed.

(** C1, amended.  On a grid with at least one axis, distinct identifiers and
    a cell count that fits a 32-bit [int]: decoding every axis from a
    category [c] in [[0, totalCells)] and re-encoding the decoded bins with
    the weighting of [FindEventCategory] gives [c] back; and for values
    inside the edge ranges two observable vectors get the same category
    exactly when they land in the same bin on every axis. *)
Theorem decode_encode_roundtrip (h : MixingHandler) :
  handler_ok h = true -> nvars h <> 0%nat ->
  NoDup (fVariables h) ->
  totalCells h <= I32.max_signed ->
  (forall c, 0 <= c < totalCells h ->
     exists bin,
       length bin = nvars h /\
       (forall i var, nth_error (fVariables h) i = Some var ->
          exists b, nth_error bin i = Some b /\
                    GetBinFromCategory var c h = Done b) /\
       category_of_bins h bin = Done c) /\
  (forall values1 values2,
     all_inside values1 h = true -> all_inside values2 h = true ->
     exists c1 c2 h1 h2,
       FindEventCategory values1 h = Done (c1, h1) /\
       FindEventCategory values2 h = Done (c2, h2) /\
       (c1 = c2 <-> axis_bins values1 h = axis_bins values2 h)).
Proof.
  intros Hok Hn Hnd Htot. split.
  - intros c Hc.
    assert (Hne : totalCells h <> 0) by lia.
    assert (Habs : Z.abs (totalCells h) <= I32.max_signed) by lia.
    assert (Hcfit : 0 <= c <= I32.max_signed) by lia.
    exists (digits c (counts h)).
    assert (Hlen : length (digits c (counts h)) = nvars h).
    { now rewrite MixedRadix.digits_length, (counts_length h Hok). }
    split; [exact Hlen|]. split.
    + intros i var Hvar.
      destruct (nth_error_lt (counts h) i) as [b Hb].
      { rewrite (counts_length h Hok). apply nth_error_Some. congruence. }
      eexists. split; [apply (MixedRadix.nth_digits c _ i b Hb)|].
      now apply GetBinFromCategory_eq.
    + rewrite (category_of_bins_eq h Hok _ Hlen).
      rewrite MixedRadix.mixed_radix_digits by (now apply MixedRadix.prodZ_nonzero).
      fold (totalCells h). rewrite Z.rem_small by exact Hc.
      rewrite I32Facts.wrap_id; [reflexivity|].
      unfold I32.fits, I32.min_signed, I32.max_signed in *. lia.
  - intros values1 values2 Hin1 Hin2.
    destruct (categorise_inside values1 h Hok Hn Hin1 Htot) as [Hc1 _].
    destruct (categorise_inside values2 h Hok Hn Hin2 Htot) as [Hc2 _].
    do 2 eexists. exists (initialised h), (initialised h).
    split; [exact Hc1|]. split; [exact Hc2|]. split.
    + apply MixedRadix.mixed_radix_inj;
        apply (usable_in_radix h Hok); now apply all_inside_usable.
    + now intros ->.
Qed.

(* ================================================================== *)
(** * The theorems at concrete inputs *)

Lemma NoDup_map_of_nat (l : list nat) : NoDup l -> NoDup (map Z.of_nat l).
Proof.
  induction 1 as [|x l Hx Hl IH]; simpl; constructor; [|exact IH].
  rewrite in_map_iff. intros (y & Hy & Hin).
  apply Nat2Z.inj in Hy. subst y. contradiction.
Qed.

Lemma grid_NoDup k n : NoDup (fVariables (grid k n)).
Proof. apply NoDup_map_of_nat, seq_NoDup. Qed.

Lemma scenario_NoDup : NoDup (fVariables scenario).
Proof. apply (grid_NoDup 0 2). Qed.

(** The floats of the examples below are binary32 numbers. *)
Lemma scenario_floats_valid :
  forallb F32.valid (edges [0; 10; 20; 30; -1; 1; 15; 25; 35; 5]) = true.
Proof. reflexivity. Qed.

Lemma grid_floats_valid :
  forallb (forallb F32.valid)
    (fVariableLimits (grid 3 22) ++ fVariableLimits (grid 4 16)
     ++ fVariableLimits (grid 2 33)) = true.
Proof. vm_compute. reflexivity. Qed.

Lemma decode_encode_roundtrip_witness :
  handler_ok scenario = true /\ nvars scenario <> 0%nat /\
  NoDup (fVariables scenario) /\ totalCells scenario <= I32.max_signed /\
  exists bin,
    GetBinFromCategory 0 2 scenario = Done (nth 0 bin 0) /\
    GetBinFromCategory 1 2 scenario = Done (nth 1 bin 0) /\
    category_of_bins scenario bin = Done 2.
Proof.
  assert (H1 : handler_ok scenario = true) by reflexivity.
  assert (H2 : nvars scenario <> 0%nat) by discriminate.
  assert (H4 : totalCells scenario <= I32.max_signed) by (vm_compute; discriminate).
  repeat (split; [first [assumption | exact scenario_NoDup]|]).
  destruct (decode_encode_roundtrip scenario H1 H2 scenario_NoDup H4) as [Hrt _].
  destruct (Hrt 2) as (bin & _ & Hdec & Henc); [vm_compute; split; [discriminate|reflexivity]|].
  exists bin.
  destruct (Hdec 0%nat 0 eq_refl) as (b0 & Hb0 & Hd0).
  destruct (Hdec 1%nat 1 eq_refl) as (b1 & Hb1 & Hd1).
  rewrite (nth_error_nth _ _ 0 Hb0), (nth_error_nth _ _ 0 Hb1). auto.
Defined.

Lemma FindEventCategory_mixed_radix_witness :
  handler_ok scenario = true /\ nvars scenario <> 0%nat /\
  all_inside (scenario_values 25 0) scenario = true /\
  totalCells scenario <= I32.max_signed /\
  exists h',
    FindEventCategory (scenario_values 25 0) scenario
    = Done (mixed_radix (axis_bins (scenario_values 25 0) scenario) (counts scenario), h') /\
    0 <= mixed_radix (axis_bins (scenario_values 25 0) scenario) (counts scenario)
      < totalCells scenario.
Proof.
  assert (H1 : handler_ok scenario = true) by reflexivity.
  assert (H2 : nvars scenario <> 0%nat) by discriminate.
  assert (H3 : all_inside (scenario_values 25 0) scenario = true) by reflexivity.
  assert (H4 : totalCells scenario <= I32.max_signed) by (vm_compute; discriminate).
  repeat (split; [assumption|]).
  exact (FindEventCategory_mixed_radix (scenario_values 25 0) scenario H1 H2 H3 H4).
Defined.

Lemma two_axis_scenario_witness :
  (0 <> 1) /\
  exists h used',
    (w <- AddMixingVariable (list Z) cons 0 4 (edges [0; 10; 20; 30])
            (MixingHandler_new, []) ;;
     AddMixingVariable (list Z) cons 1 2 (edges [-1; 1]) w)
    = Done (h, used') /\
    (exists h', FindEventCategory (scenario_values 15 0) h = Done (1, h')) /\
    GetBinFromCategory 0 2 h = Done 2.
Proof.
  assert (H : 0 <> 1) by discriminate. split; [exact H|].
  destruct (two_axis_scenario (list Z) cons [] 0 1 H)
    as (h & used' & Hreg & Hcat & Hd0 & _).
  exists h, used'. split; [exact Hreg|]. split; [|exact Hd0].
  exact (proj1 (Hcat (scenario_values 15 0) eq_refl) eq_refl).
Defined.

Lemma half_open_bins_witness :
  ascending (edges [0; 10; 20; 30]) = true /\
  handler_ok scenario = true /\
  all_inside (scenario_values 10 0) scenario = true /\
  (bin_of (edges [0; 10; 20; 30]) (F32.of_Z 10) = 1 <->
   SFleb (edge (edges [0; 10; 20; 30]) 1) (F32.of_Z 10) = true /\
   SFltb (F32.of_Z 10) (edge (edges [0; 10; 20; 30]) 2) = true) /\
  exists bin i c,
    find_bins (scenario_values 10 0) (initialised scenario)
      (seq 0 (nvars scenario)) [] = Done (Some bin) /\
    nth_error bin 0 = Some (Z.of_nat i) /\
    SFleb (edge (edges [0; 10; 20; 30]) i) (F32.of_Z 10) = true /\
    SFltb (F32.of_Z 10) (edge (edges [0; 10; 20; 30]) (S i)) = true /\
    FindEventCategory (scenario_values 10 0) scenario = Done (c, initialised scenario).
Proof.
  assert (H : ascending (edges [0; 10; 20; 30]) = true) by reflexivity.
  assert (H1 : handler_ok scenario = true) by reflexivity.
  assert (H2 : all_inside (scenario_values 10 0) scenario = true) by reflexivity.
  repeat (split; [assumption|]).
  destruct (half_open_bins (edges [0; 10; 20; 30]) (F32.of_Z 10) H)
    as (Hiff & _ & Hrec & _).
  split.
  - apply (Hiff 1%nat). simpl. lia.
  - destruct (Hrec scenario (scenario_values 10 0) 0%nat 0 H1 eq_refl eq_refl
                eq_refl H2) as (bin & i & c & Hb & Hk & _ & Hlo & Hhi & _ & Hcat).
    exists bin, i, c. auto.
Defined.

Lemma sentinel_iff_witness :
  handler_ok scenario = true /\ all_ascending scenario = true /\
  totalCells scenario <= I32.max_signed /\
  exists c h',
    FindEventCategory (scenario_values 35 0) scenario = Done (c, h') /\
    (c = -1 <-> nvars scenario = 0%nat \/ all_inside (scenario_values 35 0) scenario = false).
Proof.
  assert (H1 : handler_ok scenario = true) by reflexivity.
  assert (H2 : all_ascending scenario = true) by reflexivity.
  assert (H3 : totalCells scenario <= I32.max_signed) by (vm_compute; discriminate).
  repeat (split; [assumption|]).
  exact (proj1 (sentinel_iff (scenario_values 35 0) scenario H1 H2 H3)).
Defined.

Lemma GetBinFromCategory_tempVar_witness :
  handler_ok scenario = true /\ nvars scenario <> 0%nat /\
  GetBinFromCategory 7 2 scenario = Undefined UninitialisedRead.
Proof.
  assert (H1 : handler_ok scenario = true) by reflexivity.
  assert (H2 : nvars scenario <> 0%nat) by discriminate.
  repeat (split; [assumption|]).
  apply (GetBinFromCategory_tempVar 7 2 scenario H1 H2).
  simpl. intros [C|[C|[]]]; discriminate C.
Defined.

Lemma FindEventCategory_repeatable_witness :
  handler_ok scenario = true /\
  exists c h1,
    FindEventCategory (scenario_values 15 0) scenario = Done (c, h1) /\
    FindEventCategory (scenario_values 15 0) h1 = Done (c, h1).
Proof.
  assert (H1 : handler_ok scenario = true) by reflexivity.
  split; [exact H1|].
  destruct (FindEventCategory_repeatable (scenario_values 15 0) scenario H1)
    as (c & h1 & Ha & Hb & _).
  exists c, h1. auto.
Defined.

Lemma queries_frame_witness :
  handler_ok scenario = true /\
  exists h', run_query (Categorize (scenario_values 15 0)) scenario = Done h' /\
             fVariables h' = fVariables scenario /\
             fVariableLimits h' = fVariableLimits scenario.
Proof.
  assert (H1 : handler_ok scenario = true) by reflexivity.
  split; [exact H1|].
  destruct (queries_frame (Categorize (scenario_values 15 0)) scenario H1)
    as [Hframe [h' Hrun]].
  exists h'. split; [exact Hrun|].
  destruct (Hframe h' Hrun) as (Hv & Hl & _). auto.
Defined.

Lemma AddMixingVariable_vector_agrees_witness :
  0 <= 2 /\ (Z.to_nat 2%Z <= length (edges [-1; 1; 5]%Z))%nat /\
  AddMixingVariable_vector (list Z) cons (fun _ => S754_nan) 1 2 (edges [-1; 1; 5])
    (MixingHandler_new, [])
  = AddMixingVariable (list Z) cons 1 2 (firstn (Z.to_nat 2) (edges [-1; 1; 5]))
      (MixingHandler_new, []).
Proof.
  assert (H1 : 0 <= 2) by lia.
  assert (H2 : (Z.to_nat 2%Z <= length (edges [-1; 1; 5]%Z))%nat) by (simpl; lia).
  repeat (split; [assumption|]).
  exact (proj1 (AddMixingVariable_vector_agrees (list Z) cons (fun _ => S754_nan)
                  1 2 (edges [-1; 1; 5]) MixingHandler_new [] H1 H2)).
Defined.

(* ================================================================== *)
(** * Grids too large for 32 bits *)

(** C1 as stated fails on 22 axes of 3 bins: 3^22 cells do not fit an [int],
    the weights of the first axes wrap, and decoding the category 2^31 - 1
    and re-encoding the bins gives 1339300752. *)
Lemma roundtrip_overflow :
  handler_ok (grid 3 22) = true /\
  nvars (grid 3 22) = 22%nat /\
  NoDup (fVariables (grid 3 22)) /\
  0 <= 2147483647 < totalCells (grid 3 22) /\
  map (fun var => GetBinFromCategory var 2147483647 (grid 3 22))
      (fVariables (grid 3 22))
  = map Done [1; -2; 1; 2; 1; 1; 2; 1; 2; 2; 2; 1; 2; 1; 1; 0; 2; 0; 2; 1; 0; 1] /\
  category_of_bins (grid 3 22)
    [1; -2; 1; 2; 1; 1; 2; 1; 2; 2; 2; 1; 2; 1; 1; 0; 2; 0; 2; 1; 0; 1]
  = Done 1339300752 /\
  1339300752 <> 2147483647.
Proof.
  split; [reflexivity|]. split; [reflexivity|]. split; [apply grid_NoDup|].
  split; [vm_compute; split; [discriminate|reflexivity]|].
  split; [vm_compute; reflexivity|].
  split; [vm_compute; reflexivity|discriminate].
Qed.

(** C2 as stated fails on 16 axes of 4 bins with every value in bin 2: the
    mixed-radix number is 2863311530, the call returns -1431655766. *)
Lemma mixed_radix_overflow :
  handler_ok (grid 4 16) = true /\
  nvars (grid 4 16) = 16%nat /\
  all_inside (constant_values 2) (grid 4 16) = true /\
  mixed_radix (axis_bins (constant_values 2) (grid 4 16)) (counts (grid 4 16))
  = 2863311530 /\
  FindEventCategory (constant_values 2) (grid 4 16)
  = Done (-1431655766, initialised (grid 4 16)) /\
  -1431655766 < 0.
Proof. repeat split; vm_compute; reflexivity. Qed.

(** C5 as stated fails on 32 axes of 2 bins with every value in bin 1: every
    axis is registered, ascending and in range, and the call returns -1. *)
Lemma sentinel_overflow :
  handler_ok (grid 2 32) = true /\
  nvars (grid 2 32) = 32%nat /\
  all_ascending (grid 2 32) = true /\
  all_inside (constant_values 1) (grid 2 32) = true /\
  FindEventCategory (constant_values 1) (grid 2 32)
  = Done (-1, initialised (grid 2 32)).
Proof. repeat split; vm_compute; reflexivity. Qed.

(** C6 as stated fails for a registered identifier when a division faults:
    on 33 axes of 2 bins the weight of the first axis, 2^32, wraps to 0, and
    on a single axis with a single edge the bin count is 0; either way
    [tempVar] is assigned and the call still has no defined result. *)
Lemma decode_division_fault :
  (handler_ok (grid 2 33) = true /\
   nvars (grid 2 33) = 33%nat /\
   find_tempVar 0 (grid 2 33) = Done (Some 0%nat) /\
   norm_after (grid 2 33) 0 = Done 0 /\
   GetBinFromCategory 0 1 (grid 2 33) = Undefined DivisionFault) /\
  (handler_ok (grid 0 1) = true /\
   fVariableLimits (grid 0 1) = [edges [0]] /\
   find_tempVar 0 (grid 0 1) = Done (Some 0%nat) /\
   GetBinFromCategory 0 0 (grid 0 1) = Undefined DivisionFault).
Proof. repeat split; vm_compute; reflexivity. Qed.

(* ================================================================== *)
(** * Further properties of the handler *)

(** ** What categorisation reads *)

Lemma find_bins_values_ext values1 values2 h idx : forall bin,
  (forall var, In var (fVariables h) -> values1 var = values2 var) ->
  find_bins values1 h idx bin = find_bins values2 h idx bin.
Proof.
  induction idx as [|i rest IH]; intros bin Hagree; [reflexivity|].
  cbn [find_bins].
  destruct (at_ (fVariableLimits h) i) as [lims|]; cbn [bind]; [|reflexivity].
  unfold at_ at 1 3.
  destruct (nth_error (fVariables h) i) as [var|] eqn:Hvar; cbn [bind]; [|reflexivity].
  rewrite (Hagree var (nth_error_In _ _ Hvar)).
  destruct (at_ (bin ++ [TMath.BinarySearch (GetSize lims) lims (values2 var)]) i);
    cbn [bind]; [|reflexivity].
  destruct ((a =? -1) || (a =? GetSize lims - 1)); [reflexivity|].
  now apply IH.
Qed.

(** X1. [FindEventCategory] reads the observable array only at the
    registered identifiers: two arrays that agree there give the same
    category and leave the same handler. *)
Theorem FindEventCategory_reads_registered
  (values1 values2 : Z -> float) (h : MixingHandler) :
  (forall var, In var (fVariables h) -> values1 var = values2 var) ->
  FindEventCategory values1 h = FindEventCategory values2 h.
Proof.
  intros Hagree. unfold FindEventCategory.
  destruct (nvars h =? 0)%nat; [reflexivity|].
  destruct (if fIsInitialized h then Done h else Init h) as [h1|] eqn:E;
    cbn [bind]; [|reflexivity].
  assert (Hvars : fVariables h1 = fVariables h).
  { destruct (fIsInitialized h); [now injection E as <-|].
    unfold Init in E. destruct (pool_size h); cbn [bind] in E; [|discriminate].
    now injection E as <-. }
  rewrite (find_bins_values_ext values1 values2 h1); [reflexivity|].
  intros var Hin. apply Hagree. now rewrite <- Hvars.
Qed.

(** ** Axes that reject *)

Lemma combine_snoc {A B} (l1 : list A) (l2 : list B) a b :
  length l1 = length l2 ->
  combine (l1 ++ [a]) (l2 ++ [b]) = combine l1 l2 ++ [(a, b)].
Proof.
  revert l2. induction l1 as [|x l1 IH]; intros [|y l2]; simpl; try discriminate;
    [reflexivity|].
  intros [= Hlen]. now rewrite IH.
Qed.

(** One axis whose bin fails the range test makes the call return -1. *)
Lemma unusable_sentinel values h axis :
  handler_ok h = true -> In axis (axes h) -> usable values axis = false ->
  FindEventCategory values h = Done (-1, initialised h).
Proof.
  intros Hok Hin Hus.
  assert (Hn : nvars h <> 0%nat).
  { rewrite <- (axes_length h Hok). destruct (axes h); [contradiction|discriminate]. }
  rewrite (FindEventCategory_eq values h Hok Hn).
  destruct (forallb (usable values) (axes h)) eqn:E; [|reflexivity].
  rewrite forallb_forall in E. rewrite (E axis Hin) in Hus. discriminate.
Qed.

Lemma SFltb_nan_r a v : F32.is_nan v = true -> SFltb a v = false.
Proof. destruct v; try discriminate. now destruct a. Qed.

Lemma SFeqb_nan_r a v : F32.is_nan v = true -> SFeqb a v = false.
Proof. destruct v; try discriminate. now destruct a. Qed.

(** The search puts a NaN below the first edge, sorted edges or not. *)
Lemma bin_of_nan lims v : F32.is_nan v = true -> bin_of lims v = -1.
Proof.
  intros Hnan.
  destruct (TMathFacts.BinarySearch_cases lims v)
    as (p & Hp & Hl & _ & [(_ & Heq & _)|(_ & E)]).
  - rewrite SFeqb_nan_r in Heq by assumption. discriminate.
  - cbv zeta in E. rewrite E.
    destruct Hl as [->|Hl]; [reflexivity|].
    rewrite SFltb_nan_r in Hl by assumption. discriminate.
Qed.

(** X2. A NaN on a registered axis is rejected: [FindEventCategory] returns
    -1, whatever the edges of the axis and the values of the other axes. *)
Theorem FindEventCategory_nan (values : Z -> float) (h : MixingHandler) (var : Z) :
  handler_ok h = true -> In var (fVariables h) ->
  F32.is_nan (values var) = true ->
  exists h', FindEventCategory values h = Done (-1, h').
Proof.
  intros Hok Hin Hnan. exists (initialised h).
  apply In_nth_error in Hin. destruct Hin as [k Hk].
  destruct (nth_error_lt (fVariableLimits h) k) as [lims Hl].
  { rewrite (limits_length h Hok). apply nth_error_Some. congruence. }
  apply (unusable_sentinel values h (var, lims) Hok).
  - eapply nth_error_In. unfold axes. apply nth_error_combine; eauto.
  - unfold usable, axis_bin. cbn [fst snd]. now rewrite bin_of_nan.
Qed.

(** An axis with fewer than two edges has no usable bin. *)
Lemma short_axis_unusable values var lims :
  (length lims <= 1)%nat -> usable values (var, lims) = false.
Proof.
  intros Hlen. unfold usable, axis_bin. cbn [fst snd].
  pose proof (TMathFacts.BinarySearch_range lims (values var)) as Hr.
  unfold GetSize in *.
  destruct (Z.eqb_spec (bin_of lims (values var)) (-1)); [reflexivity|].
  destruct (Z.eqb_spec (bin_of lims (values var)) (Z.of_nat (length lims) - 1));
    [reflexivity|]. lia.
Qed.

(** X3. Registering an axis with a bin-limit count of 0 or 1 leaves a
    handler on which [FindEventCategory] returns -1 for every observable
    array. *)
Theorem AddMixingVariable_short_axis
  (Registry : Type) (SetUseVariable : Z -> Registry -> Registry)
  (var nBins : Z) (binLims : list float) (h h' : MixingHandler)
  (used used' : Registry) (values : Z -> float) :
  handler_ok h = true -> 0 <= nBins <= 1 ->
  AddMixingVariable Registry SetUseVariable var nBins binLims (h, used)
  = Done (h', used') ->
  FindEventCategory values h' = Done (-1, initialised h').
Proof.
  intros Hok Hn Hadd.
  pose proof (handler_ok_AddMixingVariable _ _ _ _ _ _ _ _ _ Hok Hadd) as Hok'.
  unfold AddMixingVariable, TArrayF_Set in Hadd.
  destruct (Z.to_nat nBins <=? length binLims)%nat; cbn [bind] in Hadd; [|discriminate].
  injection Hadd as <- _.
  apply (unusable_sentinel values _ (var, firstn (Z.to_nat nBins) binLims) Hok').
  - unfold axes. cbn [fVariables fVariableLimits].
    apply Nat.eqb_eq in Hok.
    rewrite combine_snoc by (symmetry; exact Hok).
    apply in_or_app. right. now left.
  - apply short_axis_unusable. rewrite length_firstn. lia.
Qed.

(** ** Limits of an identifier *)

(** The copy loop of [GetMixingVariableLimits] appends the whole array. *)
Lemma At_loop (lims : TArrayF) m : forall a acc,
  (a + m = length lims)%nat ->
  for_each (seq a m) (fun iBin bl => Done (bl ++ [TArrayF_At lims iBin])) acc
  = Done (acc ++ skipn a lims).
Proof.
  induction m as [|m IH]; intros a acc Ha.
  - rewrite skipn_all2 by lia. cbn. now rewrite app_nil_r.
  - destruct (nth_error_lt lims a ltac:(lia)) as [x Hx].
    cbn [seq for_each bind]. rewrite IH by lia.
    rewrite (skipn_nth_error _ _ _ Hx).
    unfold TArrayF_At. rewrite (nth_error_nth _ _ _ Hx).
    now rewrite <- app_assoc.
Qed.

Lemma limits_loop var h (Hok : handler_ok h = true) m : forall k acc,
  (k + m = nvars h)%nat ->
  for_each (seq k m)
    (fun iVar binLimits =>
       v <- at_ (fVariables h) iVar ;;
       if v =? var then
         lims <- at_ (fVariableLimits h) iVar ;;
         for_each (seq 0 (Z.to_nat (GetSize lims)))
           (fun iBin bl => Done (bl ++ [TArrayF_At lims iBin])) binLimits
       else Done binLimits) acc
  = Done (acc ++ flat_map (limits_if var) (skipn k (axes h))).
Proof.
  induction m as [|m IH]; intros k acc Hk.
  - rewrite skipn_all2 by (rewrite (axes_length h Hok); lia).
    cbn. now rewrite app_nil_r.
  - destruct (axis_at h Hok k ltac:(lia)) as (v & lims & Hv & Hl & Hskip).
    rewrite Hskip. cbn [seq for_each flat_map].
    rewrite (at_Some _ _ _ Hv). cbn [bind].
    unfold limits_if at 1. cbn [fst snd].
    destruct (v =? var).
    + rewrite (at_Some _ _ _ Hl). cbn [bind].
      unfold GetSize. rewrite Nat2Z.id.
      rewrite (At_loop lims (length lims) 0%nat acc eq_refl). cbn [bind].
      change (skipn 0 lims) with lims.
      rewrite IH by lia. now rewrite <- app_assoc.
    + cbn [bind app]. apply IH. lia.
Qed.

Lemma GetMixingVariableLimits_eq var h :
  handler_ok h = true ->
  GetMixingVariableLimits var h = Done (flat_map (limits_if var) (axes h)).
Proof.
  intros Hok. unfold GetMixingVariableLimits.
  now rewrite (limits_loop var h Hok (nvars h) 0%nat []).
Qed.

Lemma limits_if_absent var (l : list (Z * TArrayF)) :
  ~ In var (map fst l) -> flat_map (limits_if var) l = [].
Proof.
  induction l as [|[v lims] l IH]; intros Hnot; [reflexivity|].
  cbn [flat_map]. unfold limits_if at 1. cbn [fst snd].
  destruct (Z.eqb_spec v var) as [->|_]; [exfalso; apply Hnot; now left|].
  apply IH. intros C. apply Hnot. now right.
Qed.

Lemma map_fst_axes h : handler_ok h = true -> map fst (axes h) = fVariables h.
Proof.
  intros Hok. unfold axes. pose proof (limits_length h Hok) as Hlen. unfold nvars in Hlen.
  revert Hlen. generalize (fVariableLimits h).
  induction (fVariables h) as [|v vs IH]; intros [|l ls]; simpl; try discriminate;
    [reflexivity|].
  intros [= Hlen]. now rewrite IH.
Qed.

(** X4. [GetMixingVariableLimits] returns the edges of every axis registered
    under [var], one axis after the other in registration order; for an
    identifier that was never registered it returns the empty sequence, and
    for one registered once, at position [k], exactly the edges of axis
    [k]. *)
Theorem GetMixingVariableLimits_matches (var : Z) (h : MixingHandler) :
  handler_ok h = true ->
  GetMixingVariableLimits var h = Done (flat_map (limits_if var) (axes h)) /\
  (~ In var (fVariables h) -> GetMixingVariableLimits var h = Done []) /\
  (forall k lims,
     NoDup (fVariables h) ->
     nth_error (fVariables h) k = Some var ->
     nth_error (fVariableLimits h) k = Some lims ->
     GetMixingVariableLimits var h = Done lims).
Proof.
  intros Hok. rewrite (GetMixingVariableLimits_eq var h Hok).
  split; [reflexivity|]. split.
  - intros Hnot. rewrite limits_if_absent; [reflexivity|].
    now rewrite (map_fst_axes h Hok).
  - intros k lims Hnd Hv Hl. f_equal.
    pose proof (nth_error_combine _ _ _ _ _ Hv Hl) as Hax. fold (axes h) in Hax.
    pose proof (map_fst_axes h Hok) as Hfst.
    rewrite <- Hfst in Hnd. clear Hfst Hv Hl Hok.
    revert k Hax Hnd. induction (axes h) as [|[v l] rest IH]; intros k Hax Hnd;
      [destruct k; discriminate|].
    cbn [map fst] in Hnd. inversion Hnd as [|? ? Hnotin Hnd']; subst.
    cbn [flat_map]. unfold limits_if at 1. cbn [fst snd].
    destruct k as [|k]; cbn [nth_error] in Hax.
    + injection Hax as -> ->. rewrite Z.eqb_refl.
      rewrite limits_if_absent by exact Hnotin. apply app_nil_r.
    + destruct (Z.eqb_spec v var) as [->|_].
      * exfalso. apply Hnotin. apply nth_error_In in Hax.
        apply (in_map fst) in Hax. exact Hax.
      * cbn [app]. now apply (IH k).
Qed.

(** ** Registration and lookup *)

Lemma fold_left_ext_in {A B} (f g : A -> B -> A) (l : list B) : forall s,
  (forall x s', In x l -> f s' x = g s' x) ->
  fold_left f l s = fold_left g l s.
Proof.
  induction l as [|x l IH]; intros s H; [reflexivity|]. cbn [fold_left].
  rewrite (H x s (or_introl eq_refl)). apply IH. intros y s' Hy. apply H. now right.
Qed.

(** The scan over one more identifier. *)
Lemma scan_snoc {S} (inj : nat -> S) (vars : list Z) (v var : Z) (s : S) :
  fold_left (scan_step S inj (vars ++ [v]) var) (seq 0 (length (vars ++ [v]))) s
  = if v =? var then inj (length vars)
    else fold_left (scan_step S inj vars var) (seq 0 (length vars)) s.
Proof.
  rewrite length_app. cbn [length]. rewrite Nat.add_1_r, seq_S, fold_left_app.
  cbn [fold_left Nat.add]. unfold scan_step at 1.
  rewrite app_nth2, Nat.sub_diag by lia. cbn [nth].
  destruct (v =? var); [reflexivity|].
  apply fold_left_ext_in. intros i s' Hi. apply in_seq in Hi.
  unfold scan_step. now rewrite app_nth1 by lia.
Qed.

Lemma GetMixingVariable_eq var h :
  GetMixingVariable var h
  = Done (fold_left (scan_step Z Z.of_nat (fVariables h) var) (seq 0 (nvars h)) (-1)).
Proof. apply scan_loop. Qed.

(** What one registration leaves. *)
Lemma AddMixingVariable_Done
  (Registry : Type) (SetUseVariable : Z -> Registry -> Registry)
  (var nBins : Z) (binLims : list float) (h h' : MixingHandler)
  (used used' : Registry) :
  AddMixingVariable Registry SetUseVariable var nBins binLims (h, used)
  = Done (h', used') ->
  (Z.to_nat nBins <= length binLims)%nat /\
  h' = {| fIsInitialized := fIsInitialized h;
          fVariableLimits := fVariableLimits h ++ [firstn (Z.to_nat nBins) binLims];
          fVariables := fVariables h ++ [var] |} /\
  used' = SetUseVariable var used.
Proof.
  unfold AddMixingVariable, TArrayF_Set.
  destruct (Nat.leb_spec (Z.to_nat nBins) (length binLims)); cbn [bind];
    [|discriminate].
  intros [= <- <-]. auto.
Qed.

(** X5. After [AddMixingVariable(var, ..)], [GetMixingVariable(var)] returns
    the position of the new axis (the number of axes registered before),
    also when [var] was registered earlier; the lookup of every other
    identifier is as before; and [GetMixingVariableLimits(var)] returns what
    it returned before followed by the edges just stored. *)
Theorem AddMixingVariable_then_lookup
  (Registry : Type) (SetUseVariable : Z -> Registry -> Registry)
  (var nBins : Z) (binLims : list float) (h h' : MixingHandler)
  (used used' : Registry) :
  handler_ok h = true ->
  AddMixingVariable Registry SetUseVariable var nBins binLims (h, used)
  = Done (h', used') ->
  GetMixingVariable var h' = Done (Z.of_nat (nvars h)) /\
  (forall var', var' <> var ->
     GetMixingVariable var' h' = GetMixingVariable var' h) /\
  (exists before,
     GetMixingVariableLimits var h = Done before /\
     GetMixingVariableLimits var h'
     = Done (before ++ firstn (Z.to_nat nBins) binLims)).
Proof.
  intros Hok Hadd.
  pose proof (handler_ok_AddMixingVariable _ _ _ _ _ _ _ _ _ Hok Hadd) as Hok'.
  destruct (AddMixingVariable_Done _ _ _ _ _ _ _ _ _ Hadd) as (_ & -> & _).
  split; [|split].
  - rewrite GetMixingVariable_eq. unfold nvars. cbn [fVariables].
    now rewrite scan_snoc, Z.eqb_refl.
  - intros var' Hne. rewrite !GetMixingVariable_eq. unfold nvars. cbn [fVariables].
    rewrite scan_snoc. destruct (Z.eqb_spec var var'); [congruence|reflexivity].
  - eexists. split; [apply (GetMixingVariableLimits_eq var h Hok)|].
    rewrite (GetMixingVariableLimits_eq var _ Hok'). f_equal.
    unfold axes. cbn [fVariables fVariableLimits].
    apply Nat.eqb_eq in Hok.
    rewrite combine_snoc by (symmetry; exact Hok).
    rewrite flat_map_app. cbn [flat_map]. unfold limits_if at 2. cbn [fst snd].
    now rewrite Z.eqb_refl, app_nil_r.
Qed.

(** X6. A setup phase that registers the axes [regs] one after the other on
    a new handler leaves the identifiers and the edge sequences in
    registration order, the flag unset and the invariant in place, and has
    called the usage registry once per axis, in the same order. *)
Theorem register_all_in_order
  (Registry : Type) (SetUseVariable : Z -> Registry -> Registry)
  (regs : list (Z * list float)) (used : Registry) :
  exists h,
    register_all Registry SetUseVariable regs (MixingHandler_new, used)
    = Done (h, fold_left (fun u reg => SetUseVariable (fst reg) u) regs used) /\
    fVariables h = map fst regs /\
    fVariableLimits h = map snd regs /\
    fIsInitialized h = false /\
    handler_ok h = true.
Proof.
  assert (Hgen : forall regs h used,
    register_all Registry SetUseVariable regs (h, used)
    = Done ({| fIsInitialized := fIsInitialized h;
               fVariableLimits := fVariableLimits h ++ map snd regs;
               fVariables := fVariables h ++ map fst regs |},
            fold_left (fun u reg => SetUseVariable (fst reg) u) regs used)).
  { clear regs used. induction regs as [|[var lims] rest IH]; intros h used.
    - cbn. rewrite !app_nil_r. now destruct h.
    - cbn [register_all]. unfold AddMixingVariable, TArrayF_Set.
      rewrite Nat2Z.id, Nat.leb_refl, firstn_all. cbn [bind].
      rewrite IH. cbn [fIsInitialized fVariableLimits fVariables map fst snd fold_left].
      now rewrite <- !app_assoc. }
  eexists. split; [apply Hgen|].
  cbn [MixingHandler_new fVariables fVariableLimits fIsInitialized app].
  repeat split. unfold handler_ok. cbn [fVariables fVariableLimits].
  rewrite !length_map. apply Nat.eqb_refl.
Qed.

(** ** The vector overload on a short vector *)

Lemma copy_loop_short (binLims : list float) m : forall k bins,
  (k <= length binLims < k + m)%nat ->
  for_each (seq k m)
    (fun i bins => x <- at_ binLims i ;; Done (store bins i x)) bins
  = Undefined OutOfBounds.
Proof.
  induction m as [|m IH]; intros k bins Hk; [lia|].
  cbn [seq for_each]. unfold at_ at 1.
  destruct (nth_error binLims k) as [x|] eqn:Hx; cbn [bind]; [|reflexivity].
  apply IH. assert (k < length binLims)%nat by (apply nth_error_Some; congruence). lia.
Qed.

(** X7. The vector overload of [AddMixingVariable], by cases on the count.
    A negative [nBins] makes [new float[nBins]] throw: the call has no
    result state.  With [nBins >= 0] and a vector of at least [nBins]
    elements it registers [var] with the first [nBins] elements of the
    vector as edges and calls the usage registry once.  With [nBins >= 0]
    and a shorter vector the copy loop indexes the vector past its end,
    which the language leaves undefined. *)
Theorem AddMixingVariable_vector_bounds
  (Registry : Type) (SetUseVariable : Z -> Registry -> Registry)
  (fresh : nat -> float) (var nBins : Z) (binLims : list float)
  (h : MixingHandler) (used : Registry) :
  (nBins < 0 ->
   AddMixingVariable_vector Registry SetUseVariable fresh var nBins binLims (h, used)
   = Undefined BadArrayNewLength) /\
  (0 <= nBins -> (Z.to_nat nBins <= length binLims)%nat ->
   AddMixingVariable_vector Registry SetUseVariable fresh var nBins binLims (h, used)
   = Done ({| fIsInitialized := fIsInitialized h;
              fVariableLimits :=
                fVariableLimits h ++ [firstn (Z.to_nat nBins) binLims];
              fVariables := fVariables h ++ [var] |},
           SetUseVariable var used)) /\
  (0 <= nBins -> (length binLims < Z.to_nat nBins)%nat ->
   AddMixingVariable_vector Registry SetUseVariable fresh var nBins binLims (h, used)
   = Undefined OutOfBounds).
Proof.
  unfold AddMixingVariable_vector. split; [|split].
  - intros Hneg. destruct (Z.ltb_spec nBins 0); [reflexivity|lia].
  - intros Hn Hlen. destruct (Z.ltb_spec nBins 0); [lia|].
    pose proof (copy_loop binLims (Z.to_nat nBins) 0%nat []
                  (map fresh (seq 0 (Z.to_nat nBins))) eq_refl) as Hcopy.
    rewrite length_map, length_seq in Hcopy.
    cbn [app skipn] in Hcopy. rewrite Hcopy by (auto; lia). cbn [bind].
    unfold AddMixingVariable, TArrayF_Set.
    rewrite length_firstn, Nat.min_l by exact Hlen.
    rewrite Nat.leb_refl. cbn [bind].
    now rewrite firstn_firstn, Nat.min_id.
  - intros Hn Hshort. destruct (Z.ltb_spec nBins 0); [lia|].
    rewrite copy_loop_short; [reflexivity|lia].
Qed.

(** ** Decoding and lookup *)

(** Two scans for the same identifier stop on the same axis. *)
Lemma scan_inj {S} (inj : nat -> S) (vars : list Z) (var : Z) (s : S) idx :
  forall o,
  fold_left (scan_step S inj vars var) idx
    (match o with Some i => inj i | None => s end)
  = match fold_left (scan_step (option nat) Some vars var) idx o with
    | Some i => inj i
    | None => s
    end.
Proof.
  induction idx as [|i idx IH]; intros o; [reflexivity|].
  cbn [fold_left]. rewrite <- IH. f_equal.
  unfold scan_step. now destruct (nth i vars 0 =? var).
Qed.

Lemma lookup_tempVar var h t :
  find_tempVar var h = Done (Some t) ->
  GetMixingVariable var h = Done (Z.of_nat t).
Proof.
  rewrite find_tempVar_eq, GetMixingVariable_eq. intros [= Ht].
  pose proof (scan_inj Z.of_nat (fVariables h) var (-1) (seq 0 (nvars h)) None) as H.
  cbv iota in H. rewrite H, Ht. reflexivity.
Qed.

Lemma prodZ_pos bs : Forall (fun b => 1 <= b) bs -> 1 <= prodZ bs.
Proof.
  induction 1 as [|b bs Hb _ IH]; [unfold prodZ; simpl; lia|].
  rewrite MixedRadix.prodZ_cons. nia.
Qed.

(** X8. For a registered identifier, [GetBinFromCategory] decodes the axis
    whose position [GetMixingVariable] returns (the last one registered under
    the identifier).  On a grid whose cell count is non-zero and fits a
    32-bit [int], it returns for a non-negative category [c] the quotient of
    [c] by the product of the bin counts of the later axes, reduced by the
    bin count of that axis; when every axis has at least two edges this is a
    bin index of the axis, between 0 and its bin count. *)
Theorem GetBinFromCategory_follows_lookup (var c : Z) (h : MixingHandler) :
  handler_ok h = true -> In var (fVariables h) ->
  totalCells h <> 0 -> Z.abs (totalCells h) <= I32.max_signed ->
  0 <= c <= I32.max_signed ->
  exists t b,
    GetMixingVariable var h = Done (Z.of_nat t) /\
    nth_error (counts h) t = Some b /\
    GetBinFromCategory var c h
    = Done (Z.rem (Z.quot c (prodZ (skipn (S t) (counts h)))) b) /\
    (Forall (fun b => 1 <= b) (counts h) ->
     0 <= Z.rem (Z.quot c (prodZ (skipn (S t) (counts h)))) b < b).
Proof.
  intros Hok Hin Hne Htot Hc.
  apply (find_tempVar_assigned h) in Hin. destruct Hin as [t Ht].
  destruct (find_tempVar_at h var t Ht) as [Hlt _].
  destruct (nth_error_lt (counts h) t) as [b Hb].
  { now rewrite (counts_length h Hok). }
  exists t, b. split; [now apply lookup_tempVar|]. split; [exact Hb|]. split.
  - now apply (GetBinFromCategory_at h Hok).
  - intros Hall.
    assert (Hb1 : 1 <= b).
    { rewrite Forall_forall in Hall. apply Hall. eapply nth_error_In; eauto. }
    assert (HW : 1 <= prodZ (skipn (S t) (counts h))).
    { apply prodZ_pos. rewrite <- (firstn_skipn (S t)) in Hall.
      apply Forall_app in Hall. tauto. }
    apply Z.rem_bound_pos; [|lia]. apply Z.quot_pos; lia.
Qed.

(** ** Decoding a category that was just computed *)

Lemma digits_in_radix c bs :
  Forall (fun b => 1 <= b) bs -> 0 <= c -> Forall2 in_radix (digits c bs) bs.
Proof.
  induction 1 as [|b bs Hb Hbs IH]; intros Hc; cbn [digits]; constructor.
  - unfold in_radix. apply Z.rem_bound_pos; [|lia].
    apply Z.quot_pos; [lia|]. pose proof (prodZ_pos bs Hbs). lia.
  - now apply IH.
Qed.

Lemma in_radix_pos ds bs : Forall2 in_radix ds bs -> Forall (fun b => 1 <= b) bs.
Proof.
  induction 1 as [|d b ds bs Hd _ IH]; constructor; [|exact IH].
  unfold in_radix in Hd. lia.
Qed.

(** The digits of a mixed-radix number are the digits it was made of. *)
Lemma digits_mixed_radix ds bs :
  Forall2 in_radix ds bs -> digits (mixed_radix ds bs) bs = ds.
Proof.
  intros Hds.
  pose proof (in_radix_pos ds bs Hds) as Hpos.
  pose proof (MixedRadix.mixed_radix_bound ds bs Hds) as Hb.
  apply (MixedRadix.mixed_radix_inj _ _ bs); [|exact Hds|].
  - apply digits_in_radix; [exact Hpos|lia].
  - rewrite MixedRadix.mixed_radix_digits.
    + now apply Z.rem_small.
    + eapply Forall_impl; [|exact Hpos]. cbv beta. intros; lia.
Qed.

(** X9. Decoding what was just encoded: on a grid with distinct identifiers
    whose cell count fits a 32-bit [int], for values inside the edge range of
    every axis, [GetBinFromCategory] applied to the category returned by
    [FindEventCategory], on the handler that call left, gives for every axis
    the bin the search found for its value. *)
Theorem decode_of_categorize (values : Z -> float) (h : MixingHandler) :
  handler_ok h = true -> nvars h <> 0%nat ->
  NoDup (fVariables h) ->
  all_inside values h = true ->
  totalCells h <= I32.max_signed ->
  exists c h',
    FindEventCategory values h = Done (c, h') /\
    forall k var lims,
      nth_error (fVariables h) k = Some var ->
      nth_error (fVariableLimits h) k = Some lims ->
      GetBinFromCategory var c h' = Done (bin_of lims (values var)).
Proof.
  intros Hok Hn Hnd Hin Htot.
  destruct (categorise_inside values h Hok Hn Hin Htot) as [Hcat Hb].
  do 2 eexists. split; [exact Hcat|].
  intros k var lims Hvar Hlims.
  pose proof (usable_in_radix h Hok values (all_inside_usable h values Hin)) as Hrad.
  assert (Hcount : nth_error (counts (initialised h)) k = Some (binCount lims)).
  { unfold counts. cbn [initialised fVariableLimits].
    now rewrite nth_error_map, Hlims. }
  rewrite (GetBinFromCategory_eq (initialised h) var k _ (binCount lims));
    try assumption; try (change (totalCells (initialised h)) with (totalCells h); lia).
  f_equal.
  pose proof (MixedRadix.nth_digits (mixed_radix (axis_bins values h) (counts h))
                (counts h) k (binCount lims) Hcount) as Hdig.
  rewrite (digits_mixed_radix _ _ Hrad) in Hdig.
  assert (Hbin : nth_error (axis_bins values h) k = Some (bin_of lims (values var))).
  { unfold axis_bins, axes.
    now rewrite nth_error_map, (nth_error_combine _ _ _ _ _ Hvar Hlims). }
  change (counts (initialised h)) with (counts h) in *.
  congruence.
Qed.

(** ** Significance of the axes *)

Lemma mixed_radix_app ds1 : forall bs1 ds2 bs2,
  length ds1 = length bs1 ->
  mixed_radix (ds1 ++ ds2) (bs1 ++ bs2)
  = mixed_radix ds1 bs1 * prodZ bs2 + mixed_radix ds2 bs2.
Proof.
  induction ds1 as [|d ds1 IH]; intros [|b bs1] ds2 bs2 Hlen; try discriminate.
  - cbn [app mixed_radix]. ring.
  - cbn [app mixed_radix]. injection Hlen as Hlen.
    rewrite IH by exact Hlen. rewrite prodZ_app. ring.
Qed.

Lemma Forall2_app_inv_both {A B} (R : A -> B -> Prop) l1 : forall l1' l2 l2',
  length l1 = length l1' ->
  Forall2 R (l1 ++ l2) (l1' ++ l2') -> Forall2 R l1 l1' /\ Forall2 R l2 l2'.
Proof.
  induction l1 as [|x l1 IH]; intros [|y l1'] l2 l2' Hlen H; try discriminate.
  - split; [constructor|exact H].
  - cbn [app] in H. inversion H; subst. injection Hlen as Hlen.
    destruct (IH _ _ _ Hlen H5). split; [constructor|]; assumption.
Qed.

(** X10. Registering one more axis makes it the least significant digit
    (values inside every edge range of the extended handler, cell count of
    the extended grid within a 32-bit [int]).  On a handler that already has
    an axis, the category of an observable array becomes the previous
    category times the bin count of the new axis, plus the bin on the new
    axis.  On a handler without axes, where the previous result is the
    sentinel -1, the category is the bin on the new axis. *)
Theorem AddMixingVariable_extends_category
  (Registry : Type) (SetUseVariable : Z -> Registry -> Registry)
  (var nBins : Z) (binLims : list float) (h h' : MixingHandler)
  (used used' : Registry) (values : Z -> float) :
  handler_ok h = true ->
  AddMixingVariable Registry SetUseVariable var nBins binLims (h, used)
  = Done (h', used') ->
  all_inside values h' = true ->
  totalCells h' <= I32.max_signed ->
  exists lims h1',
    nth_error (fVariableLimits h') (nvars h) = Some lims /\
    (nvars h = 0%nat ->
     FindEventCategory values h = Done (-1, h) /\
     FindEventCategory values h' = Done (bin_of lims (values var), h1')) /\
    (nvars h <> 0%nat ->
     exists c h1,
       FindEventCategory values h = Done (c, h1) /\
       0 <= c /\
       FindEventCategory values h'
       = Done (c * binCount lims + bin_of lims (values var), h1')).
Proof.
  intros Hok Hadd Hin' Htot'.
  pose proof (handler_ok_AddMixingVariable _ _ _ _ _ _ _ _ _ Hok Hadd) as Hok'.
  destruct (AddMixingVariable_Done _ _ _ _ _ _ _ _ _ Hadd) as (_ & -> & _).
  set (lims := firstn (Z.to_nat nBins) binLims) in *.
  set (h' := {| fIsInitialized := fIsInitialized h;
                fVariableLimits := fVariableLimits h ++ [lims];
                fVariables := fVariables h ++ [var] |}) in *.
  assert (Hlen : length (fVariables h) = length (fVariableLimits h)).
  { apply Nat.eqb_eq in Hok. congruence. }
  assert (Haxes : axes h' = axes h ++ [(var, lims)]).
  { unfold axes, h'. cbn [fVariables fVariableLimits]. now apply combine_snoc. }
  assert (Hcounts : counts h' = counts h ++ [binCount lims]).
  { unfold counts, h'. cbn [fVariableLimits]. now rewrite map_app. }
  assert (Hbins : axis_bins values h' = axis_bins values h ++ [bin_of lims (values var)]).
  { unfold axis_bins. rewrite Haxes, map_app. reflexivity. }
  assert (Hn' : nvars h' <> 0%nat).
  { unfold nvars, h'. cbn [fVariables]. rewrite length_app. simpl. lia. }
  assert (Hlens : length (axis_bins values h) = length (counts h)).
  { unfold axis_bins, counts. rewrite !length_map, (axes_length h Hok).
    symmetry. apply (limits_length h Hok). }
  destruct (categorise_inside values h' Hok' Hn' Hin' Htot') as [Hcat' _].
  assert (Hnew : mixed_radix (axis_bins values h') (counts h')
                 = mixed_radix (axis_bins values h) (counts h) * binCount lims
                   + bin_of lims (values var)).
  { rewrite Hbins, Hcounts, mixed_radix_app by exact Hlens.
    cbn [mixed_radix]. change (prodZ [binCount lims]) with (binCount lims * 1).
    change (prodZ []) with 1. ring. }
  exists lims, (initialised h').
  split; [|split].
  - unfold h', nvars. cbn [fVariableLimits]. rewrite Hlen.
    rewrite nth_error_app2, Nat.sub_diag by lia. reflexivity.
  - intros Hz. split.
    + unfold FindEventCategory. now rewrite Hz.
    + rewrite Hcat', Hnew. do 2 f_equal.
      assert (Hnil : axis_bins values h = []).
      { apply length_zero_iff_nil. unfold axis_bins.
        now rewrite length_map, (axes_length h Hok). }
      rewrite Hnil in *. destruct (counts h); [|discriminate Hlens].
      cbn [mixed_radix]. ring.
  - intros Hn.
    pose proof (usable_in_radix h' Hok' values (all_inside_usable h' values Hin'))
      as Hrad.
    rewrite Hbins, Hcounts in Hrad.
    apply Forall2_app_inv_both in Hrad; [|exact Hlens].
    destruct Hrad as [Hrad Hlast].
    inversion Hlast as [|d b ? ? Hd _]; subst. unfold in_radix in Hd.
    assert (Hin : all_inside values h = true).
    { unfold all_inside in *. rewrite Haxes, forallb_app in Hin'.
      apply andb_prop in Hin'. tauto. }
    pose proof (MixedRadix.mixed_radix_bound _ _ Hrad) as Hbound.
    assert (Htot : totalCells h <= I32.max_signed).
    { unfold totalCells in *. rewrite Hcounts, prodZ_app in Htot'.
      change (prodZ [binCount lims]) with (binCount lims * 1) in Htot'. nia. }
    destruct (categorise_inside values h Hok Hn Hin Htot) as [Hcat _].
    exists (mixed_radix (axis_bins values h) (counts h)), (initialised h).
    split; [exact Hcat|]. split; [lia|].
    now rewrite Hcat', Hnew.
Qed.

(** X11. The earliest registered axis is the most significant: if two
    observable arrays, both inside every edge range, land in the same bins
    on the first [k] axes and the first one lands in a lower bin on axis
    [k], then it gets the smaller category, whatever the bins on the later
    axes (cell count within a 32-bit [int]). *)
Theorem category_order (values1 values2 : Z -> float) (h : MixingHandler) (k : nat) :
  handler_ok h = true -> (k < nvars h)%nat ->
  all_inside values1 h = true -> all_inside values2 h = true ->
  totalCells h <= I32.max_signed ->
  firstn k (axis_bins values1 h) = firstn k (axis_bins values2 h) ->
  nth k (axis_bins values1 h) 0 < nth k (axis_bins values2 h) 0 ->
  exists c1 c2 h1 h2,
    FindEventCategory values1 h = Done (c1, h1) /\
    FindEventCategory values2 h = Done (c2, h2) /\
    c1 < c2.
Proof.
  intros Hok Hk Hin1 Hin2 Htot Hpre Hlt.
  assert (Hn : nvars h <> 0%nat) by lia.
  destruct (categorise_inside values1 h Hok Hn Hin1 Htot) as [Hc1 _].
  destruct (categorise_inside values2 h Hok Hn Hin2 Htot) as [Hc2 _].
  do 2 eexists. exists (initialised h), (initialised h).
  split; [exact Hc1|]. split; [exact Hc2|].
  pose proof (usable_in_radix h Hok values1 (all_inside_usable h values1 Hin1)) as R1.
  pose proof (usable_in_radix h Hok values2 (all_inside_usable h values2 Hin2)) as R2.
  assert (L1 : length (axis_bins values1 h) = nvars h)
    by (unfold axis_bins; rewrite length_map; apply (axes_length h Hok)).
  assert (L2 : length (axis_bins values2 h) = nvars h)
    by (unfold axis_bins; rewrite length_map; apply (axes_length h Hok)).
  pose proof (counts_length h Hok) as Lc.
  revert Hlt R1 R2.
  rewrite <- (firstn_skipn k (axis_bins values1 h)) at 2 3.
  rewrite <- (firstn_skipn k (axis_bins values2 h)) at 2 3.
  rewrite <- (firstn_skipn k (counts h)).
  rewrite <- Hpre.
  destruct (nth_error_lt (axis_bins values1 h) k ltac:(lia)) as [d1 Hd1].
  destruct (nth_error_lt (axis_bins values2 h) k ltac:(lia)) as [d2 Hd2].
  destruct (nth_error_lt (counts h) k ltac:(lia)) as [b Hb].
  rewrite (nth_error_nth _ _ 0 Hd1), (nth_error_nth _ _ 0 Hd2).
  rewrite (skipn_nth_error _ _ _ Hd1), (skipn_nth_error _ _ _ Hd2),
    (skipn_nth_error _ _ _ Hb).
  intros Hlt R1 R2.
  assert (Hlen : length (firstn k (axis_bins values1 h)) = length (firstn k (counts h)))
    by (rewrite !length_firstn; lia).
  generalize dependent (skipn (S k) (axis_bins values1 h)). intros t1 R1.
  generalize dependent (skipn (S k) (axis_bins values2 h)). intros t2 R2.
  generalize dependent (skipn (S k) (counts h)). intros bt R1 R2.
  apply Forall2_app_inv_both in R1; [|exact Hlen].
  apply Forall2_app_inv_both in R2; [|exact Hlen].
  destruct R1 as [_ R1]. destruct R2 as [_ R2].
  rewrite !mixed_radix_app by exact Hlen.
  inversion R1 as [|? ? ? ? _ T1]; subst. inversion R2 as [|? ? ? ? _ T2]; subst.
  pose proof (MixedRadix.mixed_radix_bound _ _ T1) as B1.
  pose proof (MixedRadix.mixed_radix_bound _ _ T2) as B2.
  cbn [mixed_radix].
  assert (HP : (d1 + 1) * prodZ bt <= d2 * prodZ bt)
    by (apply Z.mul_le_mono_nonneg_r; lia).
  lia.
Qed.

(** ** Bins follow the order of the values *)

(** X12. On strictly ascending edges the bin found by the search is
    monotone in the value: a value that is at most another one gets at most
    its bin (the results -1, below the first edge, and [edgeCount - 1], at or
    above the last edge, included). *)
Theorem bin_of_monotone (lims : TArrayF) (v v' : float) :
  ascending lims = true -> SFleb v v' = true ->
  bin_of lims v <= bin_of lims v'.
Proof.
  intros Hasc Hle.
  pose proof (TMathFacts.BinarySearch_range lims v) as Hr.
  pose proof (TMathFacts.BinarySearch_range lims v') as Hr'.
  destruct (Z_le_gt_dec (bin_of lims v) (bin_of lims v')) as [|Hgt]; [assumption|].
  exfalso. unfold GetSize in *.
  assert (H0 : 0 <= bin_of lims v) by lia.
  pose proof (TMathFacts.BinarySearch_lower lims v H0) as Hlow.
  set (r := Z.to_nat (bin_of lims v)) in *.
  assert (Hrlt : (r < length lims)%nat) by lia.
  pose proof (F32Facts.leb_trans _ _ _ Hlow Hle) as Hlow'.
  destruct (Z.eq_dec (bin_of lims v') (-1)) as [Hm|Hm].
  - destruct (TMathFacts.BinarySearch_below lims v' Hm) as [->|Hb]; [simpl in Hrlt; lia|].
    rewrite (BinFacts.first_le_edge lims r v' Hasc Hrlt Hlow') in Hb. discriminate.
  - assert (Hrange : 0 <= bin_of lims v' < GetSize lims - 1) by (unfold GetSize; lia).
    pose proof (BinFacts.BinarySearch_upper lims v' Hasc Hrange) as Hup.
    set (r' := Z.to_nat (bin_of lims v')) in *.
    assert (Hlt : SFltb v' (edge lims r) = true).
    { destruct (Nat.eq_dec (r' + 1) r) as [<-|Hne]; [exact Hup|].
      apply F32Facts.ltb_trans with (edge lims (r' + 1)); [exact Hup|].
      apply TMathFacts.ascending_lt; [assumption|lia|lia]. }
    apply F32Facts.leb_not_gt in Hlow'. congruence.
Qed.

(** ** Every cell is reached *)

(** A value on the lower edge of a bin is in that bin. *)
Lemma bin_of_edge lims i :
  ascending lims = true -> (S i < length lims)%nat ->
  bin_of lims (edge lims i) = Z.of_nat i.
Proof.
  intros Hasc Hi. apply (BinFacts.BinarySearch_bin lims (edge lims i) i Hasc Hi).
  pose proof (TMathFacts.ascending_step lims i Hasc Hi) as Hstep.
  split; [|exact Hstep].
  apply F32Facts.leb_refl. apply (F32Facts.ltb_not_nan _ _ Hstep).
Qed.

Lemma axis_bins_values_at axs : forall ds,
  NoDup (map fst axs) ->
  Forall (fun axis => ascending (snd axis) = true) axs ->
  Forall2 in_radix ds (map (fun axis => binCount (snd axis)) axs) ->
  map (axis_bin (values_at axs ds)) axs = ds.
Proof.
  induction axs as [|[v l] axs IH]; intros ds Hnd Hasc Hrad.
  - inversion Hrad. reflexivity.
  - cbn [map fst snd] in *. inversion Hrad as [|d b ds' bs' Hd Hrest]; subst.
    inversion Hnd as [|? ? Hnotin Hnd']; subst.
    inversion Hasc as [|? ? Hl Hasc']; subst. cbn [snd] in Hl.
    f_equal.
    + unfold axis_bin. cbn [fst snd values_at]. rewrite Z.eqb_refl.
      unfold in_radix, binCount, GetSize in Hd.
      rewrite bin_of_edge by (assumption || lia). lia.
    + rewrite <- (IH ds' Hnd' Hasc' Hrest) at 2.
      apply map_ext_in. intros [v' l'] Hin.
      unfold axis_bin. cbn [fst snd values_at].
      destruct (Z.eqb_spec v v') as [->|_]; [|reflexivity].
      exfalso. apply Hnotin. apply (in_map fst) in Hin. exact Hin.
Qed.

Lemma in_radix_usable values (axs : list (Z * TArrayF)) :
  Forall2 in_radix (map (axis_bin values) axs)
    (map (fun axis => binCount (snd axis)) axs) ->
  forallb (usable values) axs = true.
Proof.
  induction axs as [|axis axs IH]; intros H; [reflexivity|].
  cbn [map] in H. inversion H; subst. cbn [forallb].
  apply andb_true_intro. split; [|now apply IH].
  now apply usable_range.
Qed.

(** X13. Every cell is reached: on a grid with at least one axis, distinct
    identifiers, strictly ascending edges, at least two edges on every axis
    and a cell count within a 32-bit [int], every [c] in [[0, totalCells)] is
    the category [FindEventCategory] returns for some observable array
    inside every edge range. *)
Theorem every_cell_reached (h : MixingHandler) (c : Z) :
  handler_ok h = true -> nvars h <> 0%nat ->
  NoDup (fVariables h) -> all_ascending h = true ->
  Forall (fun lims => (2 <= length lims)%nat) (fVariableLimits h) ->
  totalCells h <= I32.max_signed ->
  0 <= c < totalCells h ->
  exists values h',
    all_inside values h = true /\
    FindEventCategory values h = Done (c, h').
Proof.
  intros Hok Hn Hnd Hasc Hlen Htot Hc.
  set (values := values_at (axes h) (digits c (counts h))).
  assert (Hpos : Forall (fun b => 1 <= b) (counts h)).
  { unfold counts. apply Forall_map. eapply Forall_impl; [|exact Hlen].
    cbv beta. intros lims Hl. unfold binCount, GetSize. lia. }
  pose proof (digits_in_radix c (counts h) Hpos (proj1 Hc)) as Hrad.
  assert (Hbins : axis_bins values h = digits c (counts h)).
  { unfold axis_bins, values. apply axis_bins_values_at.
    - now rewrite (map_fst_axes h Hok).
    - rewrite Forall_forall. intros [v l] Hin. cbn [snd].
      unfold all_ascending in Hasc. rewrite forallb_forall in Hasc.
      apply Hasc. eapply in_combine_r. exact Hin.
    - now rewrite <- (counts_axes h Hok). }
  assert (Hus : forallb (usable values) (axes h) = true).
  { apply in_radix_usable. fold (axis_bins values h).
    now rewrite Hbins, <- (counts_axes h Hok). }
  pose proof (usable_all_inside h values Hasc Hus) as Hin.
  exists values, (initialised h). split; [exact Hin|].
  destruct (categorise_inside values h Hok Hn Hin Htot) as [Hcat _].
  rewrite Hcat, Hbins. do 2 f_equal.
  rewrite MixedRadix.mixed_radix_digits.
  - apply Z.rem_small. exact Hc.
  - eapply Forall_impl; [|exact Hpos]. cbv beta. intros; lia.
Qed.

(* ================================================================== *)
(** * Properties of the Lc candidate selector *)

Lemma pidDecision_cases fw p k q :
  pidDecision fw p k q = 1 \/ pidDecision fw p k q = 0 \/ pidDecision fw p k q = -1.
Proof.
  unfold pidDecision.
  destruct ((p =? PIDAccepted fw) && (k =? PIDAccepted fw) && (q =? PIDAccepted fw));
    [auto|].
  destruct ((p =? PIDRejected fw) || (k =? PIDRejected fw) || (q =? PIDRejected fw)); auto.
Qed.

(** A hypothesis is excluded exactly when one of its tracks is rejected. *)
Lemma pidDecision_excluded fw p k q :
  PIDAccepted fw <> PIDRejected fw ->
  (pidDecision fw p k q =? 0)
  = (p =? PIDRejected fw) || (k =? PIDRejected fw) || (q =? PIDRejected fw).
Proof.
  intros Hne. unfold pidDecision.
  destruct (Z.eqb_spec p (PIDAccepted fw)), (Z.eqb_spec k (PIDAccepted fw)),
    (Z.eqb_spec q (PIDAccepted fw)); cbn [andb];
    destruct (Z.eqb_spec p (PIDRejected fw)), (Z.eqb_spec k (PIDRejected fw)),
      (Z.eqb_spec q (PIDRejected fw)); cbn [orb]; try reflexivity; congruence.
Qed.

(** The tail of the loop body: from the two PID decisions and the two
    topological decisions to the row. *)
Lemma status_tail (table : list (Z * Z)) (p q : Z) (ta tb : bool) :
  (p = 1 \/ p = 0 \/ p = -1) -> (q = 1 \/ q = 0 \/ q = -1) ->
  (if negb ta && negb tb then table ++ [(0, 0)]
   else if (p =? 0) && (q =? 0) then table ++ [(0, 0)]
   else table ++ [(if ((p =? -1) || (p =? 1)) && ta then 1 else 0,
                   if ((q =? -1) || (q =? 1)) && tb then 1 else 0)])
  = table ++ [(statusFlag p ta, statusFlag q tb)].
Proof.
  unfold statusFlag.
  intros [-> | [-> | ->]] [-> | [-> | ->]]; destruct ta, tb; reflexivity.
Qed.

Lemma statusFlag_false pid : statusFlag pid false = 0.
Proof. unfold statusFlag. now rewrite andb_false_r. Qed.

(** One turn of the loop appends one row, made of the two status flags. *)
Lemma process_candidate_eq fw cfg table candidate :
  let trackPos1 := index0_as fw candidate in
  let trackNeg := index1_as fw candidate in
  let trackPos2 := index2_as fw candidate in
  let kaon := getStatusTrackPIDAll fw (selectorKaon fw cfg) trackNeg in
  let pre := hasLcToPKPi fw candidate && selectionTopol fw cfg candidate in
  process_candidate fw cfg table candidate
  = table ++
    [(statusFlag
        (if d_FilterPID cfg then
           pidDecision fw
             (getStatusTrackPIDAll fw (selectorProton fw cfg) trackPos1) kaon
             (getStatusTrackPIDAll fw (selectorPion fw cfg) trackPos2)
         else 1)
        (pre && selectionTopolConjugate fw cfg candidate trackPos1 trackNeg trackPos2),
      statusFlag
        (if d_FilterPID cfg then
           pidDecision fw
             (getStatusTrackPIDAll fw (selectorProton fw cfg) trackPos2) kaon
             (getStatusTrackPIDAll fw (selectorPion fw cfg) trackPos1)
         else 1)
        (pre && selectionTopolConjugate fw cfg candidate trackPos2 trackNeg trackPos1))].
Proof.
  cbv zeta. unfold process_candidate.
  destruct (hasLcToPKPi fw candidate); cbn [negb andb];
    [|now rewrite !statusFlag_false].
  destruct (selectionTopol fw cfg candidate); cbn [negb];
    [|now rewrite !statusFlag_false].
  cbv zeta.
  set (ta := selectionTopolConjugate fw cfg candidate (index0_as fw candidate)
               (index1_as fw candidate) (index2_as fw candidate)).
  set (tb := selectionTopolConjugate fw cfg candidate (index2_as fw candidate)
               (index1_as fw candidate) (index0_as fw candidate)).
  destruct (d_FilterPID cfg); cbn [negb fst snd].
  - fold (pidDecision fw
            (getStatusTrackPIDAll fw (selectorProton fw cfg) (index0_as fw candidate))
            (getStatusTrackPIDAll fw (selectorKaon fw cfg) (index1_as fw candidate))
            (getStatusTrackPIDAll fw (selectorPion fw cfg) (index2_as fw candidate))).
    set (p := pidDecision fw _ _ _).
    assert (Hq :
      (if (getStatusTrackPIDAll fw (selectorProton fw cfg) (index2_as fw candidate)
           =? PIDAccepted fw)
          && (getStatusTrackPIDAll fw (selectorKaon fw cfg) (index1_as fw candidate)
              =? PIDAccepted fw)
          && (getStatusTrackPIDAll fw (selectorPion fw cfg) (index0_as fw candidate)
              =? PIDAccepted fw) then 1
       else if (getStatusTrackPIDAll fw (selectorPion fw cfg) (index0_as fw candidate)
                =? PIDRejected fw)
               || (getStatusTrackPIDAll fw (selectorKaon fw cfg) (index1_as fw candidate)
                   =? PIDRejected fw)
               || (getStatusTrackPIDAll fw (selectorProton fw cfg) (index2_as fw candidate)
                   =? PIDRejected fw) then 0
       else -1)
      = pidDecision fw
          (getStatusTrackPIDAll fw (selectorProton fw cfg) (index2_as fw candidate))
          (getStatusTrackPIDAll fw (selectorKaon fw cfg) (index1_as fw candidate))
          (getStatusTrackPIDAll fw (selectorPion fw cfg) (index0_as fw candidate))).
    { unfold pidDecision.
      destruct (_ && _ && _); [reflexivity|].
      now rewrite (orb_comm (_ =? _) (_ =? _)), orb_comm, orb_assoc,
        (orb_comm (_ =? PIDRejected fw) (_ =? PIDRejected fw)). }
    rewrite Hq. set (q := pidDecision fw _ _ _) at 1 2 3.
    apply status_tail; apply pidDecision_cases.
  - apply (status_tail table 1 1 ta tb); auto.
Qed.

Lemma statusFlag_cases pid topol : statusFlag pid topol = 0 \/ statusFlag pid topol = 1.
Proof. unfold statusFlag. destruct (negb (pid =? 0) && topol); auto. Qed.

Lemma statusFlag_set pid topol :
  statusFlag pid topol = 1 <-> (pid =? 0) = false /\ topol = true.
Proof.
  unfold statusFlag. destruct (pid =? 0), topol; cbn; split;
    (discriminate || tauto || (intros [? ?]; discriminate) || auto).
Qed.

Lemma process_candidate_length fw cfg table candidate :
  exists row,
    process_candidate fw cfg [] candidate = [row] /\
    process_candidate fw cfg table candidate = table ++ [row] /\
    (fst row = 0 \/ fst row = 1) /\ (snd row = 0 \/ snd row = 1).
Proof.
  rewrite (process_candidate_eq fw cfg table), (process_candidate_eq fw cfg []).
  eexists. split; [reflexivity|]. split; [reflexivity|].
  cbn [fst snd]. split; apply statusFlag_cases.
Qed.

Lemma process_rows fw cfg candidates : forall table,
  fold_left (process_candidate fw cfg) candidates table
  = table ++ flat_map (process_candidate fw cfg []) candidates.
Proof.
  induction candidates as [|c rest IH]; intros table.
  - cbn. now rewrite app_nil_r.
  - cbn [fold_left flat_map].
    destruct (process_candidate_length fw cfg table c) as (row & H0 & Ht & _).
    now rewrite IH, Ht, H0, <- app_assoc.
Qed.

Lemma rows_length fw cfg candidates :
  length (flat_map (process_candidate fw cfg []) candidates) = length candidates.
Proof.
  induction candidates as [|c rest IH]; [reflexivity|].
  cbn [flat_map].
  destruct (process_candidate_length fw cfg [] c) as (row & H0 & _).
  rewrite H0. cbn [app length]. now rewrite IH.
Qed.

(** X14. [process] writes one row per candidate, in the order of the
    candidates and after the rows the table already had; the row of a
    candidate is the one its turn writes on an empty table, so it depends on
    no other candidate; and every flag written is 0 or 1. *)
Theorem process_one_row_each (fw : Framework) (cfg : Configurables)
  (candidates : list (Candidate fw)) (hfSelLcCandidate : list (Z * Z)) :
  process fw cfg candidates hfSelLcCandidate
  = hfSelLcCandidate ++ flat_map (process_candidate fw cfg []) candidates /\
  length (process fw cfg candidates hfSelLcCandidate)
  = (length hfSelLcCandidate + length candidates)%nat /\
  Forall (fun row => (fst row = 0 \/ fst row = 1) /\ (snd row = 0 \/ snd row = 1))
    (flat_map (process_candidate fw cfg []) candidates).
Proof.
  unfold process. rewrite process_rows. split; [reflexivity|]. split.
  - now rewrite length_app, rows_length.
  - induction candidates as [|c rest IH]; [constructor|].
    cbn [flat_map].
    destruct (process_candidate_length fw cfg [] c) as (row & H0 & _ & Hf).
    rewrite H0. cbn [app]. now constructor.
Qed.

(** X15. The flag of each hypothesis, under distinct status codes for
    accepted and rejected: a candidate is flagged as pKpi exactly when its
    decay-type bit is set, it passes the conjugate-independent cuts and the
    conjugate-dependent cuts with the first daughter as proton, and, if the
    PID filter is on, none of proton (first daughter), kaon (second) and
    pion (third) is rejected; likewise as piKp with the first and third
    daughters exchanged.  The flag of one hypothesis does not depend on the
    cuts or the PID of the other. *)
Theorem status_flags_iff (fw : Framework) (cfg : Configurables)
  (hfSelLcCandidate : list (Z * Z)) (candidate : Candidate fw) :
  PIDAccepted fw <> PIDRejected fw ->
  let trackPos1 := index0_as fw candidate in
  let trackNeg := index1_as fw candidate in
  let trackPos2 := index2_as fw candidate in
  exists statusLcpKpi statusLcpiKp,
    process_candidate fw cfg hfSelLcCandidate candidate
    = hfSelLcCandidate ++ [(statusLcpKpi, statusLcpiKp)] /\
    (statusLcpKpi = 1 <->
     hasLcToPKPi fw candidate = true /\
     selectionTopol fw cfg candidate = true /\
     selectionTopolConjugate fw cfg candidate trackPos1 trackNeg trackPos2 = true /\
     (d_FilterPID cfg = true ->
      getStatusTrackPIDAll fw (selectorProton fw cfg) trackPos1 <> PIDRejected fw /\
      getStatusTrackPIDAll fw (selectorKaon fw cfg) trackNeg <> PIDRejected fw /\
      getStatusTrackPIDAll fw (selectorPion fw cfg) trackPos2 <> PIDRejected fw)) /\
    (statusLcpiKp = 1 <->
     hasLcToPKPi fw candidate = true /\
     selectionTopol fw cfg candidate = true /\
     selectionTopolConjugate fw cfg candidate trackPos2 trackNeg trackPos1 = true /\
     (d_FilterPID cfg = true ->
      getStatusTrackPIDAll fw (selectorProton fw cfg) trackPos2 <> PIDRejected fw /\
      getStatusTrackPIDAll fw (selectorKaon fw cfg) trackNeg <> PIDRejected fw /\
      getStatusTrackPIDAll fw (selectorPion fw cfg) trackPos1 <> PIDRejected fw)).
Proof.
  intros Hne trackPos1 trackNeg trackPos2.
  rewrite process_candidate_eq. do 2 eexists. split; [reflexivity|].
  fold trackPos1 trackNeg trackPos2.
  rewrite !statusFlag_set, !andb_true_iff.
  destruct (d_FilterPID cfg).
  - rewrite !(pidDecision_excluded fw _ _ _ Hne), !orb_false_iff, !Z.eqb_neq.
    split; split; intros H; repeat split; try tauto.
  - split; split; intros H; repeat split; try tauto; discriminate.
Qed.

(** What a passed conjugate-dependent selection says about the cuts. *)
Lemma selectionTopolConjugate_true fw cfg candidate trackProton trackKaon trackPion :
  selectionTopolConjugate fw cfg candidate trackProton trackKaon trackPion = true ->
  let pTBin := findBin fw (pTBins cfg) (pt fw candidate) in
  pTBin <> -1 /\
  F64.lt (track_pt fw trackProton) (cuts cfg pTBin Label.pT_p) = false /\
  F64.lt (track_pt fw trackKaon) (cuts cfg pTBin Label.pT_K) = false /\
  F64.lt (track_pt fw trackPion) (cuts cfg pTBin Label.pT_Pi) = false /\
  F64.gt (F64.abs (F64.sub
            (if globalIndex fw trackProton =? index0Id fw candidate
             then InvMassLcpKpi fw candidate else InvMassLcpiKp fw candidate)
            (massLambdaCPlus fw)))
    (cuts cfg pTBin Label.m) = false.
Proof.
  unfold selectionTopolConjugate. cbv zeta.
  destruct (Z.eqb_spec (findBin fw (pTBins cfg) (pt fw candidate)) (-1));
    [discriminate|].
  destruct (F64.lt (track_pt fw trackProton) _); [discriminate|].
  destruct (F64.lt (track_pt fw trackKaon) _); [discriminate|].
  destruct (F64.lt (track_pt fw trackPion) _); [discriminate|].
  cbn [orb].
  destruct (globalIndex fw trackProton =? index0Id fw candidate);
    destruct (F64.gt _ _); (discriminate || auto).
Qed.

(** X16. The mass window of a flagged candidate, when the first daughter is
    the track the candidate's first index names and the third daughter is
    another track: a candidate flagged as pKpi has its three daughters at or
    above the pT cuts of proton, kaon and pion in that order and its pKpi
    mass not further from the Lambda_c mass than the cut of its pT bin; one
    flagged as piKp passes the same with the first and third daughters
    exchanged and the piKp mass. *)
Theorem flagged_mass_window (fw : Framework) (cfg : Configurables)
  (hfSelLcCandidate : list (Z * Z)) (candidate : Candidate fw) :
  globalIndex fw (index0_as fw candidate) = index0Id fw candidate ->
  globalIndex fw (index2_as fw candidate) <> index0Id fw candidate ->
  let trackPos1 := index0_as fw candidate in
  let trackNeg := index1_as fw candidate in
  let trackPos2 := index2_as fw candidate in
  let pTBin := findBin fw (pTBins cfg) (pt fw candidate) in
  exists statusLcpKpi statusLcpiKp,
    process_candidate fw cfg hfSelLcCandidate candidate
    = hfSelLcCandidate ++ [(statusLcpKpi, statusLcpiKp)] /\
    (statusLcpKpi = 1 ->
     F64.lt (track_pt fw trackPos1) (cuts cfg pTBin Label.pT_p) = false /\
     F64.lt (track_pt fw trackNeg) (cuts cfg pTBin Label.pT_K) = false /\
     F64.lt (track_pt fw trackPos2) (cuts cfg pTBin Label.pT_Pi) = false /\
     F64.gt (F64.abs (F64.sub (InvMassLcpKpi fw candidate) (massLambdaCPlus fw)))
       (cuts cfg pTBin Label.m) = false) /\
    (statusLcpiKp = 1 ->
     F64.lt (track_pt fw trackPos2) (cuts cfg pTBin Label.pT_p) = false /\
     F64.lt (track_pt fw trackNeg) (cuts cfg pTBin Label.pT_K) = false /\
     F64.lt (track_pt fw trackPos1) (cuts cfg pTBin Label.pT_Pi) = false /\
     F64.gt (F64.abs (F64.sub (InvMassLcpiKp fw candidate) (massLambdaCPlus fw)))
       (cuts cfg pTBin Label.m) = false).
Proof.
  intros H0 H2 trackPos1 trackNeg trackPos2 pTBin.
  rewrite process_candidate_eq. do 2 eexists. split; [reflexivity|].
  fold trackPos1 trackNeg trackPos2.
  rewrite !statusFlag_set, !andb_true_iff.
  split; intros (_ & _ & Ht); apply selectionTopolConjugate_true in Ht;
    cbv zeta in Ht; fold pTBin in Ht; destruct Ht as (_ & Hp & Hk & Hpi & Hm).
  - unfold trackPos1 in Hm at 1. rewrite H0, Z.eqb_refl in Hm. auto.
  - apply Z.eqb_neq in H2. unfold trackPos2 in Hm at 1. rewrite H2 in Hm. auto.
Qed.

Lemma F64_nan_lt_l x y : F64.is_nan x = true -> F64.lt x y = false.
Proof. destruct x; try discriminate. reflexivity. Qed.

Lemma F64_nan_le_l x y : F64.is_nan x = true -> F64.le x y = false.
Proof. destruct x; try discriminate. reflexivity. Qed.

Lemma F64_nan_gt_l x y : F64.is_nan x = true -> F64.gt x y = false.
Proof. destruct x; try discriminate. now destruct y. Qed.

Lemma F64_nan_ge_l x y : F64.is_nan x = true -> F64.ge x y = false.
Proof. destruct x; try discriminate. now destruct y. Qed.

(** X17. No cut of [selectionTopol] rejects a NaN: a candidate whose pT bin
    is found passes the conjugate-independent selection when each of its
    pT, cosine of pointing angle, chi2 and decay length either is a NaN or
    passes its own comparison, whatever the cut values are for the NaN
    ones. *)
Theorem selectionTopol_nan_passes (fw : Framework) (cfg : Configurables)
  (candidate : Candidate fw) (pTBin : Z) :
  pTBin = findBin fw (pTBins cfg) (pt fw candidate) ->
  pTBin <> -1 ->
  F64.is_nan (pt fw candidate) = true \/
    (F64.lt (pt fw candidate) (d_pTCandMin cfg) = false /\
     F64.ge (pt fw candidate) (d_pTCandMax cfg) = false) ->
  F64.is_nan (cpa fw candidate) = true \/
    F64.le (cpa fw candidate) (cuts cfg pTBin Label.cos_pointing_angle) = false ->
  F64.is_nan (chi2PCA fw candidate) = true \/
    F64.gt (chi2PCA fw candidate) (cuts cfg pTBin Label.Chi2PCA) = false ->
  F64.is_nan (decayLength fw candidate) = true \/
    F64.le (decayLength fw candidate) (cuts cfg pTBin Label.decay_length) = false ->
  selectionTopol fw cfg candidate = true.
Proof.
  intros EpT Hbin Hpt Hcpa Hchi Hlen.
  unfold selectionTopol. cbv zeta. rewrite <- EpT.
  apply Z.eqb_neq in Hbin. rewrite Hbin.
  assert (E1 : F64.lt (pt fw candidate) (d_pTCandMin cfg)
               || F64.ge (pt fw candidate) (d_pTCandMax cfg) = false).
  { destruct Hpt as [N|[-> ->]]; [|reflexivity].
    now rewrite F64_nan_lt_l, F64_nan_ge_l. }
  rewrite E1.
  assert (E2 : F64.le (cpa fw candidate) (cuts cfg pTBin Label.cos_pointing_angle)
               = false) by (destruct Hcpa; [now apply F64_nan_le_l|assumption]).
  assert (E3 : F64.gt (chi2PCA fw candidate) (cuts cfg pTBin Label.Chi2PCA) = false)
    by (destruct Hchi; [now apply F64_nan_gt_l|assumption]).
  assert (E4 : F64.le (decayLength fw candidate) (cuts cfg pTBin Label.decay_length)
               = false) by (destruct Hlen; [now apply F64_nan_le_l|assumption]).
  now rewrite E2, E3, E4.
Qed.

(* ================================================================== *)
(** * The further properties on the examples *)

Lemma FindEventCategory_reads_registered_witness :
  (forall var, In var (fVariables scenario) ->
     scenario_values 15 0 var
     = (fun v => if v =? 0 then F32.of_Z 15 else if v =? 1 then F32.of_Z 0
                 else S754_nan) var) /\
  FindEventCategory (scenario_values 15 0) scenario
  = FindEventCategory
      (fun v => if v =? 0 then F32.of_Z 15 else if v =? 1 then F32.of_Z 0
                else S754_nan) scenario.
Proof.
  assert (H : forall var, In var (fVariables scenario) ->
     scenario_values 15 0 var
     = (fun v => if v =? 0 then F32.of_Z 15 else if v =? 1 then F32.of_Z 0
                 else S754_nan) var).
  { intros var [<-|[<-|[]]]; reflexivity. }
  split; [exact H|].
  exact (FindEventCategory_reads_registered _ _ scenario H).
Defined.

Lemma FindEventCategory_nan_witness :
  handler_ok scenario = true /\ In 1 (fVariables scenario) /\
  F32.is_nan ((fun v => if v =? 1 then S754_nan else F32.of_Z 15) 1) = true /\
  exists h',
    FindEventCategory (fun v => if v =? 1 then S754_nan else F32.of_Z 15) scenario
    = Done (-1, h').
Proof.
  assert (H1 : handler_ok scenario = true) by reflexivity.
  assert (H2 : In 1 (fVariables scenario)) by (simpl; auto).
  assert (H3 : F32.is_nan ((fun v => if v =? 1 then S754_nan else F32.of_Z 15) 1) = true)
    by reflexivity.
  repeat (split; [assumption|]).
  exact (FindEventCategory_nan _ scenario 1 H1 H2 H3).
Defined.

Lemma AddMixingVariable_short_axis_witness :
  handler_ok scenario = true /\ 0 <= 1 <= 1 /\
  AddMixingVariable (list Z) cons 2 1 (edges [5]) (scenario, [])
  = Done ({| fIsInitialized := false;
             fVariableLimits := fVariableLimits scenario ++ [edges [5]];
             fVariables := fVariables scenario ++ [2] |}, [2]) /\
  FindEventCategory (constant_values 5)
    {| fIsInitialized := false;
       fVariableLimits := fVariableLimits scenario ++ [edges [5]];
       fVariables := fVariables scenario ++ [2] |}
  = Done (-1, initialised
                {| fIsInitialized := false;
                   fVariableLimits := fVariableLimits scenario ++ [edges [5]];
                   fVariables := fVariables scenario ++ [2] |}).
Proof.
  assert (H1 : handler_ok scenario = true) by reflexivity.
  assert (H2 : 0 <= 1 <= 1) by lia.
  assert (H3 : AddMixingVariable (list Z) cons 2 1 (edges [5]) (scenario, [])
               = Done ({| fIsInitialized := false;
                          fVariableLimits := fVariableLimits scenario ++ [edges [5]];
                          fVariables := fVariables scenario ++ [2] |}, [2]))
    by reflexivity.
  repeat (split; [assumption|]).
  exact (AddMixingVariable_short_axis (list Z) cons 2 1 (edges [5]) scenario _ [] [2]
           (constant_values 5) H1 H2 H3).
Defined.

Lemma GetMixingVariableLimits_matches_witness :
  handler_ok scenario = true /\ NoDup (fVariables scenario) /\
  GetMixingVariableLimits 1 scenario = Done (edges [-1; 1]) /\
  GetMixingVariableLimits 7 scenario = Done [].
Proof.
  assert (H1 : handler_ok scenario = true) by reflexivity.
  split; [exact H1|]. split; [exact scenario_NoDup|].
  destruct (GetMixingVariableLimits_matches 1 scenario H1) as (_ & _ & Hk).
  destruct (GetMixingVariableLimits_matches 7 scenario H1) as (_ & Hno & _).
  split.
  - exact (Hk 1%nat (edges [-1; 1]) scenario_NoDup eq_refl eq_refl).
  - apply Hno. simpl. intros [C|[C|[]]]; discriminate C.
Defined.

Lemma AddMixingVariable_then_lookup_witness :
  handler_ok scenario = true /\
  AddMixingVariable (list Z) cons 0 2 (edges [5; 6]) (scenario, [])
  = Done ({| fIsInitialized := false;
             fVariableLimits := fVariableLimits scenario ++ [edges [5; 6]];
             fVariables := fVariables scenario ++ [0] |}, [0]) /\
  GetMixingVariable 0
    {| fIsInitialized := false;
       fVariableLimits := fVariableLimits scenario ++ [edges [5; 6]];
       fVariables := fVariables scenario ++ [0] |}
  = Done 2.
Proof.
  assert (H1 : handler_ok scenario = true) by reflexivity.
  assert (H2 : AddMixingVariable (list Z) cons 0 2 (edges [5; 6]) (scenario, [])
               = Done ({| fIsInitialized := false;
                          fVariableLimits := fVariableLimits scenario ++ [edges [5; 6]];
                          fVariables := fVariables scenario ++ [0] |}, [0]))
    by reflexivity.
  repeat (split; [assumption|]).
  exact (proj1 (AddMixingVariable_then_lookup (list Z) cons 0 2 (edges [5; 6])
                  scenario _ [] [0] H1 H2)).
Defined.

Lemma AddMixingVariable_vector_bounds_witness :
  -1 < 0 /\ 0 <= 3 /\ 0 <= 2 /\
  (length (edges [-1; 1]%Z) < Z.to_nat 3%Z)%nat /\
  (Z.to_nat 2%Z <= length (edges [-1; 1]%Z))%nat /\
  AddMixingVariable_vector (list Z) cons (fun _ => S754_nan) 1 (-1) (edges [-1; 1])
    (MixingHandler_new, [])
  = Undefined BadArrayNewLength /\
  AddMixingVariable_vector (list Z) cons (fun _ => S754_nan) 1 2 (edges [-1; 1])
    (MixingHandler_new, [])
  = Done ({| fIsInitialized := false;
             fVariableLimits := [] ++ [firstn (Z.to_nat 2) (edges [-1; 1])];
             fVariables := [] ++ [1] |}, [1]) /\
  AddMixingVariable_vector (list Z) cons (fun _ => S754_nan) 1 3 (edges [-1; 1])
    (MixingHandler_new, [])
  = Undefined OutOfBounds.
Proof.
  assert (H0 : -1 < 0) by lia.
  assert (H1 : 0 <= 3) by lia.
  assert (H2 : 0 <= 2) by lia.
  assert (H3 : (length (edges [-1; 1]%Z) < Z.to_nat 3%Z)%nat) by (simpl; lia).
  assert (H4 : (Z.to_nat 2%Z <= length (edges [-1; 1]%Z))%nat) by (simpl; lia).
  repeat (split; [assumption|]).
  split; [|split].
  - exact (proj1 (AddMixingVariable_vector_bounds (list Z) cons (fun _ => S754_nan)
                    1 (-1) (edges [-1; 1]) MixingHandler_new []) H0).
  - exact (proj1 (proj2 (AddMixingVariable_vector_bounds (list Z) cons
                           (fun _ => S754_nan) 1 2 (edges [-1; 1])
                           MixingHandler_new [])) H2 H4).
  - exact (proj2 (proj2 (AddMixingVariable_vector_bounds (list Z) cons
                           (fun _ => S754_nan) 1 3 (edges [-1; 1])
                           MixingHandler_new [])) H1 H3).
Defined.

Lemma GetBinFromCategory_follows_lookup_witness :
  handler_ok scenario = true /\ In 0 (fVariables scenario) /\
  totalCells scenario <> 0 /\ Z.abs (totalCells scenario) <= I32.max_signed /\
  0 <= 2 <= I32.max_signed /\
  exists t b,
    GetMixingVariable 0 scenario = Done (Z.of_nat t) /\
    nth_error (counts scenario) t = Some b /\
    GetBinFromCategory 0 2 scenario
    = Done (Z.rem (Z.quot 2 (prodZ (skipn (S t) (counts scenario)))) b).
Proof.
  assert (H1 : handler_ok scenario = true) by reflexivity.
  assert (H2 : In 0 (fVariables scenario)) by (simpl; auto).
  assert (H3 : totalCells scenario <> 0) by (vm_compute; discriminate).
  assert (H4 : Z.abs (totalCells scenario) <= I32.max_signed)
    by (vm_compute; discriminate).
  assert (H5 : 0 <= 2 <= I32.max_signed)
    by (vm_compute; split; discriminate).
  repeat (split; [assumption|]).
  destruct (GetBinFromCategory_follows_lookup 0 2 scenario H1 H2 H3 H4 H5)
    as (t & b & Ha & Hb & Hc & _).
  exists t, b. auto.
Defined.

Lemma decode_of_categorize_witness :
  handler_ok scenario = true /\ nvars scenario <> 0%nat /\
  NoDup (fVariables scenario) /\
  all_inside (scenario_values 25 0) scenario = true /\
  totalCells scenario <= I32.max_signed /\
  exists c h',
    FindEventCategory (scenario_values 25 0) scenario = Done (c, h') /\
    GetBinFromCategory 0 c h'
    = Done (bin_of (edges [0; 10; 20; 30]) (scenario_values 25 0 0)).
Proof.
  assert (H1 : handler_ok scenario = true) by reflexivity.
  assert (H2 : nvars scenario <> 0%nat) by discriminate.
  assert (H3 : all_inside (scenario_values 25 0) scenario = true) by reflexivity.
  assert (H4 : totalCells scenario <= I32.max_signed) by (vm_compute; discriminate).
  repeat (split; [first [assumption | exact scenario_NoDup]|]).
  destruct (decode_of_categorize (scenario_values 25 0) scenario H1 H2
              scenario_NoDup H3 H4) as (c & h' & Hcat & Hdec).
  exists c, h'. split; [exact Hcat|].
  exact (Hdec 0%nat 0 (edges [0; 10; 20; 30]) eq_refl eq_refl).
Defined.

Lemma AddMixingVariable_extends_category_witness :
  handler_ok scenario = true /\
  AddMixingVariable (list Z) cons 2 3 (edges [0; 1; 2]) (scenario, [])
  = Done ({| fIsInitialized := false;
             fVariableLimits := fVariableLimits scenario ++ [edges [0; 1; 2]];
             fVariables := fVariables scenario ++ [2] |}, [2]) /\
  all_inside (fun v => if v =? 0 then F32.of_Z 25 else if v =? 1 then F32.of_Z 0
                       else F32.of_Z 1)
    {| fIsInitialized := false;
       fVariableLimits := fVariableLimits scenario ++ [edges [0; 1; 2]];
       fVariables := fVariables scenario ++ [2] |} = true /\
  totalCells
    {| fIsInitialized := false;
       fVariableLimits := fVariableLimits scenario ++ [edges [0; 1; 2]];
       fVariables := fVariables scenario ++ [2] |} <= I32.max_signed /\
  nvars scenario <> 0%nat /\
  exists c h1 h1' lims,
    nth_error (fVariableLimits scenario ++ [edges [0; 1; 2]]) (nvars scenario)
    = Some lims /\
    FindEventCategory
      (fun v => if v =? 0 then F32.of_Z 25 else if v =? 1 then F32.of_Z 0
                else F32.of_Z 1) scenario = Done (c, h1) /\
    FindEventCategory
      (fun v => if v =? 0 then F32.of_Z 25 else if v =? 1 then F32.of_Z 0
                else F32.of_Z 1)
      {| fIsInitialized := false;
         fVariableLimits := fVariableLimits scenario ++ [edges [0; 1; 2]];
         fVariables := fVariables scenario ++ [2] |}
    = Done (c * binCount lims + bin_of lims (F32.of_Z 1), h1').
Proof.
  assert (H1 : handler_ok scenario = true) by reflexivity.
  assert (H2 : nvars scenario <> 0%nat) by discriminate.
  assert (H3 : AddMixingVariable (list Z) cons 2 3 (edges [0; 1; 2]) (scenario, [])
               = Done ({| fIsInitialized := false;
                          fVariableLimits := fVariableLimits scenario ++ [edges [0; 1; 2]];
                          fVariables := fVariables scenario ++ [2] |}, [2]))
    by reflexivity.
  assert (H4 : all_inside
                 (fun v => if v =? 0 then F32.of_Z 25 else if v =? 1 then F32.of_Z 0
                           else F32.of_Z 1)
                 {| fIsInitialized := false;
                    fVariableLimits := fVariableLimits scenario ++ [edges [0; 1; 2]];
                    fVariables := fVariables scenario ++ [2] |} = true)
    by reflexivity.
  assert (H5 : totalCells
                 {| fIsInitialized := false;
                    fVariableLimits := fVariableLimits scenario ++ [edges [0; 1; 2]];
                    fVariables := fVariables scenario ++ [2] |} <= I32.max_signed)
    by (vm_compute; discriminate).
  repeat (split; [assumption|]).
  destruct (AddMixingVariable_extends_category (list Z) cons 2 3 (edges [0; 1; 2])
              scenario _ [] [2] _ H1 H3 H4 H5) as (lims & h1' & Hl & _ & Hext).
  destruct (Hext H2) as (c & h1 & Hc & _ & Hc').
  exists c, h1, h1', lims. auto.
Defined.

Lemma category_order_witness :
  handler_ok scenario = true /\ (0 < nvars scenario)%nat /\
  all_inside (scenario_values 15 0) scenario = true /\
  all_inside (scenario_values 25 0) scenario = true /\
  totalCells scenario <= I32.max_signed /\
  firstn 0 (axis_bins (scenario_values 15 0) scenario)
  = firstn 0 (axis_bins (scenario_values 25 0) scenario) /\
  nth 0 (axis_bins (scenario_values 15 0) scenario) 0
  < nth 0 (axis_bins (scenario_values 25 0) scenario) 0 /\
  exists c1 c2 h1 h2,
    FindEventCategory (scenario_values 15 0) scenario = Done (c1, h1) /\
    FindEventCategory (scenario_values 25 0) scenario = Done (c2, h2) /\
    c1 < c2.
Proof.
  assert (H1 : handler_ok scenario = true) by reflexivity.
  assert (H2 : (0 < nvars scenario)%nat) by (vm_compute; lia).
  assert (H3 : all_inside (scenario_values 15 0) scenario = true) by reflexivity.
  assert (H4 : all_inside (scenario_values 25 0) scenario = true) by reflexivity.
  assert (H5 : totalCells scenario <= I32.max_signed) by (vm_compute; discriminate).
  assert (H6 : firstn 0 (axis_bins (scenario_values 15 0) scenario)
               = firstn 0 (axis_bins (scenario_values 25 0) scenario)) by reflexivity.
  assert (H7 : nth 0 (axis_bins (scenario_values 15 0) scenario) 0
               < nth 0 (axis_bins (scenario_values 25 0) scenario) 0)
    by (vm_compute; reflexivity).
  repeat (split; [assumption|]).
  exact (category_order _ _ scenario 0%nat H1 H2 H3 H4 H5 H6 H7).
Defined.

Lemma bin_of_monotone_witness :
  ascending (edges [0; 10; 20; 30]) = true /\
  SFleb (F32.of_Z 5) (F32.of_Z 25) = true /\
  bin_of (edges [0; 10; 20; 30]) (F32.of_Z 5)
  <= bin_of (edges [0; 10; 20; 30]) (F32.of_Z 25).
Proof.
  assert (H1 : ascending (edges [0; 10; 20; 30]) = true) by reflexivity.
  assert (H2 : SFleb (F32.of_Z 5) (F32.of_Z 25) = true) by reflexivity.
  repeat (split; [assumption|]).
  exact (bin_of_monotone _ _ _ H1 H2).
Defined.

Lemma every_cell_reached_witness :
  handler_ok scenario = true /\ nvars scenario <> 0%nat /\
  NoDup (fVariables scenario) /\ all_ascending scenario = true /\
  Forall (fun lims => (2 <= length lims)%nat) (fVariableLimits scenario) /\
  totalCells scenario <= I32.max_signed /\
  0 <= 2 < totalCells scenario /\
  exists values h',
    all_inside values scenario = true /\
    FindEventCategory values scenario = Done (2, h').
Proof.
  assert (H1 : handler_ok scenario = true) by reflexivity.
  assert (H2 : nvars scenario <> 0%nat) by discriminate.
  assert (H3 : all_ascending scenario = true) by reflexivity.
  assert (H4 : Forall (fun lims => (2 <= length lims)%nat) (fVariableLimits scenario))
    by (repeat constructor).
  assert (H5 : totalCells scenario <= I32.max_signed) by (vm_compute; discriminate).
  assert (H6 : 0 <= 2 < totalCells scenario)
    by (vm_compute; split; [discriminate|reflexivity]).
  repeat (split; [first [assumption | exact scenario_NoDup]|]).
  exact (every_cell_reached scenario 2 H1 H2 scenario_NoDup H3 H4 H5 H6).
Defined.

Lemma status_flags_iff_witness :
  PIDAccepted sampleFramework <> PIDRejected sampleFramework /\
  exists statusLcpKpi statusLcpiKp,
    process_candidate sampleFramework sampleConfigurables []
      (sampleCandidate (F64.of_Z 1) 1)
    = [] ++ [(statusLcpKpi, statusLcpiKp)] /\
    statusLcpKpi <> 1 /\ statusLcpiKp <> 1.
Proof.
  assert (H1 : PIDAccepted sampleFramework <> PIDRejected sampleFramework)
    by discriminate.
  split; [exact H1|].
  destruct (status_flags_iff sampleFramework sampleConfigurables []
              (sampleCandidate (F64.of_Z 1) 1) H1) as (a & b & Hrow & Ha & Hb).
  exists a, b. split; [exact Hrow|]. split.
  - intros C. apply Ha in C. destruct C as (_ & _ & _ & C).
    destruct (C eq_refl) as (C1 & _). now apply C1.
  - intros C. apply Hb in C. destruct C as (_ & _ & C & _). discriminate C.
Defined.

Lemma flagged_mass_window_witness :
  globalIndex sampleFramework
    (index0_as sampleFramework (sampleCandidate (F64.of_Z 1) 3))
  = index0Id sampleFramework (sampleCandidate (F64.of_Z 1) 3) /\
  globalIndex sampleFramework
    (index2_as sampleFramework (sampleCandidate (F64.of_Z 1) 3))
  <> index0Id sampleFramework (sampleCandidate (F64.of_Z 1) 3) /\
  exists statusLcpKpi statusLcpiKp,
    process_candidate sampleFramework sampleConfigurables []
      (sampleCandidate (F64.of_Z 1) 3)
    = [] ++ [(statusLcpKpi, statusLcpiKp)] /\
    (statusLcpKpi = 1 ->
     F64.gt (F64.abs (F64.sub (F64.of_Z 2) (F64.of_Z 2))) (F64.of_Z 1) = false).
Proof.
  assert (H1 : globalIndex sampleFramework
                 (index0_as sampleFramework (sampleCandidate (F64.of_Z 1) 3))
               = index0Id sampleFramework (sampleCandidate (F64.of_Z 1) 3))
    by reflexivity.
  assert (H2 : globalIndex sampleFramework
                 (index2_as sampleFramework (sampleCandidate (F64.of_Z 1) 3))
               <> index0Id sampleFramework (sampleCandidate (F64.of_Z 1) 3))
    by discriminate.
  repeat (split; [assumption|]).
  destruct (flagged_mass_window sampleFramework sampleConfigurables []
              (sampleCandidate (F64.of_Z 1) 3) H1 H2) as (a & b & Hrow & Ha & _).
  exists a, b. split; [exact Hrow|].
  intros Hset. exact (proj2 (proj2 (proj2 (Ha Hset)))).
Defined.

Lemma selectionTopol_nan_passes_witness :
  0 = findBin sampleFramework (pTBins sampleConfigurables)
        (pt sampleFramework (sampleCandidate S754_nan 3)) /\
  0 <> -1 /\
  selectionTopol sampleFramework sampleConfigurables (sampleCandidate S754_nan 3)
  = true.
Proof.
  assert (H1 : 0 = findBin sampleFramework (pTBins sampleConfigurables)
                     (pt sampleFramework (sampleCandidate S754_nan 3)))
    by reflexivity.
  assert (H2 : 0 <> -1) by discriminate.
  repeat (split; [assumption|]).
  apply (selectionTopol_nan_passes sampleFramework sampleConfigurables
           (sampleCandidate S754_nan 3) 0 H1 H2).
  - right. split; reflexivity.
  - left. reflexivity.
  - left. reflexivity.
  - left. reflexivity.
Defined.
